(** * keras-resnet: a shallow embedding of resnet.py, binarize-one.py and predict.py

    The three Python modules are transcribed function by function.

    - Python exceptions are values of [exn]; fallible code returns [result].
    - A Keras layer call creates a layer object and wires it into the graph
      under construction.  The graph is threaded explicitly: a computation
      of type [K A] takes the list of nodes created so far and returns a
      value together with the extended list, or an exception.
    - Integers are [Z]; floating point values that the code only passes
      around (weights 0.5, the l2 factor) are kept as exact rationals.
    - Python 3 semantics is used for [/] (true division) and [round]
      (round half to even). *)

From Stdlib Require Import ZArith List String Bool Lia QArith.
From Stdlib Require Strings.Byte.
From stdpp Require Import base gmap strings list.
Import ListNotations.

Local Open Scope string_scope.
Local Open Scope list_scope.
Local Open Scope Z_scope.

(** ** Python runtime *)

(** An exception either comes from a [raise] statement written in this
    repository ([Raised], with the class and the message given there) or
    from the interpreter or a library ([Runtime], with its class). *)
Inductive exn : Type :=
| Raised (cls msg : string)
| Runtime (cls : string).

Inductive result (A : Type) : Type :=
| Ok (a : A)
| Err (e : exn).

Arguments Ok {A} a.
Arguments Err {A} e.

Definition rbind {A B} (r : result A) (f : A -> result B) : result B :=
  match r with
  | Ok a => f a
  | Err e => Err e
  end.

(** The names defined by [def] at the top level of resnet.py. *)
Inductive pyfun : Type :=
| F_bn_relu | F_conv_bn_relu | F_bn_relu_conv | F_shortcut | F_residual_block
| F_basic_block | F_bottleneck | F_get_block | F_resnet
| F_resnet_18 | F_resnet_34 | F_resnet_50 | F_resnet_101 | F_resnet_152.

(** Python values that can be bound to a module-level name or passed as
    [block_fn].  [PyObj] stands for an imported module or class. *)
Inductive pyval : Type :=
| PyNone
| PyBool (b : bool)
| PyInt (z : Z)
| PyStr (s : string)
| PyFunc (f : pyfun)
| PyObj (name : string).

(** Truth value of an object, as tested by [not res]. *)
Definition truthy (v : pyval) : bool :=
  match v with
  | PyNone => false
  | PyBool b => b
  | PyInt z => negb (z =? 0)
  | PyStr s => negb (String.eqb s "")
  | PyFunc _ => true
  | PyObj _ => true
  end.

(** [isinstance(identifier, six.string_types)] *)
Definition is_string (v : pyval) : bool :=
  match v with
  | PyStr _ => true
  | _ => false
  end.

(** [int(round(a / b))] on integers: true division followed by rounding
    to the nearest integer, ties to the even one.  The quotient is kept
    exact; for sizes of images the floating point quotient rounds the same
    way. *)
Definition round_half_even_div (a b : Z) : Z :=
  let q := a / b in
  let r := a mod b in
  match (2 * Z.abs r) ?= Z.abs b with
  | Lt => q
  | Gt => q + 1
  | Eq => if Z.even q then q else q + 1
  end.

(** Dimensions of a static shape are integers or [None]. *)
Abbreviation dim := (option Z).

Abbreviation shape := (list (option Z)).

Definition int_round_div (a b : dim) : result Z :=
  match a, b with
  | Some x, Some y =>
      if y =? 0 then Err (Runtime "ZeroDivisionError")
      else Ok (round_half_even_div x y)
  | _, _ => Err (Runtime "TypeError")
  end.

(** [s[axis]] for a non-negative constant [axis]. *)
Definition subscript (s : shape) (axis : Z) : result dim :=
  match s !! Z.to_nat axis with
  | Some d => Ok d
  | None => Err (Runtime "IndexError")
  end.

(** [range(n)] *)
Definition py_range (n : Z) : list Z := map Z.of_nat (seq 0 (Z.to_nat n)).

(** ** Keras layers and the graph under construction *)

Inductive padding : Type := same | valid.

Inductive regularizer : Type := l2 (factor : Q).

Record conv_config : Type := mk_conv {
  filters : Z;
  kernel_size : Z * Z;
  strides : Z * Z;
  conv_padding : padding;
  kernel_initializer : string;
  kernel_regularizer : regularizer
}.

Inductive layer : Type :=
| InputLayer (input_shape : list Z)
| Conv2D (cfg : conv_config)
| BatchNormalization (axis : Z)
| Activation (fn : string)
| MaxPooling2D (pool_size pool_strides : Z * Z) (pad : padding)
| AveragePooling2D (pool_size : dim * dim) (pool_strides : Z * Z)
| Add
| Flatten
| Dense (units : Z) (initializer activation : string).

(** A node is a layer together with the nodes whose outputs it consumes;
    its identifier is its position in the graph. *)
Record node : Type := mk_node {
  node_layer : layer;
  inbound : list nat
}.

Abbreviation graph := (list node).

(** A symbolic tensor: the node that produces it and [K.int_shape] of it. *)
Record tensor : Type := mk_tensor {
  tid : nat;
  int_shape : shape
}.

Definition K (A : Type) : Type := graph -> result (A * graph).

Definition ret {A} (a : A) : K A := fun g => Ok (a, g).

Definition bind {A B} (m : K A) (f : A -> K B) : K B :=
  fun g =>
    match m g with
    | Ok (a, g') => f a g'
    | Err e => Err e
    end.

Definition raise {A} (e : exn) : K A := fun _ => Err e.

Definition lift {A} (r : result A) : K A :=
  fun g =>
    match r with
    | Ok a => Ok (a, g)
    | Err e => Err e
    end.

Declare Scope keras_scope.
Delimit Scope keras_scope with keras.
Notation "x <- c ;; k" := (bind c (fun x => k))
  (at level 100, c at next level, right associativity) : keras_scope.

Local Open Scope keras_scope.

(** [for x in xs: acc = body(x, acc)] *)
Fixpoint for_each {A B} (xs : list A) (body : A -> B -> K B) (acc : B) : K B :=
  match xs with
  | [] => ret acc
  | x :: rest => acc' <- body x acc ;; for_each rest body acc'
  end.

(** *** Output shapes, after [conv_utils.conv_output_length] *)

Definition conv_output_length (n : dim) (k : Z) (pad : padding) (stride : Z)
  : result dim :=
  match n with
  | None => Ok None
  | Some len =>
      let out := match pad with
                 | same => len
                 | valid => len - k + 1
                 end in
      if stride =? 0 then Err (Runtime "ZeroDivisionError")
      else Ok (Some ((out + stride - 1) / stride))
  end.

Definition window_output_shape (s : shape) (k st : Z * Z) (pad : padding)
    (channels : dim) : result shape :=
  match s with
  | [b; r; c; _] =>
      rbind (conv_output_length r (fst k) pad (fst st)) (fun r' =>
      rbind (conv_output_length c (snd k) pad (snd st)) (fun c' =>
      Ok [b; r'; c'; channels]))
  | _ => Err (Runtime "ValueError")
  end.

Definition dim_mul (a b : dim) : dim :=
  match a, b with
  | Some x, Some y => Some (x * y)
  | _, _ => None
  end.

(** Shapes merged by an element-wise layer: equal sizes, or one of them 1. *)
Definition merge_dim (i j : dim) : result dim :=
  match i, j with
  | Some x, Some y =>
      if x =? 1 then Ok (Some y)
      else if y =? 1 then Ok (Some x)
      else if x =? y then Ok (Some x)
      else Err (Runtime "ValueError")
  | _, _ => Ok None
  end.

Fixpoint merge_dims (s1 s2 : shape) : result shape :=
  match s1, s2 with
  | [], [] => Ok []
  | i :: s1', j :: s2' =>
      rbind (merge_dim i j) (fun d =>
      rbind (merge_dims s1' s2') (fun rest => Ok (d :: rest)))
  | _, _ => Err (Runtime "ValueError")
  end.

Definition merge_shape (s1 s2 : shape) : result shape :=
  match s1, s2 with
  | b :: t1, _ :: t2 => rbind (merge_dims t1 t2) (fun t => Ok (b :: t))
  | _, _ => Err (Runtime "ValueError")
  end.

Fixpoint merge_shapes (acc : shape) (rest : list shape) : result shape :=
  match rest with
  | [] => Ok acc
  | s :: rest' => rbind (merge_shape acc s) (fun acc' => merge_shapes acc' rest')
  end.

Definition compute_output_shape (l : layer) (ins : list shape) : result shape :=
  match l, ins with
  | InputLayer s, [] => Ok (None :: map Some s)
  | Conv2D cfg, [s] =>
      window_output_shape s (kernel_size cfg) (strides cfg) (conv_padding cfg)
        (Some (filters cfg))
  | BatchNormalization _, [s] => Ok s
  | Activation _, [s] => Ok s
  | MaxPooling2D k st pad, [s] =>
      window_output_shape s k st pad (default None (s !! 3%nat))
  | AveragePooling2D (Some kr, Some kc) st, [s] =>
      window_output_shape s (kr, kc) st valid (default None (s !! 3%nat))
  | AveragePooling2D _ _, [s] => Err (Runtime "ValueError")
  | Add, s1 :: s2 :: rest => merge_shapes s1 (s2 :: rest)
  | Flatten, [b :: rest] => Ok [b; fold_right dim_mul (Some 1) rest]
  | Dense n _ _, [s] =>
      match s with
      | _ :: _ :: _ => Ok (removelast s ++ [Some n])
      | _ => Err (Runtime "ValueError")
      end
  | _, _ => Err (Runtime "ValueError")
  end.

(** Calling a freshly created layer on tensors: the output shape is
    inferred, a node is appended to the graph, and the new tensor refers
    to it. *)
Definition call_layer (l : layer) (ins : list tensor) : K tensor :=
  fun g =>
    match compute_output_shape l (map int_shape ins) with
    | Ok s => Ok (mk_tensor (length g) s, g ++ [mk_node l (map tid ins)])
    | Err e => Err e
    end.

Definition Input (input_shape : list Z) : K tensor :=
  call_layer (InputLayer input_shape) [].

(** [add([a, b])] *)
Definition add (ts : list tensor) : K tensor := call_layer Add ts.

Record Model : Type := mk_model {
  inputs : tensor;
  outputs : tensor;
  layers : graph
}.

(** [Model(inputs=..., outputs=...)].  A model owns the layers its output
    depends on; the constructors of this module create no other layer (see
    [all_layers_used] below), so the layers of the model are the nodes of
    the graph. *)
Definition make_model (i o : tensor) : K Model :=
  fun g => Ok (mk_model i o g, g).

(** ** resnet.py *)

Definition ROW_AXIS : Z := 1.

Definition COL_AXIS : Z := 2.

Definition CHANNEL_AXIS : Z := 3.

(** Keyword arguments [**conv_params]; an absent key is [None]. *)
Record conv_params : Type := mk_params {
  kw_filters : option Z;
  kw_kernel_size : option (Z * Z);
  kw_strides : option (Z * Z);
  kw_padding : option padding;
  kw_kernel_initializer : option string;
  kw_kernel_regularizer : option regularizer
}.

(** [conv_params[key]] *)
Definition getitem {A} (key : string) (v : option A) : K A :=
  match v with
  | Some a => ret a
  | None => raise (Runtime "KeyError")
  end.

(** [conv_params.setdefault(key, d)] *)
Definition setdefault {A} (v : option A) (d : A) : A := default d v.

Definition _bn_relu (input : tensor) : K tensor :=
  norm <- call_layer (BatchNormalization CHANNEL_AXIS) [input] ;;
  call_layer (Activation "relu") [norm].

Definition _conv_bn_relu (conv_params : conv_params) (input : tensor) : K tensor :=
  let filters := setdefault (kw_filters conv_params) 64 in
  let kernel_size := setdefault (kw_kernel_size conv_params) (7, 7) in
  let strides := setdefault (kw_strides conv_params) (2, 2) in
  let padding := setdefault (kw_padding conv_params) same in
  let kernel_initializer :=
    setdefault (kw_kernel_initializer conv_params) "he_normal" in
  let kernel_regularizer :=
    setdefault (kw_kernel_regularizer conv_params) (l2 (1 # 10000)) in
  conv <- call_layer (Conv2D (mk_conv filters kernel_size strides padding
                                kernel_initializer kernel_regularizer)) [input] ;;
  _bn_relu conv.

Definition _bn_relu_conv (conv_params : conv_params) (input : tensor) : K tensor :=
  filters <- getitem "filters" (kw_filters conv_params) ;;
  kernel_size <- getitem "kernel_size" (kw_kernel_size conv_params) ;;
  let strides := setdefault (kw_strides conv_params) (1, 1) in
  let padding := setdefault (kw_padding conv_params) same in
  let kernel_initializer :=
    setdefault (kw_kernel_initializer conv_params) "he_normal" in
  let kernel_regularizer :=
    setdefault (kw_kernel_regularizer conv_params) (l2 (1 # 10000)) in
  activation <- _bn_relu input ;;
  call_layer (Conv2D (mk_conv filters kernel_size strides padding
                        kernel_initializer kernel_regularizer)) [activation].

Definition _shortcut (input residual : tensor) : K tensor :=
  let input_shape := int_shape input in
  let residual_shape := int_shape residual in
  in_rows <- lift (subscript input_shape ROW_AXIS) ;;
  res_rows <- lift (subscript residual_shape ROW_AXIS) ;;
  stride_width <- lift (int_round_div in_rows res_rows) ;;
  in_cols <- lift (subscript input_shape COL_AXIS) ;;
  res_cols <- lift (subscript residual_shape COL_AXIS) ;;
  stride_height <- lift (int_round_div in_cols res_cols) ;;
  in_channels <- lift (subscript input_shape CHANNEL_AXIS) ;;
  res_channels <- lift (subscript residual_shape CHANNEL_AXIS) ;;
  let equal_channels := bool_decide (in_channels = res_channels) in
  shortcut <-
    (if (1 <? stride_width) || (1 <? stride_height) || negb equal_channels
     then
       match res_channels with
       | Some n =>
           call_layer (Conv2D (mk_conv n (1, 1) (stride_width, stride_height)
                                 valid "he_normal" (l2 (1 # 10000)))) [input]
       | None => raise (Runtime "TypeError")
       end
     else ret input) ;;
  add [shortcut; residual].

(** A block constructor applied to its three arguments and then to a tensor. *)
Definition block_function : Type := Z -> Z * Z -> bool -> tensor -> K tensor.

Definition _residual_block (block_function : block_function) (filters : Z)
    (repetitions : Z) (is_first_layer : bool) (input : tensor) : K tensor :=
  for_each (py_range repetitions)
    (fun i input =>
       let init_strides :=
         if (i =? 0) && negb is_first_layer then (2, 2) else (1, 1) in
       block_function filters init_strides (is_first_layer && (i =? 0)) input)
    input.

Definition basic_block (filters : Z) (init_strides : Z * Z)
    (is_first_block_of_first_layer : bool) (input : tensor) : K tensor :=
  conv1 <-
    (if is_first_block_of_first_layer
     then call_layer (Conv2D (mk_conv filters (3, 3) init_strides same
                                "he_normal" (l2 (1 # 10000)))) [input]
     else _bn_relu_conv
            (mk_params (Some filters) (Some (3, 3)) (Some init_strides)
               None None None) input) ;;
  residual <-
    _bn_relu_conv (mk_params (Some filters) (Some (3, 3)) None None None None)
      conv1 ;;
  _shortcut input residual.

Definition bottleneck (filters : Z) (init_strides : Z * Z)
    (is_first_block_of_first_layer : bool) (input : tensor) : K tensor :=
  conv_1_1 <-
    (if is_first_block_of_first_layer
     then call_layer (Conv2D (mk_conv filters (1, 1) init_strides same
                                "he_normal" (l2 (1 # 10000)))) [input]
     else _bn_relu_conv
            (mk_params (Some filters) (Some (1, 1)) (Some init_strides)
               None None None) input) ;;
  conv_3_3 <-
    _bn_relu_conv (mk_params (Some filters) (Some (3, 3)) None None None None)
      conv_1_1 ;;
  residual <-
    _bn_relu_conv
      (mk_params (Some (filters * 4)) (Some (1, 1)) None None None None)
      conv_3_3 ;;
  _shortcut input residual.

(** Calling the object that [block_fn] evaluates to with the keywords
    [filters], [init_strides] and [is_first_block_of_first_layer].  The two
    block constructors take exactly these; [_conv_bn_relu] accepts any
    keywords and reads only the ones it knows; [_bn_relu_conv] misses
    [kernel_size]; every other object rejects the call, which is recorded
    as a [TypeError] of the interpreter whatever the library reports. *)
Definition call_block (fn : pyval) : block_function :=
  fun filters init_strides is_first input =>
    match fn with
    | PyFunc F_basic_block => basic_block filters init_strides is_first input
    | PyFunc F_bottleneck => bottleneck filters init_strides is_first input
    | PyFunc F_conv_bn_relu =>
        _conv_bn_relu (mk_params (Some filters) None None None None None) input
    | PyFunc F_bn_relu_conv => raise (Runtime "KeyError")
    | _ => raise (Runtime "TypeError")
    end.

Section Resnet.

(** [globals()]: the module dictionary at the time of the call. *)
Variable globals : gmap string pyval.

Definition _get_block (identifier : pyval) : result pyval :=
  match identifier with
  | PyStr name =>
      let res := default PyNone (globals !! name) in
      if negb (truthy res)
      then Err (Raised "ValueError" ("Invalid " +:+ name))
      else Ok res
  | _ => Ok identifier
  end.

(** [enumerate(xs)] *)
Definition enumerate {A} (xs : list A) : list (Z * A) :=
  combine (py_range (Z.of_nat (length xs))) xs.

Definition resnet (input_shape : list Z) (num_outputs : Z) (block_fn : pyval)
    (repetitions : list Z) : K Model :=
  if negb (length input_shape =? 3)%nat
  then raise (Raised "Exception"
                "Input shape should be a tuple (nb_channels, nb_rows, nb_cols)")
  else
    input <- Input input_shape ;;
    conv1 <- _conv_bn_relu
               (mk_params (Some 64) (Some (7, 7)) (Some (2, 2)) None None None)
               input ;;
    pool1 <- call_layer (MaxPooling2D (3, 3) (2, 2) same) [conv1] ;;
    block_fn <- lift (_get_block block_fn) ;;
    let block := pool1 in
    let filters := 64 in
    last <-
      for_each (enumerate repetitions)
        (fun '(i, r) '(block, filters) =>
           block <- _residual_block (call_block block_fn) filters r (i =? 0)
                      block ;;
           ret (block, filters * 2))
        (block, filters) ;;
    block <- _bn_relu (fst last) ;;
    let block_shape := int_shape block in
    rows <- lift (subscript block_shape ROW_AXIS) ;;
    cols <- lift (subscript block_shape COL_AXIS) ;;
    pool2 <- call_layer (AveragePooling2D (rows, cols) (1, 1)) [block] ;;
    flatten1 <- call_layer Flatten [pool2] ;;
    dense <- call_layer (Dense num_outputs "he_normal" "softmax") [flatten1] ;;
    make_model input dense.

Definition resnet_18 (input_shape : list Z) (num_outputs : Z) : K Model :=
  resnet input_shape num_outputs (PyFunc F_basic_block) [2; 2; 2; 2].

Definition resnet_34 (input_shape : list Z) (num_outputs : Z) : K Model :=
  resnet input_shape num_outputs (PyFunc F_basic_block) [3; 4; 6; 3].

Definition resnet_50 (input_shape : list Z) (num_outputs : Z) : K Model :=
  resnet input_shape num_outputs (PyFunc F_bottleneck) [3; 4; 6; 3].

Definition resnet_101 (input_shape : list Z) (num_outputs : Z) : K Model :=
  resnet input_shape num_outputs (PyFunc F_bottleneck) [3; 4; 23; 3].

Definition resnet_152 (input_shape : list Z) (num_outputs : Z) : K Model :=
  resnet input_shape num_outputs (PyFunc F_bottleneck) [3; 8; 36; 3].

End Resnet.

(** Running a constructor in a fresh session. *)
Definition build {A} (m : K A) : result A :=
  match m [] with
  | Ok (a, _) => Ok a
  | Err e => Err e
  end.

(** ** Reading a finished graph *)

Definition is_conv (l : layer) : bool :=
  match l with
  | Conv2D _ => true
  | _ => false
  end.

(** The shortcut side of every merge: [add([shortcut, residual])] records
    the node of [shortcut] as its first operand. *)
Definition shortcut_operands (g : graph) : list nat :=
  flat_map (fun n => match node_layer n, inbound n with
                     | Add, i :: _ => [i]
                     | _, _ => []
                     end) g.

(** Convolutions that are not projection shortcuts, in creation order.
    Nodes are numbered from [off]; a convolution is a projection shortcut
    when an [Add] of the graph takes it as its shortcut operand. *)
Fixpoint main_convs_from (ops : list nat) (off : nat) (g : graph)
  : list conv_config :=
  match g with
  | [] => []
  | n :: g' =>
      match node_layer n with
      | Conv2D cfg => if bool_decide (off ∈ ops) then [] else [cfg]
      | _ => []
      end ++ main_convs_from ops (S off) g'
  end.

Definition main_convs (g : graph) : list conv_config :=
  main_convs_from (shortcut_operands g) 0 g.

Definition dense_layers (g : graph) : list Z :=
  flat_map (fun n => match node_layer n with
                     | Dense units _ _ => [units]
                     | _ => []
                     end) g.

(** The output of node [i] flows into node [t], directly or through other
    nodes. *)
Inductive feeds (g : graph) (t : nat) : nat -> Prop :=
| feeds_self : (t < length g)%nat -> feeds g t t
| feeds_via (i p : nat) (nd : node) :
    g !! p = Some nd -> i ∈ inbound nd -> feeds g t p -> feeds g t i.

(** Every layer of the model lies on a path to its output. *)
Definition all_layers_used (m : Model) : Prop :=
  forall i, (i < length (layers m))%nat ->
            feeds (layers m) (tid (outputs m)) i.

(** Layers with weights on the main path: every convolution that is not a
    projection shortcut, and every dense layer. *)
Definition weighted_layers (m : Model) : nat :=
  (length (main_convs (layers m)) + length (dense_layers (layers m)))%nat.

(** ** Vocabulary of the proofs *)

(** Output size of a 'same' window with stride [s]. *)
Definition same_len (n s : Z) : Z := (n + s - 1) / s.

(** The stride [_shortcut] derives for a side of size [n] that the block
    reduced with stride [s]. *)
Definition block_ratio (n s : Z) : Z := if n =? 1 then 1 else s.

Definition bn_node (k : nat) : node :=
  mk_node (BatchNormalization CHANNEL_AXIS) [k].

Definition relu_node (k : nat) : node := mk_node (Activation "relu") [k].

Definition conv_node (cfg : conv_config) (k : nat) : node :=
  mk_node (Conv2D cfg) [k].

Definition add_node (i j : nat) : node := mk_node Add [i; j].

Definition he_conv (f : Z) (ks st : Z * Z) (pad : padding) : conv_config :=
  mk_conv f ks st pad "he_normal" (l2 (1 # 10000)).

(** The decision taken by [_shortcut], with the three negated tests of the
    source folded into one conjunction. *)
Definition identity_shortcut (stride_width stride_height : Z)
    (in_channels res_channels : Z) : bool :=
  (stride_width <=? 1) && (stride_height <=? 1)
  && (in_channels =? res_channels).

(** ** Invariants of a graph under construction *)

(** Every shortcut operand refers to a node that already exists. *)
Definition operands_bounded (g : graph) : Prop :=
  Forall (fun i => (i < length g)%nat) (shortcut_operands g).

(** Node [i] is an operand of a node created after it. *)
Definition consumed_later (g : graph) (i : nat) : Prop :=
  exists p nd, g !! p = Some nd /\ i ∈ inbound nd /\ (i < p)%nat.

(** Every node but [t] is an operand of a later node. *)
Definition all_consumed (g : graph) (t : nat) : Prop :=
  forall i, (i < length g)%nat -> i <> t -> consumed_later g i.

(** Node [k] exists and is not a convolution. *)
Definition not_conv_at (g : graph) (k : nat) : Prop :=
  exists nd, g !! k = Some nd /\ is_conv (node_layer nd) = false.

(** The nodes [_shortcut] appends: a projection and the merge, or the merge
    alone. *)
Definition shortcut_nodes (proj : bool) (cfg : conv_config) (k k2 n : nat)
  : list node :=
  if proj then [conv_node cfg k; add_node n k2] else [add_node k k2].

(** What a block adds to the graph, as far as the architecture goes. *)
Definition block_adds (g : graph) (k : nat) (g' : graph) (y : tensor)
    (convs : list conv_config) : Prop :=
  operands_bounded g' /\ not_conv_at g' (tid y)
  /\ main_convs g' = main_convs g ++ convs
  /\ dense_layers g' = dense_layers g
  /\ (all_consumed g k -> all_consumed g' (tid y)).

(** ** The architecture the constructors are meant to assemble *)

(** Main-path convolutions of one block, in order. *)
Definition block_convs (fn : pyfun) (f : Z) (st : Z * Z) : list conv_config :=
  match fn with
  | F_basic_block =>
      [he_conv f (3, 3) st same; he_conv f (3, 3) (1, 1) same]
  | F_bottleneck =>
      [he_conv f (1, 1) st same; he_conv f (3, 3) (1, 1) same;
       he_conv (f * 4) (1, 1) (1, 1) same]
  | _ => []
  end.

(** Strides of block [i] of a stage. *)
Definition block_strides (is_first_layer : bool) (i : Z) : Z * Z :=
  if (i =? 0) && negb is_first_layer then (2, 2) else (1, 1).

Definition stage_convs (fn : pyfun) (f : Z) (repetitions : Z)
    (is_first_layer : bool) : list conv_config :=
  flat_map (fun i => block_convs fn f (block_strides is_first_layer i))
    (py_range repetitions).

Fixpoint stages_convs (fn : pyfun) (stages : list (Z * Z)) (f : Z)
  : list conv_config :=
  match stages with
  | [] => []
  | (i, r) :: rest =>
      stage_convs fn f r (i =? 0) ++ stages_convs fn rest (f * 2)
  end.

Definition expected_convs (fn : pyfun) (repetitions : list Z)
  : list conv_config :=
  he_conv 64 (7, 7) (2, 2) same
  :: stages_convs fn (enumerate repetitions) 64.

(** A graph and a tensor of it on which the next block can be built. *)
Definition ready (b : dim) (g : graph) (x : tensor) : Prop :=
  operands_bounded g /\ not_conv_at g (tid x) /\ all_consumed g (tid x)
  /\ exists r c ch,
       int_shape x = [b; Some r; Some c; Some ch] /\ 0 < r /\ 0 < c.

Definition is_block (fn : pyfun) : Prop :=
  fn = F_basic_block \/ fn = F_bottleneck.

(** ** binarize-one.py *)

(** A [uint8] array of shape (H, W) is a list of rows; a colour image of
    shape (H, W, C) has a list of channel values at every pixel. *)
Abbreviation uint8 := Byte.byte.

Abbreviation plane := (list (list Byte.byte)).

Abbreviation image := (list (list (list Byte.byte))).

Notation "x <-? c ;; k" := (rbind c (fun x => k))
  (at level 100, c at next level, right associativity) : keras_scope.

Fixpoint map_result {A B} (f : A -> result B) (l : list A) : result (list B) :=
  match l with
  | [] => Ok []
  | x :: rest =>
      y <-? f x ;;
      ys <-? map_result f rest ;;
      Ok (y :: ys)
  end.

(** [img[:, :, k]] *)
Definition slice_channel (img : image) (k : nat) : result plane :=
  map_result
    (map_result (fun px : list Byte.byte =>
                   match px !! k with
                   | Some v => Ok v
                   | None => Err (Runtime "IndexError")
                   end)) img.

Inductive adaptive_method : Type :=
| ADAPTIVE_THRESH_MEAN_C
| ADAPTIVE_THRESH_GAUSSIAN_C.

Inductive threshold_type : Type :=
| THRESH_BINARY
| THRESH_BINARY_INV.

Inductive morph_op : Type :=
| MORPH_ERODE
| MORPH_DILATE
| MORPH_OPEN
| MORPH_CLOSE.

(** [np.ones((rows, cols), np.uint8)] *)
Definition np_ones (rows cols : nat) : plane :=
  repeat (repeat Byte.x01 cols) rows.

(** *** Morphology, after the OpenCV documentation

    [erode] takes at every pixel the minimum, [dilate] the maximum, over the
    positions where the kernel is non-zero; the anchor is the centre of the
    kernel; positions outside the image count as the largest value for
    [erode] and the smallest for [dilate], so they never win.  [MORPH_OPEN]
    is an erosion followed by a dilation. *)

Definition byte_min (a b : Byte.byte) : Byte.byte :=
  if (Byte.to_N a <=? Byte.to_N b)%N then a else b.

Definition byte_max (a b : Byte.byte) : Byte.byte :=
  if (Byte.to_N a <=? Byte.to_N b)%N then b else a.

Definition pixel_at (border : Byte.byte) (img : plane) (y x : Z) : Byte.byte :=
  if (y <? 0) || (x <? 0) then border
  else
    match img !! Z.to_nat y with
    | Some row => default border (row !! Z.to_nat x)
    | None => border
    end.

(** Offsets (dy, dx) from the anchor of the non-zero kernel elements. *)
Definition kernel_offsets (kernel : plane) : list (Z * Z) :=
  let anchor_y := Z.of_nat (length kernel) / 2 in
  let anchor_x := Z.of_nat (length (hd [] kernel)) / 2 in
  flat_map
    (fun '(i, row) =>
       flat_map
         (fun '(j, v) =>
            if (Byte.to_N v =? 0)%N then [] else [(i - anchor_y, j - anchor_x)])
         (enumerate row))
    (enumerate kernel).

Definition morph_pixel (op : Byte.byte -> Byte.byte -> Byte.byte)
    (border : Byte.byte) (img : plane) (offsets : list (Z * Z)) (y x : Z)
  : Byte.byte :=
  fold_left
    (fun acc '(dy, dx) => op acc (pixel_at border img (y + dy) (x + dx)))
    offsets border.

Definition morph (op : Byte.byte -> Byte.byte -> Byte.byte)
    (border : Byte.byte) (img kernel : plane) : plane :=
  imap (fun y row =>
          imap (fun x _ =>
                  morph_pixel op border img (kernel_offsets kernel)
                    (Z.of_nat y) (Z.of_nat x)) row) img.

Definition erode (img kernel : plane) : plane :=
  morph byte_min Byte.xff img kernel.

Definition dilate (img kernel : plane) : plane :=
  morph byte_max Byte.x00 img kernel.

Definition morphologyEx (src : plane) (op : morph_op) (kernel : plane) : plane :=
  match op with
  | MORPH_ERODE => erode src kernel
  | MORPH_DILATE => dilate src kernel
  | MORPH_OPEN => dilate (erode src kernel) kernel
  | MORPH_CLOSE => erode (dilate src kernel) kernel
  end.

Section Binarize.

(** The two OpenCV routines that work in floating point are taken as they
    are: [cv2.addWeighted(src1, alpha, src2, beta, gamma)] and
    [cv2.adaptiveThreshold(src, maxValue, method, type, blockSize, C)]. *)
Variable addWeighted : plane -> Q -> plane -> Q -> Q -> plane.
Variable adaptiveThreshold :
  plane -> Z -> adaptive_method -> threshold_type -> Z -> Z -> plane.

Definition binarize (img : image) : result plane :=
  green <-? slice_channel img 1 ;;
  red <-? slice_channel img 2 ;;
  let redGreen := addWeighted red (1 # 2) green (1 # 2) 0 in
  let th_red :=
    adaptiveThreshold redGreen 255 ADAPTIVE_THRESH_GAUSSIAN_C
      THRESH_BINARY_INV 9 10 in
  let kernel := np_ones 1 1 in
  let th_red := morphologyEx th_red MORPH_OPEN kernel in
  Ok th_red.

End Binarize.

(** ** predict.py *)

(** Index of the first largest element, as [np.argmax] finds it: the scan
    keeps the current best and replaces it only by a strictly larger one. *)
Definition Qlt_bool (a b : Q) : bool := negb (Qle_bool b a).

Fixpoint argmax_scan (best : Q) (best_i i : nat) (l : list Q) : nat :=
  match l with
  | [] => best_i
  | x :: rest =>
      if Qlt_bool best x then argmax_scan x i (S i) rest
      else argmax_scan best best_i (S i) rest
  end.

Definition argmax (l : list Q) : result nat :=
  match l with
  | [] => Err (Runtime "ValueError")
  | x :: rest => Ok (argmax_scan x 0 1 rest)
  end.

Definition labels : list string :=
  ["FBMessanger"; "Instagram"; "Invalid"; "LINE"; "Others"; "Pairs";
   "Twitter"].

(** [dict(zip(keys, values))]: later pairs overwrite earlier ones. *)
Definition dict_zip (keys : list string) (values : list Q) : gmap string Q :=
  fold_left (fun d '(k, v) => <[k := v]> d) (combine keys values) ∅.

(** [dst[:, :, 0] = src] for [dst] of shape (rows, cols, 1): a side of [src]
    either matches or has length 1 and is repeated. *)
Definition broadcast_to {A} (n : nat) (l : list A) : result (list A) :=
  if (length l =? n)%nat then Ok l
  else match l with
       | [x] => Ok (repeat x n)
       | _ => Err (Runtime "ValueError")
       end.

Definition assign_channel0 (rows cols : nat) (src : plane)
  : result (list (list (list Z))) :=
  src_rows <-? broadcast_to rows src ;;
  map_result
    (fun row =>
       row' <-? broadcast_to cols row ;;
       Ok (map (fun v => [Z.of_N (Byte.to_N v)]) row'))
    src_rows.

(** What a run of [main] shows: the array handed to [model.predict] and the
    two printed values. *)
Record report : Type := mk_report {
  predictions : gmap string Q;
  service : string
}.

Record run : Type := mk_run {
  predict_input : list (list (list (list Z)));
  printed : report
}.

(** Lines 25-31 of [main], after [model.predict] has returned. *)
Definition main_report (pred : list (list Q)) : result report :=
  let pred := concat pred in
  predicted_class_indices <-? argmax pred ;;
  let predictions := dict_zip labels pred in
  match labels !! predicted_class_indices with
  | Some label => Ok (mk_report predictions label)
  | None => Err (Runtime "IndexError")
  end.

Section Predict.

(** [from binarize import binarize]: the imported function. *)
Variable binarize_fn : image -> result plane.
(** [cv2.resize(src, dsize)] with [dsize = (width, height)]. *)
Variable resize : plane -> nat * nat -> plane.
(** [load_model('models/200.h5').predict] *)
Variable model_predict : list (list (list (list Z))) -> list (list Q).

(** Lines 13-22 of [main]: the array passed to [model.predict] for the
    image [img] read from [sys.argv[1]]. *)
Definition main_input (img : image) : result (list (list (list (list Z)))) :=
  let img_rows := 400%nat in
  let img_cols := 400%nat in
  b <-? binarize_fn img ;;
  let binary := resize b (img_rows, img_cols) in
  img2 <-? assign_channel0 img_rows img_cols binary ;;
  Ok [img2].

Definition main (img : image) : result run :=
  img2 <-? main_input img ;;
  let pred := model_predict img2 in
  out <-? main_report pred ;;
  Ok (mk_run img2 out).

End Predict.

(** ** The module at run time *)

(** The module dictionary of resnet.py once it is imported.  Of the entries
    the interpreter adds, only [__doc__] is listed: the file has no
    docstring, so it is [None]. *)
Definition module_globals : gmap string pyval :=
  list_to_map
    [("__doc__", PyNone);
     ("six", PyObj "six"); ("Model", PyObj "Model"); ("Input", PyObj "Input");
     ("Activation", PyObj "Activation"); ("Dense", PyObj "Dense");
     ("Flatten", PyObj "Flatten"); ("Conv2D", PyObj "Conv2D");
     ("MaxPooling2D", PyObj "MaxPooling2D");
     ("AveragePooling2D", PyObj "AveragePooling2D"); ("add", PyObj "add");
     ("BatchNormalization", PyObj "BatchNormalization"); ("l2", PyObj "l2");
     ("K", PyObj "K");
     ("ROW_AXIS", PyInt 1); ("COL_AXIS", PyInt 2); ("CHANNEL_AXIS", PyInt 3);
     ("_bn_relu", PyFunc F_bn_relu); ("_conv_bn_relu", PyFunc F_conv_bn_relu);
     ("_bn_relu_conv", PyFunc F_bn_relu_conv); ("_shortcut", PyFunc F_shortcut);
     ("_residual_block", PyFunc F_residual_block);
     ("basic_block", PyFunc F_basic_block); ("bottleneck", PyFunc F_bottleneck);
     ("_get_block", PyFunc F_get_block); ("resnet", PyFunc F_resnet);
     ("resnet_18", PyFunc F_resnet_18); ("resnet_34", PyFunc F_resnet_34);
     ("resnet_50", PyFunc F_resnet_50); ("resnet_101", PyFunc F_resnet_101);
     ("resnet_152", PyFunc F_resnet_152)].


(** ** Observing stages, errors and the pipeline *)

(** The arguments of the successive calls of [block_function] made by
    [_residual_block]: [init_strides] and
    [is_first_block_of_first_layer] for every [i] of the loop. *)
Definition stage_calls (repetitions : Z) (is_first_layer : bool)
  : list ((Z * Z) * bool) :=
  map (fun i => (block_strides is_first_layer i, is_first_layer && (i =? 0)))
    (py_range repetitions).

Definition strided (call : (Z * Z) * bool) : bool :=
  negb (bool_decide (fst call = (1, 1))).

(** Whether a result is an exception raised by a [raise] statement of the
    repository. *)
Definition raised_own {A} (r : result A) : bool :=
  match r with
  | Err (Raised _ _) => true
  | _ => false
  end.

(** A computation whose failures all come from the interpreter or from a
    library. *)
Definition runtime_only {A} (m : K A) : Prop :=
  forall g, raised_own (m g) = false.

(** Simple stand-ins for the library routines, used to run the pipeline on
    a concrete image: a rounded mean of two planes, a fixed threshold, a
    nearest-neighbour resize and a constant classifier. *)
Definition sample_addWeighted (a : plane) (alpha : Q) (b : plane) (beta : Q)
    (gamma : Q) : plane :=
  map (fun '(ra, rb) =>
         map (fun '(x, y) =>
                default Byte.x00
                  (Byte.of_N ((Byte.to_N x + Byte.to_N y) / 2)%N))
           (combine ra rb))
    (combine a b).

Definition sample_adaptiveThreshold (src : plane) (max_value : Z)
    (method : adaptive_method) (type : threshold_type) (block_size c : Z)
  : plane :=
  map (map (fun v => if (Byte.to_N v <? 128)%N then Byte.xff else Byte.x00))
    src.

Definition sample_resize (p : plane) (dsize : nat * nat) : plane :=
  map (fun y =>
         map (fun x =>
                pixel_at Byte.x00 p
                  (Z.of_nat y * Z.of_nat (length p) / Z.of_nat (snd dsize))
                  (Z.of_nat x * Z.of_nat (length (hd [] p))
                   / Z.of_nat (fst dsize)))
           (seq 0 (fst dsize)))
    (seq 0 (snd dsize)).

Definition sample_predict (x : list (list (list (list Z)))) : list (list Q) :=
  [[1 # 100; 2 # 100; 3 # 100; 90 # 100; 1 # 100; 2 # 100; 1 # 100]].

Definition sample_image : image :=
  [[[Byte.x10; Byte.x20; Byte.x30]; [Byte.xf0; Byte.xe0; Byte.xd0]]].

(** An array of shape (1, rows, cols, 1). *)
Definition has_shape_1_r_c_1 (rows cols : nat)
    (x : list (list (list (list Z)))) : Prop :=
  length x = 1%nat
  /\ Forall (fun a =>
               length a = rows
               /\ Forall (fun row =>
                            length row = cols
                            /\ Forall (fun px => length px = 1%nat) row) a) x.

(** ** Counting layers *)

Definition is_add (l : layer) : bool :=
  match l with
  | Add => true
  | _ => false
  end.

(** Number of layers of a kind in a graph. *)
Definition count_layers (p : layer -> bool) (g : graph) : nat :=
  length (List.filter (fun n => p (node_layer n)) g).

(** The windows of the average pooling layers of a graph. *)
Definition pool_sizes (g : graph) : list (dim * dim) :=
  flat_map (fun n => match node_layer n with
                     | AveragePooling2D p _ => [p]
                     | _ => []
                     end) g.

(** Main-path convolutions per block and channels a block returns. *)
Definition convs_per_block (fn : pyfun) : nat :=
  match fn with
  | F_basic_block => 2
  | F_bottleneck => 3
  | _ => 0
  end.

Definition out_channels (fn : pyfun) (f : Z) : Z :=
  match fn with
  | F_bottleneck => f * 4
  | _ => f
  end.

(** Blocks built for a repetition list: [range(r)] is empty for [r <= 0]. *)
Definition total_blocks (repetitions : list Z) : nat :=
  sum_list (map Z.to_nat repetitions).

(** ** The script of binarize-one.py *)

(** The call [cv2.imwrite(filename, img)] a run ends with, once it has
    returned. *)
Record written : Type := mk_written {
  written_to : string;
  written_image : plane
}.

Module binarize_one.

Section Main.

Variable addWeighted : plane -> Q -> plane -> Q -> Q -> plane.
Variable adaptiveThreshold :
  plane -> Z -> adaptive_method -> threshold_type -> Z -> Z -> plane.
(** [cv2.imread(filename, cv2.IMREAD_COLOR)]: the decoded image, or [None]
    when the file cannot be read. *)
Variable imread : string -> option image.
(** [cv2.imwrite(filename, img)]: whether the file was written, or the
    error it raises, as when no encoder is known for the extension of
    [filename].  [main] drops the returned value. *)
Variable imwrite : string -> plane -> result bool.

(** [main] for [sys.argv = args].  Subscripting [None] in [binarize] is a
    [TypeError]. *)
Definition main (args : list string) : result written :=
  match args !! 1%nat with
  | None => Err (Runtime "IndexError")
  | Some path =>
      match imread path with
      | None => Err (Runtime "TypeError")
      | Some img =>
          b_img <-? binarize addWeighted adaptiveThreshold img ;;
          _ <-? imwrite ("b-" +:+ path) b_img ;;
          Ok (mk_written ("b-" +:+ path) b_img)
      end
  end.

End Main.

End binarize_one.

(** Stand-ins for the two file routines, used to run the script: one
    readable image, stored under two names, and a writer that knows the
    extension [.png] only. *)
Definition sample_imread (filename : string) : option image :=
  if String.eqb filename "shot.png" || String.eqb filename "shot"
  then Some sample_image else None.

Definition sample_imwrite (filename : string) (img : plane) : result bool :=
  if String.eqb
       (substring (String.length filename - 4) 4 filename) ".png"
  then Ok true else Err (Runtime "cv2.error").

(** An image as [cv2.imread] decodes it with [cv2.IMREAD_COLOR]: three
    channels at every pixel. *)
Definition three_channels (img : image) : Prop :=
  Forall (Forall (fun px : list Byte.byte => length px = 3%nat)) img.

(** The position of the first largest score. *)
Definition first_maximum (l : list Q) (i : nat) : Prop :=
  exists score,
    l !! i = Some score
    /\ (forall x, In x l -> (x <= score)%Q)
    /\ (forall j x, (j < i)%nat -> l !! j = Some x -> (x < score)%Q).

(** ** Stages that change the shape *)

(** Stage [(i, r)] of the loop of [resnet] halves the feature map when it
    has a block and is not the first stage. *)
Definition stage_halves (stage : Z * Z) : bool :=
  (0 <? snd stage) && negb (fst stage =? 0).

Definition is_bottleneck (fn : pyfun) : bool :=
  match fn with
  | F_bottleneck => true
  | _ => false
  end.

(** Stage [(i, r)] opens with a projection shortcut when it has a block
    and that block changes the shape of its input. *)
Definition stage_projects (fn : pyfun) (stage : Z * Z) : bool :=
  (0 <? snd stage) && (negb (fst stage =? 0) || is_bottleneck fn).

Definition is_bn (l : layer) : bool :=
  match l with
  | BatchNormalization _ => true
  | _ => false
  end.

Definition is_relu (l : layer) : bool :=
  match l with
  | Activation fn => String.eqb fn "relu"
  | _ => false
  end.

(** Stage [(i, r)] is the first stage and has a block: that block follows
    the stem directly. *)
Definition stage_opens (stage : Z * Z) : bool :=
  (0 <? snd stage) && (fst stage =? 0).

(** A layer other than a convolution, or a convolution with the He
    initialiser and the L2 penalty 1e-4. *)
Definition he_l2 (l : layer) : bool :=
  match l with
  | Conv2D cfg =>
      String.eqb (kernel_initializer cfg) "he_normal"
      && match kernel_regularizer cfg with
         | l2 q => Qeq_bool q (1 # 10000)
         end
  | _ => true
  end.

(** A piece of graph with [n] batch normalisations, as many ReLU
    activations, and convolutions that are all set up as above. *)
Definition house_style (g : graph) (n : nat) : Prop :=
  count_layers is_bn g = n
  /\ count_layers is_relu g = n
  /\ Forall (fun nd => he_l2 (node_layer nd) = true) g.

(** * Properties *)

(** ** Arithmetic of sizes and strides *)

(** [round_half_even_div a b] is an integer nearest to the exact quotient
    [a / b], and the even one of the two when the quotient lies halfway. *)
Lemma round_half_even_div_nearest (a b : Z) :
  b <> 0 ->
  let q := round_half_even_div a b in
  2 * Z.abs (a - q * b) <= Z.abs b
  /\ (2 * Z.abs (a - q * b) = Z.abs b -> Z.even q = true).
Proof.
  intros Hb. unfold round_half_even_div.
  pose proof (Z.div_mod a b Hb) as Hdm.
  assert (Hbound : (0 <= a mod b < b) \/ (b < a mod b <= 0)).
  { destruct (Z.lt_ge_cases 0 b).
    - left. apply Z.mod_pos_bound. lia.
    - right. apply Z.mod_neg_bound. lia. }
  set (q0 := a / b) in *. set (r := a mod b) in *.
  destruct (Z.compare_spec (2 * Z.abs r) (Z.abs b)) as [Heq | Hlt | Hgt].
  - destruct (Z.even q0) eqn:Heven.
    + split; [lia | auto].
    + split; [lia|]. intros _.
      rewrite Z.add_1_r, Z.even_succ, <- Z.negb_even, Heven. reflexivity.
  - split; lia.
  - split; lia.
Qed.

Lemma round_half_even_div_self (n : Z) : 0 < n -> round_half_even_div n n = 1.
Proof.
  intros Hn. unfold round_half_even_div.
  rewrite Z.div_same, Z.mod_same by lia.
  destruct (Z.compare_spec (2 * Z.abs 0) (Z.abs n)); simpl in *; lia.
Qed.

(** A side of size [n] halved by a stride-2 'same' convolution has size
    [(n + 1) / 2]; the rounded ratio of the two is 2, except for [n = 1]. *)
Lemma round_half_even_div_halved (n : Z) :
  1 < n -> round_half_even_div n ((n + 2 - 1) / 2) = 2.
Proof.
  intros Hn. unfold round_half_even_div.
  set (m := (n + 2 - 1) / 2).
  assert (Hm : n = 2 * m \/ n = 2 * m - 1).
  { subst m. pose proof (Z.div_mod (n + 2 - 1) 2 ltac:(lia)).
    pose proof (Z.mod_pos_bound (n + 2 - 1) 2 ltac:(lia)). lia. }
  destruct Hm as [Hm | Hm].
  - assert (Hq : n / m = 2) by (symmetry; apply (Z.div_unique n m 2 0); lia).
    assert (Hr : n mod m = 0) by (symmetry; apply (Z.mod_unique n m 2 0); lia).
    rewrite Hq, Hr.
    destruct (Z.compare_spec (2 * Z.abs 0) (Z.abs m)); simpl in *; lia.
  - assert (Hq : n / m = 1) by (symmetry; apply (Z.div_unique n m 1 (m - 1)); lia).
    assert (Hr : n mod m = m - 1)
      by (symmetry; apply (Z.mod_unique n m 1 (m - 1)); lia).
    rewrite Hq, Hr.
    destruct (Z.compare_spec (2 * Z.abs (m - 1)) (Z.abs m)); simpl; lia.
Qed.

Lemma same_len_1 (n : Z) : same_len n 1 = n.
Proof. unfold same_len. rewrite Z.div_1_r. lia. Qed.

Lemma same_len_pos (n s : Z) : 0 < n -> 0 < s -> 0 < same_len n s.
Proof.
  intros Hn Hs. unfold same_len.
  apply Z.div_str_pos. lia.
Qed.

Lemma round_ratio_block (n s : Z) :
  0 < n -> s = 1 \/ s = 2 ->
  round_half_even_div n (same_len n s) = block_ratio n s.
Proof.
  intros Hn [-> | ->]; unfold block_ratio.
  - rewrite same_len_1, round_half_even_div_self by lia.
    destruct (n =? 1); reflexivity.
  - destruct (Z.eqb_spec n 1) as [-> | Hne].
    + reflexivity.
    + apply round_half_even_div_halved. lia.
Qed.

Lemma same_len_block_ratio (n s : Z) :
  0 < n -> s = 1 \/ s = 2 ->
  same_len n (block_ratio n s) = same_len n s.
Proof.
  intros Hn Hs. unfold block_ratio.
  destruct (Z.eqb_spec n 1) as [-> | Hne]; [|reflexivity].
  destruct Hs as [-> | ->]; reflexivity.
Qed.

Lemma block_ratio_le_1 (n s : Z) :
  0 < n -> s = 1 \/ s = 2 ->
  block_ratio n s <= 1 -> same_len n s = n.
Proof.
  intros Hn Hs. unfold block_ratio.
  destruct (Z.eqb_spec n 1) as [-> | Hne].
  - destruct Hs as [-> | ->]; reflexivity.
  - destruct Hs as [-> | ->]; [intros _; apply same_len_1 | lia].
Qed.

Lemma block_ratio_pos (n s : Z) : s = 1 \/ s = 2 -> 0 < block_ratio n s.
Proof. intros [-> | ->]; unfold block_ratio; destruct (n =? 1); lia. Qed.

(** ** Running the layer helpers *)

Lemma bind_ok {A B} (m : K A) (f : A -> K B) (g g' : graph) (a : A) :
  m g = Ok (a, g') -> bind m f g = f a g'.
Proof. intros H. unfold bind. rewrite H. reflexivity. Qed.

Lemma call_layer_ok (l : layer) (ins : list tensor) (s : shape) (g : graph) :
  compute_output_shape l (map int_shape ins) = Ok s ->
  call_layer l ins g
  = Ok (mk_tensor (length g) s, g ++ [mk_node l (map tid ins)]).
Proof. intros H. unfold call_layer. rewrite H. reflexivity. Qed.

Lemma bn_relu_run (x : tensor) (g : graph) :
  _bn_relu x g
  = Ok (mk_tensor (length g + 1) (int_shape x),
        g ++ [bn_node (tid x); relu_node (length g)]).
Proof.
  unfold _bn_relu, bind, call_layer. simpl.
  rewrite length_app, <- app_assoc. reflexivity.
Qed.

Lemma conv_same_run (cfg : conv_config) (k : nat) (b ch : dim) (r c : Z)
    (g : graph) :
  conv_padding cfg = same ->
  fst (strides cfg) <> 0 -> snd (strides cfg) <> 0 ->
  call_layer (Conv2D cfg) [mk_tensor k [b; Some r; Some c; ch]] g
  = Ok (mk_tensor (length g)
          [b; Some (same_len r (fst (strides cfg)));
           Some (same_len c (snd (strides cfg))); Some (filters cfg)],
        g ++ [conv_node cfg k]).
Proof.
  intros Hpad H1 H2. apply call_layer_ok. simpl.
  unfold window_output_shape, conv_output_length. rewrite Hpad.
  destruct (Z.eqb_spec (fst (strides cfg)) 0); [contradiction|].
  destruct (Z.eqb_spec (snd (strides cfg)) 0); [contradiction|].
  reflexivity.
Qed.

Lemma conv_1x1_valid_run (cfg : conv_config) (k : nat) (b ch : dim) (r c : Z)
    (g : graph) :
  conv_padding cfg = valid -> kernel_size cfg = (1, 1) ->
  fst (strides cfg) <> 0 -> snd (strides cfg) <> 0 ->
  call_layer (Conv2D cfg) [mk_tensor k [b; Some r; Some c; ch]] g
  = Ok (mk_tensor (length g)
          [b; Some (same_len r (fst (strides cfg)));
           Some (same_len c (snd (strides cfg))); Some (filters cfg)],
        g ++ [conv_node cfg k]).
Proof.
  intros Hpad Hk H1 H2. apply call_layer_ok. simpl.
  unfold window_output_shape, conv_output_length. rewrite Hpad, Hk.
  destruct (Z.eqb_spec (fst (strides cfg)) 0); [contradiction|].
  destruct (Z.eqb_spec (snd (strides cfg)) 0); [contradiction|].
  simpl. unfold same_len. repeat f_equal; lia.
Qed.

Lemma bn_relu_conv_run (f : Z) (ks : Z * Z) (ost : option (Z * Z)) (k : nat)
    (b ch : dim) (r c : Z) (g : graph) :
  let st := default (1, 1) ost in
  fst st <> 0 -> snd st <> 0 ->
  _bn_relu_conv (mk_params (Some f) (Some ks) ost None None None)
    (mk_tensor k [b; Some r; Some c; ch]) g
  = Ok (mk_tensor (length g + 2)
          [b; Some (same_len r (fst st)); Some (same_len c (snd st)); Some f],
        g ++ [bn_node k; relu_node (length g);
              conv_node (he_conv f ks st same) (length g + 1)]).
Proof.
  intros st H1 H2. unfold _bn_relu_conv. simpl.
  unfold bind at 1. unfold ret at 1.
  unfold bind at 1. unfold ret at 1.
  erewrite bind_ok by apply bn_relu_run.
  simpl int_shape. unfold setdefault. fold st.
  rewrite (conv_same_run (he_conv f ks st same)) by (try reflexivity; exact H1 || exact H2).
  rewrite length_app, <- app_assoc. simpl.
  repeat f_equal; lia.
Qed.

Lemma merge_dim_same (x : Z) : merge_dim (Some x) (Some x) = Ok (Some x).
Proof.
  unfold merge_dim. destruct (x =? 1); [reflexivity|].
  rewrite Z.eqb_refl. reflexivity.
Qed.

Lemma add_same_run (i j : nat) (b b' : dim) (r c f : Z) (g : graph) :
  add [mk_tensor i [b; Some r; Some c; Some f];
       mk_tensor j [b'; Some r; Some c; Some f]] g
  = Ok (mk_tensor (length g) [b; Some r; Some c; Some f],
        g ++ [add_node i j]).
Proof.
  unfold add. apply call_layer_ok.
  cbn [map int_shape compute_output_shape merge_shapes merge_shape merge_dims].
  rewrite !merge_dim_same. reflexivity.
Qed.

Lemma shortcut_static (k1 k2 : nat) (b1 b2 : dim) (r1 c1 ch1 r2 c2 ch2 : Z)
    (g : graph) :
  r2 <> 0 -> c2 <> 0 ->
  let input := mk_tensor k1 [b1; Some r1; Some c1; Some ch1] in
  let residual := mk_tensor k2 [b2; Some r2; Some c2; Some ch2] in
  let stride_width := round_half_even_div r1 r2 in
  let stride_height := round_half_even_div c1 c2 in
  _shortcut input residual g
  = if identity_shortcut stride_width stride_height ch1 ch2
    then add [input; residual] g
    else (shortcut <- call_layer
                        (Conv2D (he_conv ch2 (1, 1)
                                   (stride_width, stride_height) valid))
                        [input] ;;
          add [shortcut; residual]) g.
Proof.
  intros Hr Hc input residual sw sh.
  unfold _shortcut, identity_shortcut. simpl.
  unfold bind at 1, lift at 1. simpl.
  unfold bind at 1, lift at 1. simpl.
  unfold bind at 1, lift at 1. simpl.
  destruct (Z.eqb_spec r2 0); [contradiction|].
  unfold bind at 1, lift at 1. simpl.
  unfold bind at 1, lift at 1. simpl.
  unfold bind at 1, lift at 1. simpl.
  destruct (Z.eqb_spec c2 0); [contradiction|].
  unfold bind at 1, lift at 1. simpl.
  unfold bind at 1, lift at 1. simpl.
  fold sw sh.
  case_bool_decide as Heq;
    destruct (Z.eqb_spec ch1 ch2) as [Hch | Hch]; try congruence;
    destruct (Z.leb_spec sw 1) as [Hw | Hw], (Z.leb_spec sh 1) as [Hh | Hh];
    repeat match goal with
           | |- context [1 <? ?x] =>
               let E := fresh in
               destruct (Z.ltb_spec 1 x) as [E | E]; try lia
           end;
    reflexivity.
Qed.

(** ** Graphs under construction *)

Lemma shortcut_operands_app (g1 g2 : graph) :
  shortcut_operands (g1 ++ g2) = shortcut_operands g1 ++ shortcut_operands g2.
Proof. unfold shortcut_operands. apply flat_map_app. Qed.

Lemma dense_layers_app (g1 g2 : graph) :
  dense_layers (g1 ++ g2) = dense_layers g1 ++ dense_layers g2.
Proof. unfold dense_layers. apply flat_map_app. Qed.

Lemma main_convs_from_app (ops : list nat) (off : nat) (g1 g2 : graph) :
  main_convs_from ops off (g1 ++ g2)
  = main_convs_from ops off g1
    ++ main_convs_from ops (off + length g1) g2.
Proof.
  revert off. induction g1 as [| n g1 IH]; intros off; simpl.
  - rewrite Nat.add_0_r. reflexivity.
  - rewrite IH, <- app_assoc.
    replace (off + S (length g1))%nat with (S off + length g1)%nat by lia.
    reflexivity.
Qed.

Lemma main_convs_from_ext (ops ops' : list nat) (off : nat) (g : graph) :
  (forall j nd, g !! j = Some nd -> is_conv (node_layer nd) = true ->
                (off + j)%nat ∈ ops <-> (off + j)%nat ∈ ops') ->
  main_convs_from ops off g = main_convs_from ops' off g.
Proof.
  revert off. induction g as [| n g IH]; intros off H; simpl; [reflexivity|].
  f_equal.
  - destruct (node_layer n) eqn:E; try reflexivity.
    assert (Hn : is_conv (node_layer n) = true) by (rewrite E; reflexivity).
    specialize (H 0%nat n eq_refl Hn). rewrite Nat.add_0_r in H.
    repeat case_bool_decide; tauto.
  - apply IH. intros j nd Hj Hc.
    specialize (H (S j) nd Hj Hc).
    replace (S off + j)%nat with (off + S j)%nat by lia. exact H.
Qed.

(** Appending nodes whose shortcut operands are either new nodes or old
    nodes that are not convolutions leaves the main-path convolutions of
    the old graph unchanged. *)
Lemma main_convs_extend (g delta : graph) :
  operands_bounded g ->
  (forall i, i ∈ shortcut_operands delta -> (i < length g)%nat ->
             not_conv_at g i) ->
  main_convs (g ++ delta)
  = main_convs g
    ++ main_convs_from (shortcut_operands delta) (length g) delta.
Proof.
  intros Hb Hd. unfold main_convs.
  rewrite shortcut_operands_app, main_convs_from_app. simpl. f_equal.
  - apply main_convs_from_ext. intros j nd Hj Hc. simpl.
    rewrite elem_of_app. split; [|tauto].
    intros [H | H]; [exact H|].
    destruct (Hd j H) as (nd' & Hnd' & Hnc).
    { apply lookup_lt_Some in Hj. exact Hj. }
    rewrite Hj in Hnd'. injection Hnd' as <-. congruence.
  - apply main_convs_from_ext. intros j nd Hj Hc.
    rewrite elem_of_app. split; [|tauto].
    intros [H | H]; [|exact H].
    unfold operands_bounded in Hb. rewrite Forall_forall in Hb.
    apply Hb in H. lia.
Qed.

Lemma operands_bounded_app (g delta : graph) :
  operands_bounded g ->
  Forall (fun i => (i < length g + length delta)%nat)
    (shortcut_operands delta) ->
  operands_bounded (g ++ delta).
Proof.
  unfold operands_bounded. intros Hg Hd.
  rewrite shortcut_operands_app, length_app. apply Forall_app. split.
  - eapply Forall_impl; [exact Hg|]. simpl. intros. lia.
  - exact Hd.
Qed.

(** ** Residual blocks on statically shaped tensors *)

(** Inside a block the residual is the input reduced by the block stride
    [s], so the shortcut, projected or not, has the shape of the residual
    and the merge succeeds. *)
Lemma shortcut_block_run (k k2 : nat) (b b2 : dim) (r c ch f s : Z)
    (g : graph) :
  0 < r -> 0 < c -> s = 1 \/ s = 2 ->
  let proj :=
    negb (identity_shortcut (block_ratio r s) (block_ratio c s) ch f) in
  _shortcut (mk_tensor k [b; Some r; Some c; Some ch])
    (mk_tensor k2 [b2; Some (same_len r s); Some (same_len c s); Some f]) g
  = Ok (mk_tensor (length g + (if proj then 1 else 0))
          [b; Some (same_len r s); Some (same_len c s); Some f],
        g ++ shortcut_nodes proj
               (he_conv f (1, 1) (block_ratio r s, block_ratio c s) valid)
               k k2 (length g)).
Proof.
  intros Hr Hc Hs proj.
  assert (Hs0 : 0 < s) by lia.
  pose proof (same_len_pos r s Hr Hs0) as Hr2.
  pose proof (same_len_pos c s Hc Hs0) as Hc2.
  rewrite shortcut_static by lia.
  rewrite !round_ratio_block by assumption.
  subst proj.
  destruct (identity_shortcut (block_ratio r s) (block_ratio c s) ch f) eqn:E;
    simpl negb; cbv iota.
  - unfold identity_shortcut in E.
    apply andb_prop in E as [E Ech]. apply andb_prop in E as [Ew Eh].
    apply Z.leb_le in Ew, Eh. apply Z.eqb_eq in Ech. subst f.
    rewrite (block_ratio_le_1 r s), (block_ratio_le_1 c s) by assumption.
    rewrite add_same_run. rewrite Nat.add_0_r. reflexivity.
  - pose proof (block_ratio_pos r s Hs). pose proof (block_ratio_pos c s Hs).
    erewrite bind_ok
      by (apply conv_1x1_valid_run; simpl; first [reflexivity | lia]).
    simpl fst. simpl snd. simpl filters.
    rewrite !same_len_block_ratio by assumption.
    rewrite add_same_run, length_app, <- app_assoc. reflexivity.
Qed.

Lemma not_conv_at_lt (g : graph) (k : nat) :
  not_conv_at g k -> (k < length g)%nat.
Proof. intros (nd & Hl & _). apply lookup_lt_Some in Hl. exact Hl. Qed.

Lemma lookup_app_plus {A} (l1 l2 : list A) (j : nat) :
  (l1 ++ l2) !! (length l1 + j)%nat = l2 !! j.
Proof.
  rewrite lookup_app_r by lia. f_equal. lia.
Qed.

Ltac solve_not_in :=
  rewrite ?list_elem_of_singleton, ?elem_of_cons, ?elem_of_nil; lia.

Lemma all_consumed_feeds (g : graph) (t : nat) :
  (t < length g)%nat -> all_consumed g t ->
  forall i, (i < length g)%nat -> feeds g t i.
Proof.
  intros Ht Hall.
  assert (H : forall d i, (length g - i <= d)%nat -> (i < length g)%nat ->
                          feeds g t i).
  { induction d as [| d IH]; intros i Hd Hi; [lia|].
    destruct (Nat.eq_dec i t) as [-> | Hne]; [apply feeds_self, Ht|].
    destruct (Hall i Hi Hne) as (p & nd & Hp & Hin & Hlt).
    apply (feeds_via g t i p nd Hp Hin).
    apply IH; [|apply lookup_lt_Some in Hp; exact Hp].
    apply lookup_lt_Some in Hp. lia. }
  intros i Hi. apply (H (length g) i); [lia | exact Hi].
Qed.

Lemma consumed_later_app (g delta : graph) (i : nat) :
  consumed_later g i -> consumed_later (g ++ delta) i.
Proof.
  intros (p & nd & Hp & Hin & Hlt). exists p, nd.
  split; [|split; assumption].
  rewrite lookup_app_l by (apply lookup_lt_Some in Hp; exact Hp). exact Hp.
Qed.

Ltac consumer_at g j :=
  exists (length g + j)%nat; eexists;
  split;
  [ rewrite lookup_app_plus; reflexivity
  | split; [simpl; rewrite ?elem_of_cons, ?elem_of_nil; lia | lia] ].

Ltac find_consumer g :=
  first [ consumer_at g 0%nat | consumer_at g 1%nat | consumer_at g 2%nat
        | consumer_at g 3%nat | consumer_at g 4%nat | consumer_at g 5%nat
        | consumer_at g 6%nat | consumer_at g 7%nat | consumer_at g 8%nat
        | consumer_at g 9%nat | consumer_at g 10%nat | consumer_at g 11%nat ].

Ltac new_node_cases i g :=
  let H := fresh "Hcases" in
  assert (H : i = (length g + 0)%nat \/ i = (length g + 1)%nat
              \/ i = (length g + 2)%nat \/ i = (length g + 3)%nat
              \/ i = (length g + 4)%nat \/ i = (length g + 5)%nat
              \/ i = (length g + 6)%nat \/ i = (length g + 7)%nat
              \/ i = (length g + 8)%nat \/ i = (length g + 9)%nat
              \/ i = (length g + 10)%nat \/ i = (length g + 11)%nat) by lia;
  repeat (destruct H as [-> | H]); [.. | subst i].

(** Goal: [all_consumed (g ++ delta) t] for an explicit [delta], with
    [all_consumed g k] among the hypotheses. *)
Ltac extend_consumed g k :=
  intros ix Hix Hnex;
  rewrite ?length_app in Hix; simpl in Hix, Hnex;
  destruct (Nat.lt_ge_cases ix (length g)) as [Hold | Hnew];
  [ destruct (Nat.eq_dec ix k) as [-> | Hik];
    [ find_consumer g
    | apply consumed_later_app;
      match goal with
      | H : all_consumed g k |- _ => apply H; assumption
      end ]
  | new_node_cases ix g; first [exfalso; lia | find_consumer g] ].

Ltac block_graph Hb Hk :=
  repeat rewrite <- app_assoc; simpl app;
  repeat rewrite length_app; simpl length;
  repeat split;
  [ apply operands_bounded_app; [exact Hb |];
    simpl; repeat (apply Forall_cons_2; [simpl; lia |]); apply Forall_nil_2
  | eexists; split;
    [ rewrite <- ?Nat.add_assoc; simpl Nat.add;
      rewrite lookup_app_plus; reflexivity
    | reflexivity ]
  | rewrite main_convs_extend;
    [ f_equal; simpl;
      repeat first [ rewrite bool_decide_eq_false_2 by solve_not_in
                   | rewrite bool_decide_eq_true_2 by solve_not_in ];
      reflexivity
    | exact Hb
    | let Hi := fresh "Hi" in
      let Hi' := fresh "Hi" in
      simpl; intros i Hi Hi';
      rewrite ?list_elem_of_singleton in Hi; subst i;
      first [exact Hk | lia] ]
  | rewrite dense_layers_app; simpl; apply app_nil_r
  | match type of Hk with
    | not_conv_at ?g ?k => intros Hcons; extend_consumed g k
    end ].

Lemma basic_block_step (g : graph) (k : nat) (b : dim) (r c ch f s : Z)
    (first : bool) :
  operands_bounded g -> not_conv_at g k ->
  0 < r -> 0 < c -> s = 1 \/ s = 2 ->
  exists y g',
    basic_block f (s, s) first (mk_tensor k [b; Some r; Some c; Some ch]) g
    = Ok (y, g')
    /\ int_shape y = [b; Some (same_len r s); Some (same_len c s); Some f]
    /\ block_adds g k g' y
         [he_conv f (3, 3) (s, s) same; he_conv f (3, 3) (1, 1) same].
Proof.
  intros Hb Hk Hr Hc Hs.
  assert (Hs0 : s <> 0) by lia.
  pose proof (not_conv_at_lt g k Hk) as Hlt.
  unfold basic_block. destruct first.
  - erewrite bind_ok
      by (apply (conv_same_run (he_conv f (3, 3) (s, s) same));
          first [reflexivity | exact Hs0]).
    erewrite bind_ok by (apply bn_relu_conv_run; simpl; lia).
    simpl default. simpl fst. simpl snd. simpl filters.
    rewrite !same_len_1.
    rewrite shortcut_block_run by assumption.
    eexists _, _. split; [reflexivity|]. split; [reflexivity|].
    unfold block_adds, shortcut_nodes. simpl tid.
    destruct (negb _); block_graph Hb Hk.
  - erewrite bind_ok by (apply bn_relu_conv_run; simpl; lia).
    erewrite bind_ok by (apply bn_relu_conv_run; simpl; lia).
    simpl default. simpl fst. simpl snd.
    rewrite !same_len_1.
    rewrite shortcut_block_run by assumption.
    eexists _, _. split; [reflexivity|]. split; [reflexivity|].
    unfold block_adds, shortcut_nodes. simpl tid.
    destruct (negb _); block_graph Hb Hk.
Qed.

Lemma bottleneck_step (g : graph) (k : nat) (b : dim) (r c ch f s : Z)
    (first : bool) :
  operands_bounded g -> not_conv_at g k ->
  0 < r -> 0 < c -> s = 1 \/ s = 2 ->
  exists y g',
    bottleneck f (s, s) first (mk_tensor k [b; Some r; Some c; Some ch]) g
    = Ok (y, g')
    /\ int_shape y
       = [b; Some (same_len r s); Some (same_len c s); Some (f * 4)]
    /\ block_adds g k g' y
         [he_conv f (1, 1) (s, s) same; he_conv f (3, 3) (1, 1) same;
          he_conv (f * 4) (1, 1) (1, 1) same].
Proof.
  intros Hb Hk Hr Hc Hs.
  assert (Hs0 : s <> 0) by lia.
  pose proof (not_conv_at_lt g k Hk) as Hlt.
  unfold bottleneck. destruct first.
  - erewrite bind_ok
      by (apply (conv_same_run (he_conv f (1, 1) (s, s) same));
          first [reflexivity | exact Hs0]).
    erewrite bind_ok by (apply bn_relu_conv_run; simpl; lia).
    erewrite bind_ok by (apply bn_relu_conv_run; simpl; lia).
    simpl default. simpl fst. simpl snd. simpl filters.
    rewrite !same_len_1.
    rewrite shortcut_block_run by assumption.
    eexists _, _. split; [reflexivity|]. split; [reflexivity|].
    unfold block_adds, shortcut_nodes. simpl tid.
    destruct (negb _); block_graph Hb Hk.
  - erewrite bind_ok by (apply bn_relu_conv_run; simpl; lia).
    erewrite bind_ok by (apply bn_relu_conv_run; simpl; lia).
    erewrite bind_ok by (apply bn_relu_conv_run; simpl; lia).
    simpl default. simpl fst. simpl snd.
    rewrite !same_len_1.
    rewrite shortcut_block_run by assumption.
    eexists _, _. split; [reflexivity|]. split; [reflexivity|].
    unfold block_adds, shortcut_nodes. simpl tid.
    destruct (negb _); block_graph Hb Hk.
Qed.

Lemma call_block_step (fn : pyfun) (f s : Z) (first : bool) (bt : dim)
    (x : tensor) (g : graph) :
  is_block fn -> ready bt g x -> s = 1 \/ s = 2 ->
  exists y g',
    call_block (PyFunc fn) f (s, s) first x g = Ok (y, g')
    /\ ready bt g' y
    /\ main_convs g' = main_convs g ++ block_convs fn f (s, s)
    /\ dense_layers g' = dense_layers g.
Proof.
  intros Hfn (Hb & Hk & Hall & r & c & ch & Hx & Hr & Hc) Hs.
  destruct x as [k sh]. simpl in Hx, Hk, Hall. subst sh.
  assert (0 < s) by lia.
  destruct Hfn as [-> | ->]; simpl call_block.
  - destruct (basic_block_step g k bt r c ch f s first Hb Hk Hr Hc Hs)
      as (y & g' & Hrun & Hy & Hb' & Hk' & Hm & Hd & Hall').
    exists y, g'. split; [exact Hrun|]. split; [|split; assumption].
    split; [exact Hb'|]. split; [exact Hk'|]. split; [exact (Hall' Hall)|].
    eexists _, _, _. split; [exact Hy|].
    split; apply same_len_pos; assumption.
  - destruct (bottleneck_step g k bt r c ch f s first Hb Hk Hr Hc Hs)
      as (y & g' & Hrun & Hy & Hb' & Hk' & Hm & Hd & Hall').
    exists y, g'. split; [exact Hrun|]. split; [|split; assumption].
    split; [exact Hb'|]. split; [exact Hk'|]. split; [exact (Hall' Hall)|].
    eexists _, _, _. split; [exact Hy|].
    split; apply same_len_pos; assumption.
Qed.

Lemma block_strides_cases (is_first_layer : bool) (i : Z) :
  exists s, block_strides is_first_layer i = (s, s) /\ (s = 1 \/ s = 2).
Proof.
  unfold block_strides.
  destruct ((i =? 0) && negb is_first_layer); eexists; split; eauto.
Qed.

Lemma residual_block_step (fn : pyfun) (f repetitions : Z)
    (is_first_layer : bool) (bt : dim) (x : tensor) (g : graph) :
  is_block fn -> ready bt g x ->
  exists y g',
    _residual_block (call_block (PyFunc fn)) f repetitions is_first_layer x g
    = Ok (y, g')
    /\ ready bt g' y
    /\ main_convs g'
       = main_convs g ++ stage_convs fn f repetitions is_first_layer
    /\ dense_layers g' = dense_layers g.
Proof.
  intros Hfn. unfold _residual_block, stage_convs.
  generalize (py_range repetitions) as idx.
  intros idx. revert x g.
  induction idx as [| i idx IH]; intros x g Hready.
  - exists x, g. simpl. rewrite app_nil_r. auto.
  - simpl for_each. fold (block_strides is_first_layer i).
    destruct (block_strides_cases is_first_layer i) as (s & Hst & Hs).
    rewrite Hst.
    destruct (call_block_step fn f s (is_first_layer && (i =? 0)) bt x g
                Hfn Hready Hs)
      as (y & g1 & Hrun & Hready1 & Hm1 & Hd1).
    erewrite bind_ok by exact Hrun.
    destruct (IH y g1 Hready1) as (z & g2 & Hrun2 & Hready2 & Hm2 & Hd2).
    exists z, g2. split; [exact Hrun2|]. split; [exact Hready2|].
    split.
    + rewrite Hm2, Hm1, <- app_assoc. simpl flat_map. rewrite Hst.
      reflexivity.
    + congruence.
Qed.

(** ** The whole network *)

Lemma conv_bn_relu_run (f : Z) (ks st : Z * Z) (k : nat) (b ch : dim)
    (r c : Z) (g : graph) :
  fst st <> 0 -> snd st <> 0 ->
  _conv_bn_relu (mk_params (Some f) (Some ks) (Some st) None None None)
    (mk_tensor k [b; Some r; Some c; ch]) g
  = Ok (mk_tensor (length g + 2)
          [b; Some (same_len r (fst st)); Some (same_len c (snd st)); Some f],
        g ++ [conv_node (he_conv f ks st same) k; bn_node (length g);
              relu_node (length g + 1)]).
Proof.
  intros H1 H2. unfold _conv_bn_relu, setdefault. simpl default.
  erewrite bind_ok
    by (apply (conv_same_run (he_conv f ks st same));
        first [reflexivity | assumption]).
  rewrite bn_relu_run, length_app, <- app_assoc. simpl.
  replace (length g + 1 + 1)%nat with (length g + 2)%nat by lia.
  reflexivity.
Qed.

Lemma max_pool_same_run (ks st : Z * Z) (k : nat) (b ch : dim) (r c : Z)
    (g : graph) :
  fst st <> 0 -> snd st <> 0 ->
  call_layer (MaxPooling2D ks st same) [mk_tensor k [b; Some r; Some c; ch]] g
  = Ok (mk_tensor (length g)
          [b; Some (same_len r (fst st)); Some (same_len c (snd st)); ch],
        g ++ [mk_node (MaxPooling2D ks st same) [k]]).
Proof.
  intros H1 H2. apply call_layer_ok. simpl.
  unfold window_output_shape, conv_output_length.
  destruct (Z.eqb_spec (fst st) 0); [contradiction|].
  destruct (Z.eqb_spec (snd st) 0); [contradiction|].
  reflexivity.
Qed.

Lemma global_average_pool_run (k : nat) (b ch : dim) (r c : Z) (g : graph) :
  call_layer (AveragePooling2D (Some r, Some c) (1, 1))
    [mk_tensor k [b; Some r; Some c; ch]] g
  = Ok (mk_tensor (length g) [b; Some 1; Some 1; ch],
        g ++ [mk_node (AveragePooling2D (Some r, Some c) (1, 1)) [k]]).
Proof.
  apply call_layer_ok. simpl.
  unfold window_output_shape, conv_output_length. simpl.
  rewrite !Z.div_1_r.
  replace (r - r + 1 + 1 - 1) with 1 by lia.
  replace (c - c + 1 + 1 - 1) with 1 by lia.
  reflexivity.
Qed.

Lemma subscript_rows (b r c ch : dim) :
  subscript [b; r; c; ch] ROW_AXIS = Ok r.
Proof. reflexivity. Qed.

Lemma subscript_cols (b r c ch : dim) :
  subscript [b; r; c; ch] COL_AXIS = Ok c.
Proof. reflexivity. Qed.

Lemma stages_loop (fn : pyfun) (stages : list (Z * Z)) (bt : dim)
    (x : tensor) (f : Z) (g : graph) :
  is_block fn -> ready bt g x ->
  exists y f' g',
    for_each stages
      (fun '(i, r) '(block, filters) =>
         block <- _residual_block (call_block (PyFunc fn)) filters r (i =? 0)
                    block ;;
         ret (block, filters * 2))
      (x, f) g
    = Ok ((y, f'), g')
    /\ ready bt g' y
    /\ main_convs g' = main_convs g ++ stages_convs fn stages f
    /\ dense_layers g' = dense_layers g.
Proof.
  intros Hfn. revert x f g.
  induction stages as [| [i r] stages IH]; intros x f g Hready.
  - exists x, f, g. simpl. rewrite app_nil_r. auto.
  - simpl for_each.
    destruct (residual_block_step fn f r (i =? 0) bt x g Hfn Hready)
      as (y & g1 & Hrun & Hready1 & Hm1 & Hd1).
    unfold bind at 1. unfold bind at 1. rewrite Hrun. unfold ret at 1.
    destruct (IH y (f * 2) g1 Hready1)
      as (z & f' & g2 & Hrun2 & Hready2 & Hm2 & Hd2).
    exists z, f', g2. split; [exact Hrun2|]. split; [exact Hready2|].
    split.
    + rewrite Hm2, Hm1, <- app_assoc. reflexivity.
    + congruence.
Qed.

(** For every statically shaped image input, [resnet] with one of the two
    block constructors succeeds, and the main path of the network is the
    stem convolution followed by the blocks of every stage. *)
Lemma resnet_architecture (globals : gmap string pyval) (fn : pyfun)
    (repetitions : list Z) (r c ch num_outputs : Z) :
  is_block fn -> 0 < r -> 0 < c ->
  exists m,
    build (resnet globals [r; c; ch] num_outputs (PyFunc fn) repetitions)
    = Ok m
    /\ main_convs (layers m) = expected_convs fn repetitions
    /\ dense_layers (layers m) = [num_outputs]
    /\ int_shape (outputs m) = [None; Some num_outputs]
    /\ all_layers_used m.
Proof.
  intros Hfn Hr Hc. unfold build, resnet.
  change (negb (length [r; c; ch] =? 3)%nat) with false. cbv iota.
  unfold Input.
  erewrite bind_ok by (apply call_layer_ok; reflexivity).
  simpl map. simpl length.
  erewrite bind_ok by (apply conv_bn_relu_run; simpl; lia).
  erewrite bind_ok by (apply max_pool_same_run; simpl; lia).
  simpl app. simpl length. simpl fst. simpl snd.
  unfold bind at 1. unfold lift at 1. simpl _get_block. cbv iota.
  set (g0 := [mk_node (InputLayer [r; c; ch]) [];
              conv_node (he_conv 64 (7, 7) (2, 2) same) 0%nat;
              bn_node 1%nat; relu_node 2%nat;
              mk_node (MaxPooling2D (3, 3) (2, 2) same) [3%nat]]).
  set (pool1 := mk_tensor 4%nat _).
  assert (Hready : ready None g0 pool1).
  { split; [apply Forall_nil_2|]. split; [|split].
    - eexists. split; reflexivity.
    - intros i Hi Hne. simpl in Hi, Hne.
      exists (S i). destruct i as [| [| [| [| i]]]]; try lia;
        eexists; (split; [reflexivity|]);
        (split; [simpl; rewrite ?elem_of_cons, ?elem_of_nil; lia | lia]).
    - eexists _, _, _. split; [reflexivity|].
      split; repeat apply same_len_pos; lia. }
  destruct (stages_loop fn (enumerate repetitions) None pool1 64 g0 Hfn
              Hready)
    as (y & f' & g1 & Hrun & (Hb & Hk & Hall & r' & c' & ch' & Hy & _) & Hm
        & Hd).
  erewrite bind_ok by exact Hrun.
  destruct y as [k sh]. simpl in Hy. subst sh. simpl fst.
  erewrite bind_ok by apply bn_relu_run.
  simpl int_shape.
  simpl tid.
  unfold bind at 1. unfold lift at 1. rewrite subscript_rows.
  unfold bind at 1. unfold lift at 1. rewrite subscript_cols.
  erewrite bind_ok by apply global_average_pool_run.
  erewrite bind_ok by (apply call_layer_ok; reflexivity).
  erewrite bind_ok by (apply call_layer_ok; reflexivity).
  unfold make_model.
  eexists. split; [reflexivity|]. simpl layers. simpl outputs.
  repeat rewrite <- app_assoc. simpl app.
  split; [|split; [|split]].
  - rewrite main_convs_extend.
    + rewrite Hm. simpl. rewrite app_nil_r. reflexivity.
    + exact Hb.
    + simpl. intros i Hi. apply elem_of_nil in Hi. contradiction.
  - rewrite dense_layers_app, Hd. reflexivity.
  - reflexivity.
  - pose proof (not_conv_at_lt g1 k Hk) as Hlt.
    assert (Hcons : all_consumed g1 k) by exact Hall.
    unfold all_layers_used. simpl layers. simpl outputs. simpl tid.
    apply all_consumed_feeds.
    + repeat rewrite length_app. simpl. lia.
    + repeat rewrite length_app. simpl length.
      repeat rewrite <- Nat.add_assoc. simpl Nat.add.
      extend_consumed g1 k.
Qed.

(** ** Depth of the networks *)

(** C1 (as amended).  For every input shape of three positive sizes and every number of
    outputs, each constructor [resnet_N], N in 18, 34, 50, 101, 152, builds
    a network all of whose layers lead to the output, and the number of its
    weighted layers -- the convolutions that are not projection shortcuts
    (the stem and the block convolutions) plus the final dense layer -- is
    N. *)
Theorem resnet_weighted_layers (globals : gmap string pyval)
    (input_shape : list Z) (num_outputs : Z) :
  length input_shape = 3%nat ->
  Forall (fun d => 0 < d) input_shape ->
  (exists m, build (resnet_18 globals input_shape num_outputs) = Ok m
             /\ all_layers_used m /\ weighted_layers m = 18%nat)
  /\ (exists m, build (resnet_34 globals input_shape num_outputs) = Ok m
                /\ all_layers_used m /\ weighted_layers m = 34%nat)
  /\ (exists m, build (resnet_50 globals input_shape num_outputs) = Ok m
                /\ all_layers_used m /\ weighted_layers m = 50%nat)
  /\ (exists m, build (resnet_101 globals input_shape num_outputs) = Ok m
                /\ all_layers_used m /\ weighted_layers m = 101%nat)
  /\ (exists m, build (resnet_152 globals input_shape num_outputs) = Ok m
                /\ all_layers_used m /\ weighted_layers m = 152%nat).
Proof.
  intros Hlen Hpos.
  destruct input_shape as [| r [| c [| ch [| ? ?]]]]; try discriminate.
  apply Forall_cons in Hpos as [Hr Hpos].
  apply Forall_cons in Hpos as [Hc _].
  assert (Hnet : forall fn reps,
             is_block fn ->
             exists m,
               build (resnet globals [r; c; ch] num_outputs (PyFunc fn) reps)
               = Ok m
               /\ all_layers_used m
               /\ weighted_layers m = S (length (expected_convs fn reps))).
  { intros fn reps Hfn.
    destruct (resnet_architecture globals fn reps r c ch num_outputs Hfn Hr Hc)
      as (m & Hrun & Hm & Hd & _ & Hused).
    exists m. split; [exact Hrun|]. split; [exact Hused|].
    unfold weighted_layers. rewrite Hm, Hd. simpl length. lia. }
  unfold resnet_18, resnet_34, resnet_50, resnet_101, resnet_152.
  split; [|split; [|split; [|split]]].
  - apply (Hnet F_basic_block [2; 2; 2; 2]). left. reflexivity.
  - apply (Hnet F_basic_block [3; 4; 6; 3]). left. reflexivity.
  - apply (Hnet F_bottleneck [3; 4; 6; 3]). right. reflexivity.
  - apply (Hnet F_bottleneck [3; 4; 23; 3]). right. reflexivity.
  - apply (Hnet F_bottleneck [3; 8; 36; 3]). right. reflexivity.
Qed.

Lemma resnet_weighted_layers_witness :
  (exists m, build (resnet_18 module_globals [400; 400; 1] 7) = Ok m
             /\ all_layers_used m /\ weighted_layers m = 18%nat)
  /\ (exists m, build (resnet_34 module_globals [400; 400; 1] 7) = Ok m
                /\ all_layers_used m /\ weighted_layers m = 34%nat)
  /\ (exists m, build (resnet_50 module_globals [400; 400; 1] 7) = Ok m
                /\ all_layers_used m /\ weighted_layers m = 50%nat)
  /\ (exists m, build (resnet_101 module_globals [400; 400; 1] 7) = Ok m
                /\ all_layers_used m /\ weighted_layers m = 101%nat)
  /\ (exists m, build (resnet_152 module_globals [400; 400; 1] 7) = Ok m
                /\ all_layers_used m /\ weighted_layers m = 152%nat).
Proof.
  apply (resnet_weighted_layers module_globals [400; 400; 1] 7).
  - reflexivity.
  - repeat (apply Forall_cons_2; [reflexivity |]). apply Forall_nil_2.
Defined.

(** C1, the claim as stated, fails for an input shape of length 3 with a
    size that is zero: the stem and the first block return feature maps
    with no columns, and [_shortcut] divides the columns of the input by
    those of the residual.  [resnet_50] on 224 rows and 0 columns builds
    no network. *)
Lemma resnet_zero_columns_counterexample :
  length [224; 0; 3] = 3%nat
  /\ build (resnet_50 module_globals [224; 0; 3] 1000)
     = Err (Runtime "ZeroDivisionError").
Proof.
  split; vm_compute; reflexivity.
Qed.

(** ** The shortcut decision *)

(** C2 (as amended).  For every pair of statically shaped input and
    residual tensors whose residual has non-zero row and column sizes,
    [_shortcut] returns [add([shortcut, residual])], where the shortcut is
    the input itself exactly when both rounded size ratios are at most 1
    and the channel counts are equal; otherwise it is a 1x1 'valid'
    convolution of the input with as many filters as the residual has
    channels and the rounded ratios as strides. *)
Theorem shortcut_identity_or_projection (k1 k2 : nat) (b1 b2 : dim)
    (r1 c1 ch1 r2 c2 ch2 : Z) (g : graph) :
  r2 <> 0 -> c2 <> 0 ->
  let input := mk_tensor k1 [b1; Some r1; Some c1; Some ch1] in
  let residual := mk_tensor k2 [b2; Some r2; Some c2; Some ch2] in
  let stride_width := round_half_even_div r1 r2 in
  let stride_height := round_half_even_div c1 c2 in
  _shortcut input residual g
  = if (stride_width <=? 1) && (stride_height <=? 1) && (ch1 =? ch2)
    then add [input; residual] g
    else (shortcut <- call_layer
                        (Conv2D (mk_conv ch2 (1, 1)
                                   (stride_width, stride_height) valid
                                   "he_normal" (l2 (1 # 10000))))
                        [input] ;;
          add [shortcut; residual]) g.
Proof.
  intros Hr Hc input residual stride_width stride_height.
  subst input residual stride_width stride_height.
  rewrite shortcut_static by assumption.
  unfold identity_shortcut, he_conv. reflexivity.
Qed.

Lemma shortcut_identity_or_projection_witness :
  let input := mk_tensor 4 [None; Some 100; Some 100; Some 64] in
  let residual := mk_tensor 10 [None; Some 50; Some 50; Some 128] in
  _shortcut input residual (repeat (mk_node Flatten []) 11)
  = (shortcut <- call_layer
                   (Conv2D (mk_conv 128 (1, 1) (2, 2) valid "he_normal"
                              (l2 (1 # 10000))))
                   [input] ;;
     add [shortcut; residual]) (repeat (mk_node Flatten []) 11).
Proof.
  exact (shortcut_identity_or_projection 4 10 None None 100 100 64 50 50 128
           (repeat (mk_node Flatten []) 11)
           ltac:(discriminate) ltac:(discriminate)).
Defined.

(** C2, the claim as stated, fails when a ratio rounds to 0: for an input
    of 1x1x64 and a residual of 2x2x64 both rounded ratios are 0, not 1, and
    the channel counts agree; [_shortcut] merges the input itself, and no
    projection with strides (0, 0) is built. *)
Lemma shortcut_ratio_zero_counterexample :
  let input := mk_tensor 0 [None; Some 1; Some 1; Some 64] in
  let residual := mk_tensor 1 [None; Some 2; Some 2; Some 64] in
  let g := [mk_node (InputLayer [1; 1; 64]) [];
            mk_node (InputLayer [2; 2; 64]) []] in
  round_half_even_div 1 2 = 0
  /\ _shortcut input residual g = add [input; residual] g
  /\ _shortcut input residual g
     = Ok (mk_tensor 2 [None; Some 2; Some 2; Some 64],
           g ++ [mk_node Add [0%nat; 1%nat]])
  /\ (shortcut <- call_layer
                    (Conv2D (mk_conv 64 (1, 1) (0, 0) valid "he_normal"
                               (l2 (1 # 10000))))
                    [input] ;;
      add [shortcut; residual]) g
     = Err (Runtime "ZeroDivisionError").
Proof.
  repeat split; vm_compute; reflexivity.
Qed.

(** ** Stages *)

Lemma py_range_pos (n : Z) :
  1 <= n ->
  py_range n = 0 :: map (fun i => i + 1) (py_range (n - 1)).
Proof.
  intros Hn. unfold py_range.
  replace (Z.to_nat n) with (S (Z.to_nat (n - 1))) by lia.
  simpl. f_equal.
  rewrite <- seq_shift, !map_map.
  apply map_ext. intros a. lia.
Qed.

Lemma for_each_ext {A B} (xs : list A) (body body' : A -> B -> K B) :
  (forall x, In x xs -> forall acc g, body x acc g = body' x acc g) ->
  forall acc g, for_each xs body acc g = for_each xs body' acc g.
Proof.
  induction xs as [| x xs IH]; intros Hext acc g; simpl.
  - reflexivity.
  - unfold bind. rewrite (Hext x) by (left; reflexivity).
    destruct (body' x acc g) as [[a g'] | e]; [|reflexivity].
    apply IH. intros y Hy. apply Hext. right. exact Hy.
Qed.

Lemma for_each_const {A B} (xs : list A) (step : B -> K B) :
  forall acc g,
    for_each xs (fun _ => step) acc g
    = for_each (repeat tt (length xs)) (fun _ => step) acc g.
Proof.
  induction xs as [| x xs IH]; intros acc g; simpl.
  - reflexivity.
  - unfold bind. destruct (step acc g) as [[a g'] | e]; [apply IH | reflexivity].
Qed.

Lemma for_each_map {A B C} (f : A -> B) (xs : list A) (body : B -> C -> K C) :
  forall acc g,
    for_each (map f xs) body acc g = for_each xs (fun x => body (f x)) acc g.
Proof.
  induction xs as [| x xs IH]; intros acc g; simpl.
  - reflexivity.
  - unfold bind.
    destruct (body (f x) acc g) as [[a g'] | e]; [apply IH | reflexivity].
Qed.

Lemma py_range_nonneg (n i : Z) : In i (py_range n) -> 0 <= i.
Proof.
  unfold py_range. rewrite in_map_iff. intros (k & <- & _). lia.
Qed.

Lemma py_range_length (n : Z) : length (py_range n) = Z.to_nat n.
Proof. unfold py_range. rewrite length_map, length_seq. reflexivity. Qed.

Lemma stage_calls_pos (repetitions : Z) (is_first_layer : bool) :
  1 <= repetitions ->
  stage_calls repetitions is_first_layer
  = ((if is_first_layer then (1, 1) else (2, 2)), is_first_layer)
    :: repeat ((1, 1), false) (Z.to_nat (repetitions - 1)).
Proof.
  intros Hn. unfold stage_calls. rewrite py_range_pos by exact Hn.
  simpl map. f_equal.
  - unfold block_strides. simpl. destruct is_first_layer; reflexivity.
  - rewrite map_map.
    rewrite <- (py_range_length (repetitions - 1)).
    generalize (py_range_nonneg (repetitions - 1)).
    induction (py_range (repetitions - 1)) as [| i l IH]; intros Hnn; simpl.
    + reflexivity.
    + f_equal.
      * assert (0 <= i) by (apply Hnn; left; reflexivity).
        unfold block_strides.
        destruct (Z.eqb_spec (i + 1) 0); [lia|].
        rewrite andb_false_r. reflexivity.
      * apply IH. intros j Hj. apply Hnn. right. exact Hj.
Qed.

(** C9. In a stage of [r >= 1] blocks, block 0 is built with strides (2, 2)
    when the stage is not the first and (1, 1) when it is, and with
    [is_first_block_of_first_layer] equal to [is_first_layer]; every later
    block is built with strides (1, 1) and the flag false.  Hence at most
    one block of a stage is strided, and none in the first stage. *)
Theorem residual_block_strides (block_function : block_function)
    (filters repetitions : Z) (is_first_layer : bool) (input : tensor)
    (g : graph) :
  1 <= repetitions ->
  _residual_block block_function filters repetitions is_first_layer input g
  = (first <- block_function filters
                (if is_first_layer then (1, 1) else (2, 2)) is_first_layer
                input ;;
     for_each (repeat tt (Z.to_nat (repetitions - 1)))
       (fun _ x => block_function filters (1, 1) false x) first) g
  /\ _residual_block block_function filters repetitions is_first_layer input g
     = for_each (stage_calls repetitions is_first_layer)
         (fun '(init_strides, is_first_block) x =>
            block_function filters init_strides is_first_block x) input g
  /\ stage_calls repetitions is_first_layer
     = ((if is_first_layer then (1, 1) else (2, 2)), is_first_layer)
       :: repeat ((1, 1), false) (Z.to_nat (repetitions - 1))
  /\ (length (List.filter strided (stage_calls repetitions is_first_layer))
      <= 1)%nat
  /\ (if is_first_layer
      then List.filter strided (stage_calls repetitions is_first_layer) = []
      else List.filter strided (stage_calls repetitions is_first_layer)
           = [((2, 2), false)]).
Proof.
  intros Hn.
  assert (Hcalls :
    _residual_block block_function filters repetitions is_first_layer input g
    = for_each (stage_calls repetitions is_first_layer)
        (fun '(init_strides, is_first_block) x =>
           block_function filters init_strides is_first_block x) input g).
  { unfold _residual_block, stage_calls. rewrite for_each_map. reflexivity. }
  assert (Hfilter :
    List.filter strided (repeat ((1, 1), false) (Z.to_nat (repetitions - 1)))
    = []).
  { induction (Z.to_nat (repetitions - 1)) as [| n IH]; [reflexivity|].
    simpl. exact IH. }
  pose proof (stage_calls_pos repetitions is_first_layer Hn) as Hlist.
  split; [|split; [exact Hcalls | split; [exact Hlist | split]]].
  - rewrite Hcalls, Hlist. simpl for_each. unfold bind.
    destruct (block_function filters _ is_first_layer input g)
      as [[a g'] |]; [|reflexivity].
    rewrite <- (repeat_length ((1, 1), false) (Z.to_nat (repetitions - 1)))
      at 2.
    rewrite <- for_each_const.
    apply for_each_ext. intros [st flag] Hin acc g0.
    apply repeat_spec in Hin. injection Hin as -> ->. reflexivity.
  - rewrite Hlist. simpl. rewrite Hfilter.
    destruct is_first_layer; simpl; lia.
  - rewrite Hlist. simpl. rewrite Hfilter.
    destruct is_first_layer; reflexivity.
Qed.

Lemma residual_block_strides_witness :
  stage_calls 3 false = [((2, 2), false); ((1, 1), false); ((1, 1), false)]
  /\ stage_calls 3 true = [((1, 1), true); ((1, 1), false); ((1, 1), false)].
Proof.
  pose proof (residual_block_strides basic_block 64 3 false
                (mk_tensor 0 [None; Some 8; Some 8; Some 64])
                [mk_node (InputLayer [8; 8; 64]) []] ltac:(lia))
    as (_ & _ & H1 & _).
  pose proof (residual_block_strides basic_block 64 3 true
                (mk_tensor 0 [None; Some 8; Some 8; Some 64])
                [mk_node (InputLayer [8; 8; 64]) []] ltac:(lia))
    as (_ & _ & H2 & _).
  split; [exact H1 | exact H2].
Defined.

(** ** Resolving the block constructor *)

Lemma get_block_error (globals : gmap string pyval) (identifier : pyval)
    (e : exn) :
  _get_block globals identifier = Err e
  <-> exists name,
        identifier = PyStr name
        /\ e = Raised "ValueError" ("Invalid " +:+ name)
        /\ (globals !! name = None
            \/ exists v, globals !! name = Some v /\ truthy v = false).
Proof.
  destruct identifier as [| b | z | name | f | o];
    try (split; [simpl; discriminate | intros (name & Hname & _); discriminate]).
  simpl _get_block.
  destruct (globals !! name) as [v |] eqn:Hlook; simpl default.
  - destruct (truthy v) eqn:Hv; simpl negb; cbv iota.
    + split; [discriminate|].
      intros (name' & Hname & _ & [Hnone | (v' & Hsome & Hfalse)]);
        injection Hname as <-; congruence.
    + split.
      * intros He. injection He as <-. exists name.
        split; [reflexivity|]. split; [reflexivity|].
        right. exists v. auto.
      * intros (name' & Hname & -> & _). injection Hname as <-.
        reflexivity.
  - simpl. split.
    + intros He. injection He as <-. exists name.
      split; [reflexivity|]. split; [reflexivity|]. left. exact Hlook.
    + intros (name' & Hname & -> & _). injection Hname as <-.
      reflexivity.
Qed.

(** C10. [_get_block] returns a non-string argument unchanged; for a
    string it returns the module-level binding of that name, and it raises
    [ValueError] exactly when the name is unbound or bound to a falsy
    value. *)
Theorem get_block_lookup (globals : gmap string pyval) (identifier : pyval) :
  ((is_string identifier = false
    /\ _get_block globals identifier = Ok identifier)
   \/ (exists name,
         identifier = PyStr name
         /\ ((exists v, globals !! name = Some v /\ truthy v = true
                        /\ _get_block globals identifier = Ok v)
             \/ ((globals !! name = None
                  \/ exists v, globals !! name = Some v /\ truthy v = false)
                 /\ _get_block globals identifier
                    = Err (Raised "ValueError" ("Invalid " +:+ name))))))
  /\ (forall e,
        _get_block globals identifier = Err e
        <-> exists name,
              identifier = PyStr name
              /\ e = Raised "ValueError" ("Invalid " +:+ name)
              /\ (globals !! name = None
                  \/ exists v, globals !! name = Some v /\ truthy v = false)).
Proof.
  split; [| intros e; apply get_block_error].
  destruct identifier as [| b | z | name | f | o];
    try (left; split; reflexivity).
  right. exists name. split; [reflexivity|].
  destruct (_get_block globals (PyStr name)) as [v | e] eqn:Hrun.
  - left. exists v. simpl in Hrun.
    destruct (globals !! name) as [w |] eqn:Hlook; simpl in Hrun.
    + destruct (truthy w) eqn:Hw; simpl in Hrun; [|discriminate].
      injection Hrun as <-. auto.
    + discriminate.
  - right. apply get_block_error in Hrun as (name' & Hname & -> & Hwhy).
    injection Hname as <-. split; [exact Hwhy | reflexivity].
Qed.

(** ** Origin of errors *)

Lemma rbind_runtime {A B} (r : result A) (f : A -> result B) :
  raised_own r = false -> (forall a, raised_own (f a) = false) ->
  raised_own (rbind r f) = false.
Proof. intros Hr Hf. destruct r as [a | [? ? | ?]]; simpl; auto. Qed.

Lemma ret_runtime {A} (a : A) : runtime_only (ret a).
Proof. intros g. reflexivity. Qed.

Lemma raise_runtime {A} (cls : string) : runtime_only (@raise A (Runtime cls)).
Proof. intros g. reflexivity. Qed.

Lemma lift_runtime {A} (r : result A) :
  raised_own r = false -> runtime_only (lift r).
Proof. intros Hr g. unfold lift. destruct r as [a | e]; [reflexivity | exact Hr]. Qed.

Lemma bind_runtime {A B} (m : K A) (f : A -> K B) :
  runtime_only m -> (forall a, runtime_only (f a)) -> runtime_only (bind m f).
Proof.
  intros Hm Hf g. unfold bind. specialize (Hm g).
  destruct (m g) as [[a g'] | e]; [apply Hf | exact Hm].
Qed.

Lemma for_each_runtime {A B} (xs : list A) (body : A -> B -> K B) (acc : B) :
  (forall x b, runtime_only (body x b)) -> runtime_only (for_each xs body acc).
Proof.
  intros Hbody. revert acc. induction xs as [| x xs IH]; intros acc; simpl.
  - apply ret_runtime.
  - apply bind_runtime; [apply Hbody | exact IH].
Qed.

Lemma conv_output_length_runtime (n : dim) (k : Z) (pad : padding) (s : Z) :
  raised_own (conv_output_length n k pad s) = false.
Proof.
  unfold conv_output_length. destruct n as [len |]; [|reflexivity].
  destruct (s =? 0); reflexivity.
Qed.

Lemma window_output_shape_runtime (s : shape) (k st : Z * Z) (pad : padding)
    (ch : dim) :
  raised_own (window_output_shape s k st pad ch) = false.
Proof.
  unfold window_output_shape.
  destruct s as [| b [| r [| c [| d [| ? ?]]]]]; try reflexivity.
  apply rbind_runtime; [apply conv_output_length_runtime|]. intros r'.
  apply rbind_runtime; [apply conv_output_length_runtime|]. reflexivity.
Qed.

Lemma merge_dim_runtime (i j : dim) : raised_own (merge_dim i j) = false.
Proof.
  unfold merge_dim. destruct i as [x |], j as [y |]; try reflexivity.
  destruct (x =? 1), (y =? 1), (x =? y); reflexivity.
Qed.

Lemma merge_dims_runtime (s1 s2 : shape) : raised_own (merge_dims s1 s2) = false.
Proof.
  revert s2. induction s1 as [| i s1 IH]; intros [| j s2]; try reflexivity.
  simpl. apply rbind_runtime; [apply merge_dim_runtime|]. intros d.
  apply rbind_runtime; [apply IH|]. reflexivity.
Qed.

Lemma merge_shape_runtime (s1 s2 : shape) : raised_own (merge_shape s1 s2) = false.
Proof.
  unfold merge_shape. destruct s1 as [| b t1], s2 as [| b' t2]; try reflexivity.
  apply rbind_runtime; [apply merge_dims_runtime|]. reflexivity.
Qed.

Lemma merge_shapes_runtime (acc : shape) (rest : list shape) :
  raised_own (merge_shapes acc rest) = false.
Proof.
  revert acc. induction rest as [| s rest IH]; intros acc; simpl.
  - reflexivity.
  - apply rbind_runtime; [apply merge_shape_runtime | apply IH].
Qed.

Lemma compute_output_shape_runtime (l : layer) (ins : list shape) :
  raised_own (compute_output_shape l ins) = false.
Proof.
  destruct l; simpl;
    repeat match goal with
           | |- context [match ?x with _ => _ end] =>
               lazymatch x with
               | merge_shape _ _ => fail
               | _ => destruct x
               end
           end;
    try reflexivity;
    try apply window_output_shape_runtime.
  all: apply rbind_runtime; [apply merge_shape_runtime|];
    intros; apply merge_shapes_runtime.
Qed.

Lemma call_layer_runtime (l : layer) (ins : list tensor) :
  runtime_only (call_layer l ins).
Proof.
  intros g. unfold call_layer.
  pose proof (compute_output_shape_runtime l (map int_shape ins)) as H.
  destruct (compute_output_shape l (map int_shape ins)); [reflexivity | exact H].
Qed.

Ltac runtime_step :=
  first
    [ apply call_layer_runtime
    | apply ret_runtime
    | apply raise_runtime
    | apply bind_runtime; [| intros ?]
    | apply lift_runtime ].

Lemma getitem_runtime {A} (key : string) (v : option A) :
  runtime_only (getitem key v).
Proof. destruct v; [apply ret_runtime | apply raise_runtime]. Qed.

Lemma subscript_runtime (s : shape) (axis : Z) :
  raised_own (subscript s axis) = false.
Proof. unfold subscript. destruct (s !! Z.to_nat axis); reflexivity. Qed.

Lemma int_round_div_runtime (a b : dim) :
  raised_own (int_round_div a b) = false.
Proof.
  unfold int_round_div. destruct a as [x |], b as [y |]; try reflexivity.
  destruct (y =? 0); reflexivity.
Qed.

Lemma bn_relu_runtime (x : tensor) : runtime_only (_bn_relu x).
Proof. unfold _bn_relu. repeat runtime_step. Qed.

Lemma conv_bn_relu_runtime (p : conv_params) (x : tensor) :
  runtime_only (_conv_bn_relu p x).
Proof.
  unfold _conv_bn_relu. apply bind_runtime; [apply call_layer_runtime|].
  intros conv. apply bn_relu_runtime.
Qed.

Lemma bn_relu_conv_runtime (p : conv_params) (x : tensor) :
  runtime_only (_bn_relu_conv p x).
Proof.
  unfold _bn_relu_conv.
  apply bind_runtime; [apply getitem_runtime|]. intros f.
  apply bind_runtime; [apply getitem_runtime|]. intros ks.
  apply bind_runtime; [apply bn_relu_runtime|]. intros a.
  apply call_layer_runtime.
Qed.

Lemma shortcut_runtime (x residual : tensor) : runtime_only (_shortcut x residual).
Proof.
  unfold _shortcut.
  repeat (apply bind_runtime;
          [ apply lift_runtime;
            first [apply subscript_runtime | apply int_round_div_runtime]
          | intros ? ]).
  apply bind_runtime; [| intros ?; apply call_layer_runtime].
  match goal with |- runtime_only (if ?c then _ else _) => destruct c end;
    [| apply ret_runtime].
  match goal with |- runtime_only (match ?c with _ => _ end) => destruct c end;
    [apply call_layer_runtime | apply raise_runtime].
Qed.

Lemma basic_block_runtime (f : Z) (st : Z * Z) (first : bool) (x : tensor) :
  runtime_only (basic_block f st first x).
Proof.
  unfold basic_block.
  apply bind_runtime.
  - destruct first; [apply call_layer_runtime | apply bn_relu_conv_runtime].
  - intros conv1. apply bind_runtime; [apply bn_relu_conv_runtime|].
    intros residual. apply shortcut_runtime.
Qed.

Lemma bottleneck_runtime (f : Z) (st : Z * Z) (first : bool) (x : tensor) :
  runtime_only (bottleneck f st first x).
Proof.
  unfold bottleneck.
  apply bind_runtime.
  - destruct first; [apply call_layer_runtime | apply bn_relu_conv_runtime].
  - intros c1. apply bind_runtime; [apply bn_relu_conv_runtime|].
    intros c3. apply bind_runtime; [apply bn_relu_conv_runtime|].
    intros residual. apply shortcut_runtime.
Qed.

Lemma call_block_runtime (fn : pyval) (f : Z) (st : Z * Z) (first : bool)
    (x : tensor) :
  runtime_only (call_block fn f st first x).
Proof.
  unfold call_block.
  destruct fn as [| | | | [] |];
    first [ apply raise_runtime
          | apply basic_block_runtime
          | apply bottleneck_runtime
          | apply conv_bn_relu_runtime ].
Qed.

Lemma residual_block_runtime (bf : block_function) (f reps : Z) (first : bool)
    (x : tensor) :
  (forall f st flag y, runtime_only (bf f st flag y)) ->
  runtime_only (_residual_block bf f reps first x).
Proof.
  intros Hbf. unfold _residual_block. apply for_each_runtime.
  intros i y. apply Hbf.
Qed.

(** Everything [resnet] does once [block_fn] is resolved. *)
Lemma resnet_tail_runtime (fn : pyval) (repetitions : list Z)
    (num_outputs : Z) (input pool1 : tensor) :
  runtime_only
    (last <-
       for_each (enumerate repetitions)
         (fun '(i, r) '(block, filters) =>
            block <- _residual_block (call_block fn) filters r (i =? 0)
                       block ;;
            ret (block, filters * 2))
         (pool1, 64) ;;
     block <- _bn_relu (fst last) ;;
     let block_shape := int_shape block in
     rows <- lift (subscript block_shape ROW_AXIS) ;;
     cols <- lift (subscript block_shape COL_AXIS) ;;
     pool2 <- call_layer (AveragePooling2D (rows, cols) (1, 1)) [block] ;;
     flatten1 <- call_layer Flatten [pool2] ;;
     dense <- call_layer (Dense num_outputs "he_normal" "softmax")
                [flatten1] ;;
     make_model input dense).
Proof.
  apply bind_runtime.
  - apply for_each_runtime. intros [i r] [block filters].
    apply bind_runtime; [| intros ?; apply ret_runtime].
    apply residual_block_runtime. intros. apply call_block_runtime.
  - intros last.
    apply bind_runtime; [apply bn_relu_runtime|]. intros block.
    apply bind_runtime; [apply lift_runtime, subscript_runtime|]. intros rows.
    apply bind_runtime; [apply lift_runtime, subscript_runtime|]. intros cols.
    apply bind_runtime; [apply call_layer_runtime|]. intros pool2.
    apply bind_runtime; [apply call_layer_runtime|]. intros flatten1.
    apply bind_runtime; [apply call_layer_runtime|]. intros dense.
    intros g. reflexivity.
Qed.

(** C7 (as amended).  The repository's own code raises an error of its
    own in two places only: [resnet] raises [Exception] exactly when
    [input_shape] does not have length 3, and, through [_get_block],
    [ValueError] exactly when [block_fn] is a string that is unbound or
    bound to a falsy value at module level.  Every other failure of
    [resnet] comes from the interpreter or a library, and [binarize] raises
    nothing of its own. *)
Theorem own_errors_are_the_two_guards (globals : gmap string pyval)
    (input_shape : list Z) (num_outputs : Z) (block_fn : pyval)
    (repetitions : list Z) (g : graph) :
  (forall cls msg,
     resnet globals input_shape num_outputs block_fn repetitions g
     = Err (Raised cls msg)
     <-> (length input_shape <> 3%nat /\ cls = "Exception"
          /\ msg = "Input shape should be a tuple (nb_channels, nb_rows, nb_cols)")
         \/ (length input_shape = 3%nat
             /\ exists name,
                  block_fn = PyStr name
                  /\ (globals !! name = None
                      \/ exists v, globals !! name = Some v
                                   /\ truthy v = false)
                  /\ cls = "ValueError" /\ msg = "Invalid " +:+ name))
  /\ (forall addWeighted adaptiveThreshold img,
        raised_own (binarize addWeighted adaptiveThreshold img) = false).
Proof.
  split.
  - intros cls msg. unfold resnet.
    destruct (Nat.eqb_spec (length input_shape) 3) as [Hlen | Hlen];
      unfold negb; cbv iota.
    + destruct input_shape as [| a [| b [| c [| ? ?]]]]; try discriminate.
      unfold Input.
      erewrite bind_ok by (apply call_layer_ok; reflexivity).
      simpl map.
      erewrite bind_ok by (apply conv_bn_relu_run; simpl; lia).
      erewrite bind_ok by (apply max_pool_same_run; simpl; lia).
      unfold bind at 1. unfold lift at 1.
      destruct (_get_block globals block_fn) as [fn | e] eqn:Hgb.
      * split.
        -- intros Hrun.
           pose proof (resnet_tail_runtime fn repetitions num_outputs) as Hrt.
           match type of Hrun with
           | bind ?m ?f ?g' = _ =>
               match m with
               | for_each _ _ (?pool, _) =>
                   match f with
                   | context [make_model ?inp] =>
                       specialize (Hrt inp pool g')
                   end
               end
           end.
           unfold raised_own in Hrt. simpl in Hrt, Hrun.
           rewrite Hrun in Hrt. discriminate.
        -- intros [(Hne & _) | (_ & name & -> & Hwhy & _)];
             [contradiction|].
           assert (Herr : _get_block globals (PyStr name)
                          = Err (Raised "ValueError" ("Invalid " +:+ name))).
           { apply get_block_error. exists name. auto. }
           congruence.
      * apply get_block_error in Hgb as (name & -> & -> & Hwhy).
        split.
        -- intros He. injection He as <- <-. right.
           split; [reflexivity|]. exists name. auto.
        -- intros [(Hne & _) | (_ & name' & Hname & _ & -> & ->)];
             [contradiction|].
           injection Hname as <-. reflexivity.
    + unfold raise. split.
      * intros He. injection He as <- <-. left. auto.
      * intros [(_ & -> & ->) | (Heq & _)]; [reflexivity | contradiction].
  - intros addWeighted adaptiveThreshold img. unfold binarize.
    assert (Hslice : forall k, raised_own (slice_channel img k) = false).
    { intros k. unfold slice_channel.
      induction img as [| row img IH]; simpl; [reflexivity|].
      apply rbind_runtime.
      - induction row as [| px row IHrow]; simpl; [reflexivity|].
        apply rbind_runtime.
        + destruct (px !! k); reflexivity.
        + intros v. apply rbind_runtime; [exact IHrow | reflexivity].
      - intros r. apply rbind_runtime; [exact IH | reflexivity]. }
    apply rbind_runtime; [apply Hslice|]. intros green.
    apply rbind_runtime; [apply Hslice|]. reflexivity.
Qed.

(** C7, the claim as stated, fails: [resnet] raises an [Exception] of its
    own for a shape that does not have three entries, and [_get_block]
    raises a [ValueError] of its own for a name with no binding. *)
Lemma own_errors_counterexample :
  build (resnet module_globals [400; 400] 7 (PyFunc F_basic_block)
           [2; 2; 2; 2])
  = Err (Raised "Exception"
           "Input shape should be a tuple (nb_channels, nb_rows, nb_cols)")
  /\ _get_block module_globals (PyStr "resnet_200")
     = Err (Raised "ValueError" "Invalid resnet_200")
  /\ build (resnet module_globals [400; 400; 1] 7 (PyStr "resnet_200")
              [2; 2; 2; 2])
     = Err (Raised "ValueError" "Invalid resnet_200").
Proof.
  repeat split; vm_compute; reflexivity.
Qed.

(** ** The prediction report *)

Lemma Qlt_bool_true (a b : Q) : Qlt_bool a b = true -> (a < b)%Q.
Proof.
  unfold Qlt_bool. intros H. apply negb_true_iff in H.
  apply Qnot_le_lt. intros Hle. apply Qle_bool_iff in Hle. congruence.
Qed.

Lemma Qlt_bool_false (a b : Q) : Qlt_bool a b = false -> (b <= a)%Q.
Proof.
  unfold Qlt_bool. intros H. apply negb_false_iff in H.
  apply Qle_bool_iff. exact H.
Qed.

(** The scan keeps the first largest element seen so far. *)
Lemma argmax_scan_spec (l pre : list Q) (best : Q) (best_i : nat) :
  (pre ++ l) !! best_i = Some best ->
  (best_i < length pre)%nat ->
  (forall x, In x pre -> (x <= best)%Q) ->
  (forall j x, (j < best_i)%nat -> pre !! j = Some x -> (x < best)%Q) ->
  let k := argmax_scan best best_i (length pre) l in
  exists y,
    (pre ++ l) !! k = Some y
    /\ (forall x, In x (pre ++ l) -> (x <= y)%Q)
    /\ (forall j x, (j < k)%nat -> (pre ++ l) !! j = Some x -> (x < y)%Q).
Proof.
  revert pre best best_i.
  induction l as [| x l IH]; intros pre best best_i Hbest Hlt Hle Hfirst; simpl.
  - exists best. rewrite app_nil_r in *. split; [exact Hbest|].
    split; [exact Hle|]. exact Hfirst.
  - replace (pre ++ x :: l) with ((pre ++ [x]) ++ l) in *
      by (rewrite <- app_assoc; reflexivity).
    replace (S (length pre)) with (length (pre ++ [x]))
      by (rewrite length_app; simpl; lia).
    destruct (Qlt_bool best x) eqn:Hcmp.
    + apply Qlt_bool_true in Hcmp.
      apply IH.
      * rewrite lookup_app_l by (rewrite length_app; simpl; lia).
        rewrite lookup_app_r by lia.
        rewrite Nat.sub_diag. reflexivity.
      * rewrite length_app. simpl. lia.
      * intros y Hy. apply in_app_or in Hy as [Hy | [<- | []]].
        -- apply Qlt_le_weak. eapply Qle_lt_trans; [apply Hle, Hy | exact Hcmp].
        -- apply Qle_refl.
      * intros j y Hj Hy. rewrite lookup_app_l in Hy by exact Hj.
        eapply Qle_lt_trans; [| exact Hcmp].
        apply Hle. apply list_elem_of_In. eapply list_elem_of_lookup_2.
        exact Hy.
    + apply Qlt_bool_false in Hcmp.
      apply IH.
      * exact Hbest.
      * rewrite length_app. simpl. lia.
      * intros y Hy. apply in_app_or in Hy as [Hy | [<- | []]].
        -- apply Hle, Hy.
        -- exact Hcmp.
      * intros j y Hj Hy. rewrite lookup_app_l in Hy by lia.
        eapply Hfirst; eassumption.
Qed.

Lemma argmax_spec (x : Q) (l : list Q) :
  exists k y,
    argmax (x :: l) = Ok k
    /\ (x :: l) !! k = Some y
    /\ (forall z, In z (x :: l) -> (z <= y)%Q)
    /\ (forall j z, (j < k)%nat -> (x :: l) !! j = Some z -> (z < y)%Q).
Proof.
  destruct (argmax_scan_spec l [x] x 0%nat) as (y & Hy & Hmax & Hfirst).
  - reflexivity.
  - simpl. lia.
  - intros z [<- | []]. apply Qle_refl.
  - intros j z Hj. lia.
  - exists (argmax_scan x 0 1 l), y. split; [reflexivity|].
    split; [exact Hy|]. split; [exact Hmax | exact Hfirst].
Qed.

(** C4. For every prediction vector of length 7 the printed service is the
    label at the index of the largest score (the first such index), and it
    is one of the seven labels. *)
Theorem service_is_label_of_max (pred : list (list Q)) :
  length (concat pred) = 7%nat ->
  exists i label score,
    main_report pred = Ok (mk_report (dict_zip labels (concat pred)) label)
    /\ (i < 7)%nat
    /\ labels !! i = Some label
    /\ concat pred !! i = Some score
    /\ (forall x, In x (concat pred) -> (x <= score)%Q)
    /\ (forall j x, (j < i)%nat -> concat pred !! j = Some x -> (x < score)%Q)
    /\ In label
         ["FBMessanger"; "Instagram"; "Invalid"; "LINE"; "Others"; "Pairs";
          "Twitter"].
Proof.
  intros Hlen. unfold main_report.
  destruct (concat pred) as [| x l] eqn:Hpred; [discriminate|].
  destruct (argmax_spec x l) as (k & y & Hk & Hy & Hmax & Hfirst).
  assert (Hk7 : (k < 7)%nat).
  { apply lookup_lt_Some in Hy. rewrite Hlen in Hy. exact Hy. }
  destruct (lookup_lt_is_Some_2 labels k) as [label Hlabel];
    [simpl; exact Hk7|].
  exists k, label, y.
  rewrite Hk. simpl rbind. rewrite Hlabel.
  repeat split; try assumption.
  apply list_elem_of_In. eapply list_elem_of_lookup_2. exact Hlabel.
Qed.

Lemma service_is_label_of_max_witness :
  exists i label score,
    main_report [[1 # 100; 2 # 100; 3 # 100; 90 # 100; 1 # 100; 2 # 100;
                  1 # 100]]
    = Ok (mk_report
            (dict_zip labels
               (concat [[1 # 100; 2 # 100; 3 # 100; 90 # 100; 1 # 100;
                         2 # 100; 1 # 100]])) label)
    /\ (i < 7)%nat
    /\ labels !! i = Some label
    /\ concat [[1 # 100; 2 # 100; 3 # 100; 90 # 100; 1 # 100; 2 # 100;
                1 # 100]] !! i = Some score
    /\ (forall x,
          In x (concat [[1 # 100; 2 # 100; 3 # 100; 90 # 100; 1 # 100;
                         2 # 100; 1 # 100]]) -> (x <= score)%Q)
    /\ (forall j x,
          (j < i)%nat ->
          concat [[1 # 100; 2 # 100; 3 # 100; 90 # 100; 1 # 100; 2 # 100;
                   1 # 100]] !! j = Some x -> (x < score)%Q)
    /\ In label
         ["FBMessanger"; "Instagram"; "Invalid"; "LINE"; "Others"; "Pairs";
          "Twitter"].
Proof.
  apply (service_is_label_of_max
           [[1 # 100; 2 # 100; 3 # 100; 90 # 100; 1 # 100; 2 # 100;
             1 # 100]]).
  reflexivity.
Defined.

(** ** Binarization *)

Lemma map_result_ok {A B} (f : A -> result B) (h : A -> B) (l : list A) :
  Forall (fun x => f x = Ok (h x)) l -> map_result f l = Ok (map h l).
Proof.
  induction 1 as [| x l Hx Hl IH]; simpl.
  - reflexivity.
  - rewrite Hx, IH. reflexivity.
Qed.

Lemma slice_channel_ok (img : image) (k : nat) :
  Forall (Forall (fun px : list Byte.byte => (k < length px)%nat)) img ->
  slice_channel img k = Ok (map (map (fun px => nth k px Byte.x00)) img).
Proof.
  intros Himg. unfold slice_channel. apply map_result_ok.
  eapply Forall_impl; [exact Himg|]. intros row Hrow. simpl.
  apply map_result_ok.
  eapply Forall_impl; [exact Hrow|]. intros px Hpx. simpl.
  destruct (lookup_lt_is_Some_2 px k Hpx) as [v Hv]. rewrite Hv.
  f_equal. symmetry. apply nth_lookup_Some with (d := Byte.x00) in Hv.
  exact Hv.
Qed.

Lemma three_channels_lt (img : image) (k : nat) :
  (k < 3)%nat ->
  Forall (Forall (fun px : list Byte.byte => length px = 3%nat)) img ->
  Forall (Forall (fun px : list Byte.byte => (k < length px)%nat)) img.
Proof.
  intros Hk Himg. eapply Forall_impl; [exact Himg|]. intros row Hrow. simpl.
  eapply Forall_impl; [exact Hrow|]. intros px Hpx. simpl in *. lia.
Qed.

Lemma byte_min_xff (v : Byte.byte) : byte_min Byte.xff v = v.
Proof. destruct v; reflexivity. Qed.

Lemma byte_max_x00 (v : Byte.byte) : byte_max Byte.x00 v = v.
Proof. destruct v; reflexivity. Qed.

Lemma pixel_at_lookup (border v : Byte.byte) (img : plane)
    (row : list Byte.byte) (y x : nat) :
  img !! y = Some row -> row !! x = Some v ->
  pixel_at border img (Z.of_nat y + 0) (Z.of_nat x + 0) = v.
Proof.
  intros Hrow Hv. unfold pixel_at. rewrite !Z.add_0_r.
  destruct (Z.ltb_spec (Z.of_nat y) 0); [lia|].
  destruct (Z.ltb_spec (Z.of_nat x) 0); [lia|].
  simpl. rewrite !Nat2Z.id, Hrow, Hv. reflexivity.
Qed.

(** With the 1x1 kernel every pixel is combined with the border value
    only, which is neutral for the operation. *)
Lemma morph_1x1 (op : Byte.byte -> Byte.byte -> Byte.byte)
    (border : Byte.byte) (img : plane) :
  (forall v, op border v = v) ->
  morph op border img (np_ones 1 1) = img.
Proof.
  intros Hop. unfold morph.
  change (kernel_offsets (np_ones 1 1)) with [(0, 0)].
  apply list_eq. intros y. rewrite list_lookup_imap.
  destruct (img !! y) as [row |] eqn:Hrow; [|reflexivity].
  simpl. f_equal.
  apply list_eq. intros x. rewrite list_lookup_imap.
  destruct (row !! x) as [v |] eqn:Hv; [|reflexivity].
  simpl. f_equal.
  unfold morph_pixel. cbn [fold_left].
  rewrite (pixel_at_lookup border v img row y x Hrow Hv).
  apply Hop.
Qed.

Lemma opening_1x1 (t : plane) : morphologyEx t MORPH_OPEN (np_ones 1 1) = t.
Proof.
  unfold morphologyEx, erode, dilate.
  rewrite (morph_1x1 byte_min Byte.xff t byte_min_xff).
  apply morph_1x1. exact byte_max_x00.
Qed.

Lemma sample_image_three_channels :
  Forall (Forall (fun px : list Byte.byte => length px = 3%nat)) sample_image.
Proof.
  repeat (apply Forall_cons_2 || apply Forall_nil_2); reflexivity.
Qed.

(** C3. On every 3-channel image [binarize] succeeds and returns the
    morphological opening of the inverted-binary Gaussian adaptive
    threshold (max value 255, block size 9, constant 10) of the blend
    0.5 * red + 0.5 * green + 0, where red is channel 2 and green is channel
    1; channel 0 does not enter the result. *)
Theorem binarize_steps
    (addWeighted : plane -> Q -> plane -> Q -> Q -> plane)
    (adaptiveThreshold :
       plane -> Z -> adaptive_method -> threshold_type -> Z -> Z -> plane)
    (img : image) :
  Forall (Forall (fun px : list Byte.byte => length px = 3%nat)) img ->
  let green := map (map (fun px => nth 1 px Byte.x00)) img in
  let red := map (map (fun px => nth 2 px Byte.x00)) img in
  let redGreen := addWeighted red (1 # 2) green (1 # 2) 0%Q in
  let th_red :=
    adaptiveThreshold redGreen 255 ADAPTIVE_THRESH_GAUSSIAN_C
      THRESH_BINARY_INV 9 10 in
  slice_channel img 1 = Ok green
  /\ slice_channel img 2 = Ok red
  /\ binarize addWeighted adaptiveThreshold img
     = Ok (morphologyEx th_red MORPH_OPEN (np_ones 1 1))
  /\ (forall blue : list Byte.byte -> Byte.byte,
        binarize addWeighted adaptiveThreshold
          (map (map (fun px => [blue px; nth 1 px Byte.x00;
                                nth 2 px Byte.x00])) img)
        = binarize addWeighted adaptiveThreshold img).
Proof.
  intros Himg green red redGreen th_red.
  pose proof (slice_channel_ok img 1
                (three_channels_lt img 1 ltac:(lia) Himg)) as Hg.
  pose proof (slice_channel_ok img 2
                (three_channels_lt img 2 ltac:(lia) Himg)) as Hr.
  split; [exact Hg|]. split; [exact Hr|].
  assert (Hrun : binarize addWeighted adaptiveThreshold img
                 = Ok (morphologyEx th_red MORPH_OPEN (np_ones 1 1))).
  { unfold binarize. rewrite Hg, Hr. reflexivity. }
  split; [exact Hrun|].
  intros blue. rewrite Hrun. unfold binarize.
  set (img' := map (map (fun px => [blue px; nth 1 px Byte.x00;
                                    nth 2 px Byte.x00])) img).
  assert (Himg' : Forall (Forall (fun px : list Byte.byte =>
                                    length px = 3%nat)) img').
  { subst img'. apply Forall_map. apply Forall_forall. intros row _.
    apply Forall_map. apply Forall_forall. intros px _. reflexivity. }
  rewrite (slice_channel_ok img' 1 (three_channels_lt img' 1 ltac:(lia) Himg')).
  rewrite (slice_channel_ok img' 2 (three_channels_lt img' 2 ltac:(lia) Himg')).
  subst img'. rewrite !map_map.
  assert (H1 : map (fun row : list (list Byte.byte) =>
                      map (fun px => nth 1 px Byte.x00)
                        (map (fun px => [blue px; nth 1 px Byte.x00;
                                         nth 2 px Byte.x00]) row)) img
               = green).
  { subst green. apply map_ext. intros row. rewrite map_map. reflexivity. }
  assert (H2 : map (fun row : list (list Byte.byte) =>
                      map (fun px => nth 2 px Byte.x00)
                        (map (fun px => [blue px; nth 1 px Byte.x00;
                                         nth 2 px Byte.x00]) row)) img
               = red).
  { subst red. apply map_ext. intros row. rewrite map_map. reflexivity. }
  simpl rbind. rewrite H1, H2. reflexivity.
Qed.

Lemma binarize_steps_witness :
  binarize sample_addWeighted sample_adaptiveThreshold sample_image
  = Ok [[Byte.xff; Byte.x00]].
Proof.
  pose proof (binarize_steps sample_addWeighted sample_adaptiveThreshold
                sample_image sample_image_three_channels)
    as (_ & _ & H & _).
  exact H.
Defined.

(** C8. The opening step of [binarize] uses the 1x1 kernel of ones, opening
    with that kernel returns every image unchanged, and so [binarize]
    returns exactly the output of the adaptive threshold. *)
Theorem binarize_opening_is_identity
    (addWeighted : plane -> Q -> plane -> Q -> Q -> plane)
    (adaptiveThreshold :
       plane -> Z -> adaptive_method -> threshold_type -> Z -> Z -> plane)
    (img : image) :
  Forall (Forall (fun px : list Byte.byte => length px = 3%nat)) img ->
  let green := map (map (fun px => nth 1 px Byte.x00)) img in
  let red := map (map (fun px => nth 2 px Byte.x00)) img in
  let th_red :=
    adaptiveThreshold (addWeighted red (1 # 2) green (1 # 2) 0%Q) 255
      ADAPTIVE_THRESH_GAUSSIAN_C THRESH_BINARY_INV 9 10 in
  np_ones 1 1 = [[Byte.x01]]
  /\ binarize addWeighted adaptiveThreshold img
     = Ok (morphologyEx th_red MORPH_OPEN [[Byte.x01]])
  /\ (forall t : plane, morphologyEx t MORPH_OPEN [[Byte.x01]] = t)
  /\ binarize addWeighted adaptiveThreshold img = Ok th_red.
Proof.
  intros Himg green red th_red.
  assert (Hrun : binarize addWeighted adaptiveThreshold img
                 = Ok (morphologyEx th_red MORPH_OPEN (np_ones 1 1))).
  { unfold binarize.
    rewrite (slice_channel_ok img 1 (three_channels_lt img 1 ltac:(lia) Himg)).
    rewrite (slice_channel_ok img 2 (three_channels_lt img 2 ltac:(lia) Himg)).
    reflexivity. }
  split; [reflexivity|]. split; [exact Hrun|].
  split; [exact opening_1x1|].
  rewrite Hrun, opening_1x1. reflexivity.
Qed.

Lemma binarize_opening_is_identity_witness :
  binarize sample_addWeighted sample_adaptiveThreshold sample_image
  = Ok (sample_adaptiveThreshold
          (sample_addWeighted [[Byte.x30; Byte.xd0]] (1 # 2)
             [[Byte.x20; Byte.xe0]] (1 # 2) 0%Q)
          255 ADAPTIVE_THRESH_GAUSSIAN_C THRESH_BINARY_INV 9 10).
Proof.
  pose proof (binarize_opening_is_identity sample_addWeighted
                sample_adaptiveThreshold sample_image
                sample_image_three_channels)
    as (_ & _ & _ & H).
  exact H.
Defined.

(** ** The prediction pipeline *)

Lemma broadcast_to_same {A} (n : nat) (l : list A) :
  length l = n -> broadcast_to n l = Ok l.
Proof. intros <-. unfold broadcast_to. rewrite Nat.eqb_refl. reflexivity. Qed.

Lemma assign_channel0_ok (rows cols : nat) (src : plane) :
  length src = rows ->
  Forall (fun row => length row = cols) src ->
  assign_channel0 rows cols src
  = Ok (map (map (fun v => [Z.of_N (Byte.to_N v)])) src).
Proof.
  intros Hrows Hcols. unfold assign_channel0.
  rewrite broadcast_to_same by exact Hrows. simpl rbind.
  apply map_result_ok.
  eapply Forall_impl; [exact Hcols|]. intros row Hrow. simpl in *.
  rewrite broadcast_to_same by exact Hrow. reflexivity.
Qed.

Lemma sample_resize_shape (p : plane) (w h : nat) :
  length (sample_resize p (w, h)) = h
  /\ Forall (fun row => length row = w) (sample_resize p (w, h)).
Proof.
  unfold sample_resize. simpl fst. simpl snd. split.
  - rewrite length_map, length_seq. reflexivity.
  - apply Forall_map. apply Forall_forall. intros y _.
    rewrite length_map, length_seq. reflexivity.
Qed.

(** C6. The classifier is fed the binarized image and never the raw one:
    when [binarize] returns [b] for the loaded image, [main] resizes [b] to
    400x400, places it as the only channel of an array of shape
    (1, 400, 400, 1) and calls [model.predict] on that array; when
    [binarize] fails, so does [main], and nothing is predicted.  Here
    [cv2.resize] is any function that returns an image of the requested
    size. *)
Theorem predict_consumes_binarized (binarize_fn : image -> result plane)
    (resize : plane -> nat * nat -> plane)
    (model_predict : list (list (list (list Z))) -> list (list Q))
    (img : image) :
  (forall p w h,
     length (resize p (w, h)) = h
     /\ Forall (fun row => length row = w) (resize p (w, h))) ->
  match binarize_fn img with
  | Ok b =>
      let x :=
        [map (map (fun v => [Z.of_N (Byte.to_N v)]))
           (resize b (400%nat, 400%nat))] in
      main_input binarize_fn resize img = Ok x
      /\ has_shape_1_r_c_1 400 400 x
      /\ main binarize_fn resize model_predict img
         = (out <-? main_report (model_predict x) ;; Ok (mk_run x out))
  | Err e =>
      main_input binarize_fn resize img = Err e
      /\ main binarize_fn resize model_predict img = Err e
  end.
Proof.
  intros Hresize. unfold main, main_input.
  destruct (binarize_fn img) as [b | e]; simpl rbind; [| split; reflexivity].
  destruct (Hresize b 400%nat 400%nat) as [Hrows Hcols].
  rewrite (assign_channel0_ok 400 400 _ Hrows Hcols). simpl rbind.
  split; [reflexivity|]. split; [|reflexivity].
  split; [reflexivity|].
  apply Forall_cons_2; [|apply Forall_nil_2]. split.
  - rewrite length_map. exact Hrows.
  - apply Forall_map. eapply Forall_impl; [exact Hcols|].
    intros row Hrow. simpl in *. split.
    + rewrite length_map. exact Hrow.
    + apply Forall_map. apply Forall_forall. intros v _. reflexivity.
Qed.

Lemma predict_consumes_binarized_witness :
  match binarize sample_addWeighted sample_adaptiveThreshold sample_image with
  | Ok b =>
      let x :=
        [map (map (fun v => [Z.of_N (Byte.to_N v)]))
           (sample_resize b (400%nat, 400%nat))] in
      main_input (binarize sample_addWeighted sample_adaptiveThreshold)
        sample_resize sample_image = Ok x
      /\ has_shape_1_r_c_1 400 400 x
      /\ main (binarize sample_addWeighted sample_adaptiveThreshold)
           sample_resize sample_predict sample_image
         = (out <-? main_report (sample_predict x) ;; Ok (mk_run x out))
  | Err e =>
      main_input (binarize sample_addWeighted sample_adaptiveThreshold)
        sample_resize sample_image = Err e
      /\ main (binarize sample_addWeighted sample_adaptiveThreshold)
           sample_resize sample_predict sample_image = Err e
  end.
Proof.
  apply (predict_consumes_binarized
           (binarize sample_addWeighted sample_adaptiveThreshold)
           sample_resize sample_predict sample_image).
  exact sample_resize_shape.
Defined.

(** ** Block type and depth *)



(** * Further properties of the code *)

(** ** Networks of any depth *)

Lemma block_convs_length (fn : pyfun) (f : Z) (st : Z * Z) :
  is_block fn -> length (block_convs fn f st) = convs_per_block fn.
Proof. intros [-> | ->]; reflexivity. Qed.

Lemma stage_convs_length (fn : pyfun) (f r : Z) (first : bool) :
  is_block fn ->
  length (stage_convs fn f r first) = (convs_per_block fn * Z.to_nat r)%nat.
Proof.
  intros Hfn. unfold stage_convs.
  rewrite <- (py_range_length r).
  induction (py_range r) as [| i l IH]; simpl.
  - lia.
  - rewrite length_app, IH, block_convs_length by exact Hfn. lia.
Qed.

Lemma stages_convs_length (fn : pyfun) (stages : list (Z * Z)) (f : Z) :
  is_block fn ->
  length (stages_convs fn stages f)
  = (convs_per_block fn * total_blocks (map snd stages))%nat.
Proof.
  intros Hfn. revert f.
  induction stages as [| [i r] stages IH]; intros f; simpl.
  - unfold total_blocks. simpl. lia.
  - rewrite length_app, IH, stage_convs_length by exact Hfn.
    unfold total_blocks. simpl. lia.
Qed.

Lemma combine_snd {A B} (l1 : list A) (l2 : list B) :
  length l1 = length l2 -> map snd (combine l1 l2) = l2.
Proof.
  revert l2. induction l1 as [| a l1 IH]; intros [| b l2] Hlen;
    try discriminate; simpl; [reflexivity|].
  f_equal. apply IH. simpl in Hlen. lia.
Qed.

Lemma enumerate_snd {A} (xs : list A) : map snd (enumerate xs) = xs.
Proof.
  unfold enumerate. apply combine_snd.
  rewrite py_range_length, Nat2Z.id. reflexivity.
Qed.

Lemma expected_convs_length (fn : pyfun) (reps : list Z) :
  is_block fn ->
  length (expected_convs fn reps)
  = S (convs_per_block fn * total_blocks reps).
Proof.
  intros Hfn. unfold expected_convs. simpl.
  rewrite stages_convs_length, enumerate_snd by exact Hfn. reflexivity.
Qed.

(** X1. [resnet] with either block constructor builds a network for every
    repetition list, also an empty one or one with entries that are zero or
    negative, on every input shape of three positive sizes.  All its layers
    lead to the output, and its weighted layers number 2 (stem convolution
    and dense layer) plus 2 per basic block or 3 per bottleneck block, where
    a stage of [r] repetitions has [max(r, 0)] blocks. *)
Theorem resnet_depth_formula (globals : gmap string pyval) (fn : pyfun)
    (repetitions input_shape : list Z) (num_outputs : Z) :
  is_block fn ->
  length input_shape = 3%nat ->
  Forall (fun d => 0 < d) input_shape ->
  exists m,
    build (resnet globals input_shape num_outputs (PyFunc fn) repetitions)
    = Ok m
    /\ all_layers_used m
    /\ weighted_layers m
       = (2 + convs_per_block fn * total_blocks repetitions)%nat
    /\ dense_layers (layers m) = [num_outputs].
Proof.
  intros Hfn Hlen Hpos.
  destruct input_shape as [| r [| c [| ch [| ? ?]]]]; try discriminate.
  apply Forall_cons in Hpos as [Hr Hpos].
  apply Forall_cons in Hpos as [Hc _].
  destruct (resnet_architecture globals fn repetitions r c ch num_outputs
              Hfn Hr Hc) as (m & Hrun & Hm & Hd & _ & Hused).
  exists m. split; [exact Hrun|]. split; [exact Hused|]. split; [|exact Hd].
  unfold weighted_layers.
  rewrite Hm, Hd, expected_convs_length by exact Hfn. simpl. lia.
Qed.

Lemma resnet_depth_formula_witness :
  exists m,
    build (resnet module_globals [224; 224; 3] 1000 (PyFunc F_bottleneck)
             [3; 0; -2])
    = Ok m
    /\ all_layers_used m
    /\ weighted_layers m = 11%nat
    /\ dense_layers (layers m) = [1000].
Proof.
  apply (resnet_depth_formula module_globals F_bottleneck [3; 0; -2]
           [224; 224; 3] 1000).
  - right. reflexivity.
  - reflexivity.
  - repeat (apply Forall_cons_2; [reflexivity |]). apply Forall_nil_2.
Defined.

Lemma stages_convs_closed (fn : pyfun) (reps : list Z) (k : nat) (f : Z) :
  stages_convs fn (combine (map Z.of_nat (seq k (length reps))) reps) f
  = concat (imap (fun i r =>
                    stage_convs fn (f * 2 ^ Z.of_nat i) r
                      (Z.of_nat (k + i) =? 0)) reps).
Proof.
  revert k f. induction reps as [| r reps IH]; intros k f; simpl.
  - reflexivity.
  - rewrite IH. rewrite Nat.add_0_r, Z.mul_1_r. f_equal. f_equal.
    apply imap_ext. intros i x _. unfold compose.
    replace (f * 2 * 2 ^ Z.of_nat i) with (f * 2 ^ Z.of_nat (S i))
      by (rewrite Nat2Z.inj_succ, Z.pow_succ_r by lia; lia).
    replace (Z.of_nat (S k + i) =? 0) with (Z.of_nat (k + S i) =? 0)
      by (f_equal; lia).
    reflexivity.
Qed.

(** X2. The filters double from stage to stage and only the first block of
    a later stage is strided: for every repetition list, the main path of
    the network built by [resnet] is the 7x7 stem of 64 filters followed,
    for stage [i] = 0, 1, ..., by the convolutions of its blocks with
    [64 * 2^i] filters, with strides (2, 2) only in block 0 of the stages
    [i >= 1]. *)
Theorem resnet_stage_layout (globals : gmap string pyval) (fn : pyfun)
    (repetitions input_shape : list Z) (num_outputs : Z) :
  is_block fn ->
  length input_shape = 3%nat ->
  Forall (fun d => 0 < d) input_shape ->
  exists m,
    build (resnet globals input_shape num_outputs (PyFunc fn) repetitions)
    = Ok m
    /\ main_convs (layers m)
       = mk_conv 64 (7, 7) (2, 2) same "he_normal" (l2 (1 # 10000))
         :: concat
              (imap (fun i r =>
                       flat_map
                         (fun j =>
                            block_convs fn (64 * 2 ^ Z.of_nat i)
                              (if (j =? 0) && negb (Z.of_nat i =? 0)
                               then (2, 2) else (1, 1)))
                         (py_range r))
                 repetitions).
Proof.
  intros Hfn Hlen Hpos.
  destruct input_shape as [| r [| c [| ch [| ? ?]]]]; try discriminate.
  apply Forall_cons in Hpos as [Hr Hpos].
  apply Forall_cons in Hpos as [Hc _].
  destruct (resnet_architecture globals fn repetitions r c ch num_outputs
              Hfn Hr Hc) as (m & Hrun & Hm & _).
  exists m. split; [exact Hrun|].
  rewrite Hm. unfold expected_convs, enumerate, py_range.
  rewrite Nat2Z.id, stages_convs_closed. reflexivity.
Qed.

Lemma resnet_stage_layout_witness :
  exists m,
    build (resnet module_globals [64; 48; 3] 10 (PyFunc F_basic_block) [1; 2])
    = Ok m
    /\ main_convs (layers m)
       = [mk_conv 64 (7, 7) (2, 2) same "he_normal" (l2 (1 # 10000));
          mk_conv 64 (3, 3) (1, 1) same "he_normal" (l2 (1 # 10000));
          mk_conv 64 (3, 3) (1, 1) same "he_normal" (l2 (1 # 10000));
          mk_conv 128 (3, 3) (2, 2) same "he_normal" (l2 (1 # 10000));
          mk_conv 128 (3, 3) (1, 1) same "he_normal" (l2 (1 # 10000));
          mk_conv 128 (3, 3) (1, 1) same "he_normal" (l2 (1 # 10000));
          mk_conv 128 (3, 3) (1, 1) same "he_normal" (l2 (1 # 10000))].
Proof.
  apply (resnet_stage_layout module_globals F_basic_block [1; 2] [64; 48; 3]
           10).
  - left. reflexivity.
  - reflexivity.
  - repeat (apply Forall_cons_2; [reflexivity |]). apply Forall_nil_2.
Defined.

(** ** Stages that build nothing *)

Lemma py_range_nonpos (n : Z) : n <= 0 -> py_range n = [].
Proof.
  intros H. unfold py_range. replace (Z.to_nat n) with 0%nat by lia.
  reflexivity.
Qed.

Lemma stages_loop_empty (bf : block_function) (stages : list (Z * Z))
    (x : tensor) (f : Z) (g : graph) :
  Forall (fun r => r <= 0) (map snd stages) ->
  exists f',
    for_each stages
      (fun '(i, r) '(block, filters) =>
         block <- _residual_block bf filters r (i =? 0) block ;;
         ret (block, filters * 2))
      (x, f) g
    = Ok ((x, f'), g).
Proof.
  revert f. induction stages as [| [i r] stages IH]; intros f Hall.
  - exists f. reflexivity.
  - simpl in Hall. apply Forall_cons in Hall as [Hr Hall].
    simpl for_each. unfold _residual_block at 1.
    rewrite py_range_nonpos by exact Hr. simpl for_each.
    unfold bind at 1. unfold bind at 1. unfold ret at 1. unfold ret at 1.
    apply IH. exact Hall.
Qed.

(** X3. [range(r)] is empty for [r <= 0], so when no repetition is positive
    [resnet] never calls [block_fn]: whatever object [_get_block] returns
    for it, callable or not, the network is built and consists of the stem,
    the final normalisation and activation, the global average pooling over
    the quarter-size feature map and the classifier. *)
Theorem resnet_without_blocks (globals : gmap string pyval) (block_fn v : pyval)
    (repetitions : list Z) (r c ch num_outputs : Z) :
  Forall (fun n => n <= 0) repetitions ->
  _get_block globals block_fn = Ok v ->
  0 < r -> 0 < c ->
  exists m,
    build (resnet globals [r; c; ch] num_outputs block_fn repetitions) = Ok m
    /\ layers m
       = [mk_node (InputLayer [r; c; ch]) [];
          mk_node (Conv2D (mk_conv 64 (7, 7) (2, 2) same "he_normal"
                             (l2 (1 # 10000)))) [0%nat];
          mk_node (BatchNormalization 3) [1%nat];
          mk_node (Activation "relu") [2%nat];
          mk_node (MaxPooling2D (3, 3) (2, 2) same) [3%nat];
          mk_node (BatchNormalization 3) [4%nat];
          mk_node (Activation "relu") [5%nat];
          mk_node (AveragePooling2D
                     (Some (((r + 1) / 2 + 1) / 2),
                      Some (((c + 1) / 2 + 1) / 2)) (1, 1)) [6%nat];
          mk_node Flatten [7%nat];
          mk_node (Dense num_outputs "he_normal" "softmax") [8%nat]]
    /\ int_shape (outputs m) = [None; Some num_outputs].
Proof.
  intros Hreps Hget Hr Hc. unfold build, resnet.
  change (negb (length [r; c; ch] =? 3)%nat) with false. cbv iota.
  unfold Input.
  erewrite bind_ok by (apply call_layer_ok; reflexivity).
  simpl map. simpl length.
  erewrite bind_ok by (apply conv_bn_relu_run; simpl; lia).
  erewrite bind_ok by (apply max_pool_same_run; simpl; lia).
  simpl app. simpl length. simpl fst. simpl snd.
  unfold bind at 1. unfold lift at 1. rewrite Hget.
  match goal with
  | |- context [bind (for_each _ _ (?x, ?f)) _ ?g] =>
      destruct (stages_loop_empty (call_block v) (enumerate repetitions) x f g)
        as (f' & Hloop)
  end.
  { rewrite enumerate_snd. exact Hreps. }
  erewrite bind_ok by exact Hloop.
  simpl fst.
  erewrite bind_ok by apply bn_relu_run.
  simpl int_shape. simpl tid.
  unfold bind at 1. unfold lift at 1. rewrite subscript_rows.
  unfold bind at 1. unfold lift at 1. rewrite subscript_cols.
  erewrite bind_ok by apply global_average_pool_run.
  erewrite bind_ok by (apply call_layer_ok; reflexivity).
  erewrite bind_ok by (apply call_layer_ok; reflexivity).
  unfold make_model.
  eexists. split; [reflexivity|]. simpl layers. simpl outputs.
  split; [|reflexivity].
  unfold same_len, conv_node, he_conv, bn_node, relu_node, CHANNEL_AXIS.
  simpl.
  replace (r + 2 - 1) with (r + 1) by lia.
  replace (c + 2 - 1) with (c + 1) by lia.
  replace ((r + 1) / 2 + 2 - 1) with ((r + 1) / 2 + 1) by lia.
  replace ((c + 1) / 2 + 2 - 1) with ((c + 1) / 2 + 1) by lia.
  reflexivity.
Qed.

Lemma resnet_without_blocks_witness :
  exists m,
    build (resnet module_globals [224; 224; 3] 7 (PyStr "ROW_AXIS") [0; -1])
    = Ok m
    /\ layers m
       = [mk_node (InputLayer [224; 224; 3]) [];
          mk_node (Conv2D (mk_conv 64 (7, 7) (2, 2) same "he_normal"
                             (l2 (1 # 10000)))) [0%nat];
          mk_node (BatchNormalization 3) [1%nat];
          mk_node (Activation "relu") [2%nat];
          mk_node (MaxPooling2D (3, 3) (2, 2) same) [3%nat];
          mk_node (BatchNormalization 3) [4%nat];
          mk_node (Activation "relu") [5%nat];
          mk_node (AveragePooling2D (Some 56, Some 56) (1, 1)) [6%nat];
          mk_node Flatten [7%nat];
          mk_node (Dense 7 "he_normal" "softmax") [8%nat]]
    /\ int_shape (outputs m) = [None; Some 7].
Proof.
  apply (resnet_without_blocks module_globals (PyStr "ROW_AXIS") (PyInt 1)
           [0; -1] 224 224 3 7).
  - repeat (apply Forall_cons_2; [lia |]). apply Forall_nil_2.
  - reflexivity.
  - lia.
  - lia.
Defined.

(** ** Block functions given by name *)

(** X4. A block function may be named instead of passed: when [name] is
    bound in the module to an object that is true and is not itself a
    string, [resnet] with the string [name] does what it does with that
    object, on every graph. *)
Theorem resnet_by_name (globals : gmap string pyval) (name : string)
    (v : pyval) (input_shape : list Z) (num_outputs : Z)
    (repetitions : list Z) (g : graph) :
  globals !! name = Some v -> truthy v = true -> is_string v = false ->
  resnet globals input_shape num_outputs (PyStr name) repetitions g
  = resnet globals input_shape num_outputs v repetitions g.
Proof.
  intros Hlook Htrue Hstr.
  assert (H1 : _get_block globals (PyStr name) = Ok v).
  { unfold _get_block. rewrite Hlook. simpl. rewrite Htrue. reflexivity. }
  assert (H2 : _get_block globals v = Ok v).
  { destruct v; try reflexivity. discriminate. }
  unfold resnet. rewrite H1, H2. reflexivity.
Qed.

Lemma resnet_by_name_witness :
  resnet module_globals [32; 32; 3] 10 (PyStr "basic_block") [2; 2; 2; 2] []
  = resnet_18 module_globals [32; 32; 3] 10 [].
Proof.
  apply (resnet_by_name module_globals "basic_block" (PyFunc F_basic_block)
           [32; 32; 3] 10 [2; 2; 2; 2] []); reflexivity.
Defined.

(** ** Keyword arguments of the convolution helpers *)

Lemma window_output_shape_no_key_error (s : shape) (k st : Z * Z)
    (pad : padding) (ch : dim) :
  window_output_shape s k st pad ch <> Err (Runtime "KeyError").
Proof.
  unfold window_output_shape, conv_output_length.
  destruct s as [| b [| r [| c [| ch' [| ? ?]]]]]; try discriminate.
  destruct r as [r |], c as [c |];
    destruct (fst st =? 0), (snd st =? 0); discriminate.
Qed.

Lemma conv_no_key_error (cfg : conv_config) (x : tensor) (g : graph) :
  call_layer (Conv2D cfg) [x] g <> Err (Runtime "KeyError").
Proof.
  unfold call_layer. simpl.
  pose proof (window_output_shape_no_key_error (int_shape x) (kernel_size cfg)
                (strides cfg) (conv_padding cfg) (Some (filters cfg))) as H.
  destruct (window_output_shape _ _ _ _ _); [discriminate | congruence].
Qed.

(** X5. [_bn_relu_conv] reads [filters] and [kernel_size] by subscript and
    the other keywords with a default, so it raises [KeyError] exactly when
    one of these two is missing; [_conv_bn_relu] has a default for every
    keyword and never raises it. *)
Theorem bn_relu_conv_key_error (p : conv_params) (x : tensor) (g : graph) :
  (_bn_relu_conv p x g = Err (Runtime "KeyError")
   <-> kw_filters p = None \/ kw_kernel_size p = None)
  /\ _conv_bn_relu p x g <> Err (Runtime "KeyError").
Proof.
  split.
  - unfold _bn_relu_conv.
    destruct (kw_filters p) as [f |]; [| split; [auto | reflexivity]].
    destruct (kw_kernel_size p) as [ks |]; [| split; [auto | reflexivity]].
    simpl getitem.
    unfold bind at 1. unfold ret at 1.
    unfold bind at 1. unfold ret at 1.
    erewrite bind_ok by apply bn_relu_run.
    split.
    + intros H. exfalso. eapply conv_no_key_error. exact H.
    + intros [H | H]; discriminate.
  - unfold _conv_bn_relu.
    unfold bind.
    match goal with
    | |- context [call_layer (Conv2D ?cfg) [x] g] =>
        pose proof (conv_no_key_error cfg x g) as H;
        destruct (call_layer (Conv2D cfg) [x] g) as [[y g'] |] eqn:E
    end.
    + rewrite bn_relu_run. discriminate.
    + congruence.
Qed.

(** ** What [_shortcut] needs *)

(** X6. [_shortcut] divides the sizes of its operands, so it returns only
    when the rows and columns of both are known integers and those of the
    residual are not zero; it then appends the merge alone, fed by the
    input itself, or a 1x1 'valid' convolution of the input with as many
    filters as the residual has channels, followed by the merge. *)
Theorem shortcut_needs_static_sizes (input residual y : tensor) (g g' : graph) :
  _shortcut input residual g = Ok (y, g') ->
  exists r1 c1 r2 c2,
    int_shape input !! 1%nat = Some (Some r1)
    /\ int_shape input !! 2%nat = Some (Some c1)
    /\ int_shape residual !! 1%nat = Some (Some r2)
    /\ int_shape residual !! 2%nat = Some (Some c2)
    /\ r2 <> 0 /\ c2 <> 0
    /\ tid y = (length g' - 1)%nat
    /\ (g' = g ++ [mk_node Add [tid input; tid residual]]
        \/ exists n,
             int_shape residual !! 3%nat = Some (Some n)
             /\ g' = g ++ [mk_node
                             (Conv2D (mk_conv n (1, 1)
                                        (round_half_even_div r1 r2,
                                         round_half_even_div c1 c2)
                                        valid "he_normal" (l2 (1 # 10000))))
                             [tid input];
                           mk_node Add [length g; tid residual]]).
Proof.
  unfold _shortcut, subscript, ROW_AXIS, COL_AXIS, CHANNEL_AXIS.
  change (Z.to_nat 1) with 1%nat. change (Z.to_nat 2) with 2%nat.
  change (Z.to_nat 3) with 3%nat.
  destruct (int_shape input !! 1%nat) as [[r1 |] |] eqn:Hr1;
    destruct (int_shape residual !! 1%nat) as [[r2 |] |] eqn:Hr2;
    try (intros H; discriminate H).
  unfold bind at 1, lift at 1. unfold bind at 1, lift at 1.
  unfold bind at 1, lift at 1. unfold int_round_div at 1.
  destruct (Z.eqb_spec r2 0) as [| Hr2nz]; [intros H; discriminate H|].
  destruct (int_shape input !! 2%nat) as [[c1 |] |] eqn:Hc1;
    destruct (int_shape residual !! 2%nat) as [[c2 |] |] eqn:Hc2;
    try (intros H; discriminate H).
  unfold bind at 1, lift at 1. unfold bind at 1, lift at 1.
  unfold bind at 1, lift at 1. unfold int_round_div at 1.
  destruct (Z.eqb_spec c2 0) as [| Hc2nz]; [intros H; discriminate H|].
  destruct (int_shape input !! 3%nat) as [ch1 |] eqn:Hch1;
    [| intros H; discriminate H].
  destruct (int_shape residual !! 3%nat) as [ch2 |] eqn:Hch2;
    [| intros H; discriminate H].
  unfold bind at 1, lift at 1. unfold bind at 1, lift at 1.
  intros H.
  exists r1, c1, r2, c2. repeat (split; [first [reflexivity | assumption]|]).
  unfold bind in H.
  destruct ((1 <? round_half_even_div r1 r2)
            || (1 <? round_half_even_div c1 c2)
            || negb (bool_decide (ch1 = ch2))).
  - destruct ch2 as [n |]; [| discriminate H].
    unfold call_layer at 1 in H.
    destruct (compute_output_shape _ _) as [s |]; [| discriminate H].
    unfold add, call_layer in H.
    destruct (compute_output_shape _ _) as [s' |]; [| discriminate H].
    injection H as <- <-.
    rewrite !length_app. simpl. split; [lia|].
    right. exists n. split; [reflexivity|].
    rewrite <- app_assoc. reflexivity.
  - unfold ret, add, call_layer in H.
    destruct (compute_output_shape _ _) as [s' |]; [| discriminate H].
    injection H as <- <-.
    rewrite !length_app. simpl. split; [lia|].
    left. reflexivity.
Qed.

Lemma shortcut_needs_static_sizes_witness :
  exists r1 c1 r2 c2,
    [None; Some 56; Some 56; Some 64] !! 1%nat = Some (Some r1)
    /\ [None; Some 56; Some 56; Some 64] !! 2%nat = Some (Some c1)
    /\ [None; Some 28; Some 28; Some 128] !! 1%nat = Some (Some r2)
    /\ [None; Some 28; Some 28; Some 128] !! 2%nat = Some (Some c2)
    /\ r2 <> 0 /\ c2 <> 0.
Proof.
  destruct (shortcut_needs_static_sizes
              (mk_tensor 0 [None; Some 56; Some 56; Some 64])
              (mk_tensor 1 [None; Some 28; Some 28; Some 128])
              (mk_tensor 3 [None; Some 28; Some 28; Some 128])
              [mk_node (InputLayer [56; 56; 64]) [];
               mk_node (Conv2D (mk_conv 128 (3, 3) (2, 2) same "he_normal"
                                  (l2 (1 # 10000)))) [0%nat]]
              [mk_node (InputLayer [56; 56; 64]) [];
               mk_node (Conv2D (mk_conv 128 (3, 3) (2, 2) same "he_normal"
                                  (l2 (1 # 10000)))) [0%nat];
               mk_node (Conv2D (mk_conv 128 (1, 1) (2, 2) valid "he_normal"
                                  (l2 (1 # 10000)))) [0%nat];
               mk_node Add [2%nat; 1%nat]]
              eq_refl)
    as (r1 & c1 & r2 & c2 & H1 & H2 & H3 & H4 & H5 & H6 & _).
  exists r1, c1, r2, c2. repeat split; assumption.
Defined.

(** ** The printed report, whatever the model returns *)






Lemma first_maximum_unique (l : list Q) (i j : nat) :
  first_maximum l i -> first_maximum l j -> i = j.
Proof.
  intros (x & Hx & Hmaxx & Hfirstx) (y & Hy & Hmaxy & Hfirsty).
  destruct (Nat.lt_trichotomy i j) as [Hlt | [Heq | Hgt]]; [| exact Heq |].
  - exfalso. pose proof (Hfirsty i x Hlt Hx) as H1.
    assert (H2 : (y <= x)%Q).
    { apply Hmaxx. apply list_elem_of_In. eapply list_elem_of_lookup_2.
      exact Hy. }
    apply (Qlt_not_le _ _ H1 H2).
  - exfalso. pose proof (Hfirstx j y Hgt Hy) as H1.
    assert (H2 : (x <= y)%Q).
    { apply Hmaxy. apply list_elem_of_In. eapply list_elem_of_lookup_2.
      exact Hx. }
    apply (Qlt_not_le _ _ H1 H2).
Qed.

Lemma argmax_first_maximum (l : list Q) (k : nat) :
  argmax l = Ok k <-> first_maximum l k.
Proof.
  destruct l as [| x l].
  - split; [discriminate|]. intros (y & Hy & _). discriminate.
  - destruct (argmax_spec x l) as (k' & y & Hk & Hy & Hmax & Hfirst).
    assert (Hfm : first_maximum (x :: l) k') by (exists y; auto).
    split.
    + intros H. rewrite Hk in H. injection H as <-. exact Hfm.
    + intros H. rewrite Hk. f_equal.
      apply (first_maximum_unique (x :: l)); assumption.
Qed.

(** X8. [main] fails after the prediction in exactly two ways: with the
    [ValueError] of [np.argmax] when the model returns no score, and with
    the [IndexError] of [labels[...]] when the first largest score stands
    at position 7 or later; in every other case it prints the label at the
    position of the first largest score. *)
Theorem report_outcomes (pred : list (list Q)) :
  (main_report pred = Err (Runtime "ValueError") <-> concat pred = [])
  /\ (main_report pred = Err (Runtime "IndexError")
      <-> exists i, first_maximum (concat pred) i /\ (7 <= i)%nat)
  /\ (forall label,
        (exists rep, main_report pred = Ok rep /\ service rep = label)
        <-> exists i, first_maximum (concat pred) i
                      /\ labels !! i = Some label)
  /\ (forall e, main_report pred = Err e ->
                e = Runtime "ValueError" \/ e = Runtime "IndexError").
Proof.
  unfold main_report.
  destruct (concat pred) as [| x l] eqn:Hpred.
  - simpl. split; [split; reflexivity || auto|].
    split; [split; [discriminate|] |].
    { intros (i & (y & Hy & _) & _). discriminate. }
    split.
    + intros label. split.
      * intros (rep & H & _). discriminate.
      * intros (i & (y & Hy & _) & _). discriminate.
    + intros e H. injection H as <-. left. reflexivity.
  - destruct (argmax_spec x l) as (k & y & Hk & Hy & Hmax & Hfirst).
    assert (Hfm : first_maximum (x :: l) k) by (exists y; auto).
    rewrite Hk. simpl rbind.
    destruct (labels !! k) as [label |] eqn:Hlabel.
    + split; [split; discriminate|].
      split.
      { split; [discriminate|]. intros (i & Hi & Hge).
        rewrite (first_maximum_unique _ _ _ Hfm Hi) in Hlabel.
        apply lookup_lt_Some in Hlabel. simpl in Hlabel. lia. }
      split; [| discriminate].
      intros label'. split.
      * intros (rep & H & Hs). injection H as <-. simpl in Hs. subst label'.
        exists k. split; assumption.
      * intros (i & Hi & Hl).
        rewrite <- (first_maximum_unique _ _ _ Hfm Hi) in Hl.
        eexists. split; [reflexivity|]. simpl. congruence.
    + split; [split; discriminate|].
      split.
      { split; [| reflexivity]. intros _. exists k. split; [exact Hfm|].
        apply lookup_ge_None in Hlabel. simpl in Hlabel. exact Hlabel. }
      split.
      * intros label'. split.
        -- intros (rep & H & _). discriminate.
        -- intros (i & Hi & Hl).
           rewrite <- (first_maximum_unique _ _ _ Hfm Hi) in Hl. congruence.
      * intros e H. injection H as <-. right. reflexivity.
Qed.

(** ** A run of binarize-one.py *)

Lemma binarize_three_channels
    (addWeighted : plane -> Q -> plane -> Q -> Q -> plane)
    (adaptiveThreshold :
       plane -> Z -> adaptive_method -> threshold_type -> Z -> Z -> plane)
    (img : image) :
  three_channels img ->
  binarize addWeighted adaptiveThreshold img
  = Ok (adaptiveThreshold
          (addWeighted (map (map (fun px => nth 2 px Byte.x00)) img) (1 # 2)
             (map (map (fun px => nth 1 px Byte.x00)) img) (1 # 2) 0%Q)
          255 ADAPTIVE_THRESH_GAUSSIAN_C THRESH_BINARY_INV 9 10).
Proof.
  intros Himg.
  match goal with
  | |- _ = Ok ?t => rewrite <- (opening_1x1 t)
  end.
  unfold binarize.
  rewrite (slice_channel_ok img 1 (three_channels_lt img 1 ltac:(lia) Himg)).
  rewrite (slice_channel_ok img 2 (three_channels_lt img 2 ltac:(lia) Himg)).
  reflexivity.
Qed.

Lemma prefixed_name_differs (path : string) : "b-" +:+ path <> path.
Proof.
  intros H. apply (f_equal String.length) in H.
  change (String.length ("b-" +:+ path)) with (S (S (String.length path)))
    in H.
  lia.
Qed.

(** X9. A run of the script on a readable file reaches [cv2.imwrite] once,
    with the name of the input prefixed with [b-] -- a name different from
    the input's -- and the thresholded blend of the red and green channels
    of the image read.  The run ends as that call ends: it returns when
    [imwrite] returns, whatever flag it returns, and it fails with the
    error of [imwrite] when that raises; what [imwrite] would do with
    other arguments does not matter.  [cv2.imread] with [IMREAD_COLOR]
    decodes every file it can read to three channels. *)
Theorem binarize_one_writes_beside_input
    (addWeighted : plane -> Q -> plane -> Q -> Q -> plane)
    (adaptiveThreshold :
       plane -> Z -> adaptive_method -> threshold_type -> Z -> Z -> plane)
    (imread : string -> option image)
    (imwrite : string -> plane -> result bool)
    (args : list string) (path : string) (img : image) :
  (forall p i, imread p = Some i -> three_channels i) ->
  args !! 1%nat = Some path ->
  imread path = Some img ->
  let b_img :=
    adaptiveThreshold
      (addWeighted (map (map (fun px => nth 2 px Byte.x00)) img) (1 # 2)
         (map (map (fun px => nth 1 px Byte.x00)) img) (1 # 2) 0%Q)
      255 ADAPTIVE_THRESH_GAUSSIAN_C THRESH_BINARY_INV 9 10 in
  binarize addWeighted adaptiveThreshold img = Ok b_img
  /\ "b-" +:+ path <> path
  /\ (forall flag,
        imwrite ("b-" +:+ path) b_img = Ok flag ->
        binarize_one.main addWeighted adaptiveThreshold imread imwrite args
        = Ok (mk_written ("b-" +:+ path) b_img))
  /\ (forall e,
        imwrite ("b-" +:+ path) b_img = Err e ->
        binarize_one.main addWeighted adaptiveThreshold imread imwrite args
        = Err e)
  /\ (forall imwrite' : string -> plane -> result bool,
        imwrite' ("b-" +:+ path) b_img = imwrite ("b-" +:+ path) b_img ->
        binarize_one.main addWeighted adaptiveThreshold imread imwrite' args
        = binarize_one.main addWeighted adaptiveThreshold imread imwrite
            args).
Proof.
  intros Hread Hargs Himg b_img.
  pose proof (binarize_three_channels addWeighted adaptiveThreshold img
                (Hread path img Himg)) as Hb.
  fold b_img in Hb.
  split; [exact Hb|]. split; [apply (prefixed_name_differs path)|].
  unfold binarize_one.main. rewrite Hargs, Himg, Hb. cbn [rbind].
  split; [| split].
  - intros flag Hw. rewrite Hw. reflexivity.
  - intros e Hw. rewrite Hw. reflexivity.
  - intros imwrite' Hw. rewrite Hw. reflexivity.
Qed.

Lemma sample_imread_three_channels (p : string) (i : image) :
  sample_imread p = Some i -> three_channels i.
Proof.
  unfold sample_imread.
  destruct (String.eqb p "shot.png" || String.eqb p "shot"); [| discriminate].
  intros H. injection H as <-. exact sample_image_three_channels.
Qed.

Lemma binarize_one_writes_beside_input_witness :
  binarize_one.main sample_addWeighted sample_adaptiveThreshold sample_imread
    sample_imwrite ["binarize-one.py"; "shot.png"]
  = Ok (mk_written "b-shot.png" [[Byte.xff; Byte.x00]])
  /\ binarize_one.main sample_addWeighted sample_adaptiveThreshold
       sample_imread sample_imwrite ["binarize-one.py"; "shot"]
     = Err (Runtime "cv2.error").
Proof.
  split.
  - destruct (binarize_one_writes_beside_input sample_addWeighted
                sample_adaptiveThreshold sample_imread sample_imwrite
                ["binarize-one.py"; "shot.png"] "shot.png" sample_image
                sample_imread_three_channels eq_refl eq_refl)
      as (_ & _ & Hok & _ & _).
    exact (Hok true eq_refl).
  - destruct (binarize_one_writes_beside_input sample_addWeighted
                sample_adaptiveThreshold sample_imread sample_imwrite
                ["binarize-one.py"; "shot"] "shot" sample_image
                sample_imread_three_channels eq_refl eq_refl)
      as (_ & _ & _ & Herr & _).
    exact (Herr (Runtime "cv2.error") eq_refl).
Defined.

(** X10. The script stops with an error in exactly three situations, given
    that [cv2.imread] decodes to three channels: without a file name on the
    command line ([args[1]] is an [IndexError]), with a file that cannot be
    read ([imread] returns [None], which [binarize] cannot subscript), and
    when [cv2.imwrite], called on the prefixed name and the binarized
    image, raises; the error is then the one [imwrite] raised.  In the
    first two [imwrite] is not reached. *)
Theorem binarize_one_failures
    (addWeighted : plane -> Q -> plane -> Q -> Q -> plane)
    (adaptiveThreshold :
       plane -> Z -> adaptive_method -> threshold_type -> Z -> Z -> plane)
    (imread : string -> option image)
    (imwrite : string -> plane -> result bool)
    (args : list string) (e : exn) :
  (forall p i, imread p = Some i -> three_channels i) ->
  binarize_one.main addWeighted adaptiveThreshold imread imwrite args = Err e
  <-> ((length args < 2)%nat /\ e = Runtime "IndexError")
      \/ (exists path, args !! 1%nat = Some path /\ imread path = None
                       /\ e = Runtime "TypeError")
      \/ (exists path img b_img,
            args !! 1%nat = Some path /\ imread path = Some img
            /\ binarize addWeighted adaptiveThreshold img = Ok b_img
            /\ imwrite ("b-" +:+ path) b_img = Err e).
Proof.
  intros Hread. unfold binarize_one.main.
  destruct (args !! 1%nat) as [path |] eqn:Hargs.
  - destruct (imread path) as [img |] eqn:Himg.
    + pose proof (binarize_three_channels addWeighted adaptiveThreshold img
                    (Hread path img Himg)) as Hb.
      rewrite Hb. cbn [rbind].
      split.
      * intros H. right. right. exists path, img. eexists.
        split; [reflexivity|]. split; [exact Himg|]. split; [exact Hb|].
        destruct (imwrite _ _) as [flag | e']; [discriminate H|].
        injection H as <-. reflexivity.
      * intros [[Hlen _] | [(p & Hp & Hnone & _)
                           | (p & i & b & Hp & Hi & Hbi & Hw)]].
        -- apply lookup_lt_Some in Hargs. lia.
        -- congruence.
        -- injection Hp as <-. rewrite Himg in Hi. injection Hi as <-.
           rewrite Hb in Hbi. injection Hbi as <-.
           rewrite Hw. reflexivity.
    + split.
      * intros H. injection H as <-. right. left. exists path. auto.
      * intros [[Hlen _] | [(p & Hp & Hnone & ->)
                           | (p & i & b & Hp & Hi & _)]].
        -- apply lookup_lt_Some in Hargs. lia.
        -- reflexivity.
        -- congruence.
  - split.
    + intros H. injection H as <-. left. split; [| reflexivity].
      apply lookup_ge_None in Hargs. lia.
    + intros [[_ ->] | [(p & Hp & _) | (p & i & b & Hp & _)]];
        [reflexivity | discriminate | discriminate].
Qed.

Lemma binarize_one_failures_witness :
  binarize_one.main sample_addWeighted sample_adaptiveThreshold sample_imread
    sample_imwrite ["binarize-one.py"] = Err (Runtime "IndexError")
  /\ binarize_one.main sample_addWeighted sample_adaptiveThreshold
       sample_imread sample_imwrite ["binarize-one.py"; "none.png"]
     = Err (Runtime "TypeError")
  /\ binarize_one.main sample_addWeighted sample_adaptiveThreshold
       sample_imread sample_imwrite ["binarize-one.py"; "shot"]
     = Err (Runtime "cv2.error").
Proof.
  split; [| split].
  - apply (binarize_one_failures sample_addWeighted sample_adaptiveThreshold
             sample_imread sample_imwrite ["binarize-one.py"]
             (Runtime "IndexError") sample_imread_three_channels).
    left. split; [simpl; lia | reflexivity].
  - apply (binarize_one_failures sample_addWeighted sample_adaptiveThreshold
             sample_imread sample_imwrite ["binarize-one.py"; "none.png"]
             (Runtime "TypeError") sample_imread_three_channels).
    right. left. exists "none.png". repeat split; reflexivity.
  - apply (binarize_one_failures sample_addWeighted sample_adaptiveThreshold
             sample_imread sample_imwrite ["binarize-one.py"; "shot"]
             (Runtime "cv2.error") sample_imread_three_channels).
    right. right. exists "shot", sample_image, [[Byte.xff; Byte.x00]].
    repeat split; reflexivity.
Defined.

(** ** Counting the layers of a network *)

Lemma count_layers_app (p : layer -> bool) (g1 g2 : graph) :
  count_layers p (g1 ++ g2) = (count_layers p g1 + count_layers p g2)%nat.
Proof. unfold count_layers. rewrite List.filter_app, length_app. reflexivity. Qed.

Lemma pool_sizes_app (g1 g2 : graph) :
  pool_sizes (g1 ++ g2) = pool_sizes g1 ++ pool_sizes g2.
Proof. unfold pool_sizes. apply flat_map_app. Qed.

Lemma house_style_app (g1 g2 : graph) (n1 n2 n : nat) :
  house_style g1 n1 -> house_style g2 n2 -> n = (n1 + n2)%nat ->
  house_style (g1 ++ g2) n.
Proof.
  intros (Hb1 & Hr1 & Hf1) (Hb2 & Hr2 & Hf2) ->. unfold house_style.
  rewrite !count_layers_app, Hb1, Hb2, Hr1, Hr2.
  split; [reflexivity|]. split; [reflexivity|].
  apply Forall_app. split; assumption.
Qed.

Lemma house_style_nil : house_style [] 0.
Proof. repeat split. apply Forall_nil_2. Qed.

Lemma same_len_same_len (n a b : Z) :
  0 < a -> 0 < b -> same_len (same_len n a) b = same_len n (a * b).
Proof.
  intros Ha Hb. unfold same_len.
  replace ((n + a - 1) / a + b - 1) with ((n + a * b - 1) / a).
  - apply Z.div_div; lia.
  - replace (n + a * b - 1) with (n + a - 1 + (b - 1) * a) by lia.
    rewrite Z.div_add by lia. lia.
Qed.

Lemma block_ratio_same_len (n s : Z) :
  0 < n -> s = 1 \/ s = 2 -> block_ratio n s <= 1 <-> same_len n s = n.
Proof.
  intros Hn Hs. unfold block_ratio, same_len.
  destruct Hs as [-> | ->].
  - replace (n + 1 - 1) with n by lia. rewrite Z.div_1_r.
    destruct (n =? 1); lia.
  - destruct (Z.eqb_spec n 1) as [-> | Hn1].
    + split; [reflexivity | lia].
    + assert ((n + 2 - 1) / 2 < n) by (apply Z.div_lt_upper_bound; lia).
      lia.
Qed.

(** The shortcut of a block is the identity exactly when the block returns
    the shape it was given. *)
Lemma identity_shortcut_same_shape (b : dim) (r c ch f s : Z) :
  0 < r -> 0 < c -> s = 1 \/ s = 2 ->
  identity_shortcut (block_ratio r s) (block_ratio c s) ch f = true
  <-> [b; Some (same_len r s); Some (same_len c s); Some f]
      = [b; Some r; Some c; Some ch].
Proof.
  intros Hr Hc Hs. unfold identity_shortcut.
  rewrite !andb_true_iff, !Z.leb_le, Z.eqb_eq.
  rewrite (block_ratio_same_len r s Hr Hs), (block_ratio_same_len c s Hc Hs).
  split.
  - intros [[-> ->] ->]. reflexivity.
  - intros H. injection H as H1 H2 H3. auto.
Qed.

Ltac block_census :=
  repeat rewrite <- app_assoc;
  eexists _, _; split; [reflexivity |];
  split; [reflexivity |];
  unfold shortcut_nodes;
  match goal with
  | |- context [identity_shortcut ?a ?b ?c ?d] =>
      destruct (identity_shortcut a b c d)
  end;
  repeat split; try reflexivity;
  repeat (apply Forall_cons_2; [reflexivity |]); apply Forall_nil_2.

Lemma basic_block_census (g : graph) (k : nat) (b : dim) (r c ch f s : Z)
    (first : bool) :
  0 < r -> 0 < c -> s = 1 \/ s = 2 ->
  exists y delta,
    basic_block f (s, s) first (mk_tensor k [b; Some r; Some c; Some ch]) g
    = Ok (y, g ++ delta)
    /\ int_shape y = [b; Some (same_len r s); Some (same_len c s); Some f]
    /\ count_layers is_add delta = 1%nat
    /\ count_layers is_conv delta
       = (2 + if identity_shortcut (block_ratio r s) (block_ratio c s) ch f
              then 0 else 1)%nat
    /\ pool_sizes delta = []
    /\ house_style delta (if first then 1 else 2).
Proof.
  intros Hr Hc Hs.
  assert (Hs0 : s <> 0) by lia.
  unfold basic_block. destruct first.
  - erewrite bind_ok
      by (apply (conv_same_run (he_conv f (3, 3) (s, s) same));
          first [reflexivity | exact Hs0]).
    erewrite bind_ok by (apply bn_relu_conv_run; simpl; lia).
    simpl default. simpl fst. simpl snd. simpl filters.
    rewrite !same_len_1.
    rewrite shortcut_block_run by assumption.
    block_census.
  - erewrite bind_ok by (apply bn_relu_conv_run; simpl; lia).
    erewrite bind_ok by (apply bn_relu_conv_run; simpl; lia).
    simpl default. simpl fst. simpl snd.
    rewrite !same_len_1.
    rewrite shortcut_block_run by assumption.
    block_census.
Qed.

Lemma bottleneck_census (g : graph) (k : nat) (b : dim) (r c ch f s : Z)
    (first : bool) :
  0 < r -> 0 < c -> s = 1 \/ s = 2 ->
  exists y delta,
    bottleneck f (s, s) first (mk_tensor k [b; Some r; Some c; Some ch]) g
    = Ok (y, g ++ delta)
    /\ int_shape y
       = [b; Some (same_len r s); Some (same_len c s); Some (f * 4)]
    /\ count_layers is_add delta = 1%nat
    /\ count_layers is_conv delta
       = (3 + if identity_shortcut (block_ratio r s) (block_ratio c s) ch
                   (f * 4)
              then 0 else 1)%nat
    /\ pool_sizes delta = []
    /\ house_style delta (if first then 2 else 3).
Proof.
  intros Hr Hc Hs.
  assert (Hs0 : s <> 0) by lia.
  unfold bottleneck. destruct first.
  - erewrite bind_ok
      by (apply (conv_same_run (he_conv f (1, 1) (s, s) same));
          first [reflexivity | exact Hs0]).
    erewrite bind_ok by (apply bn_relu_conv_run; simpl; lia).
    erewrite bind_ok by (apply bn_relu_conv_run; simpl; lia).
    simpl default. simpl fst. simpl snd. simpl filters.
    rewrite !same_len_1.
    rewrite shortcut_block_run by assumption.
    block_census.
  - erewrite bind_ok by (apply bn_relu_conv_run; simpl; lia).
    erewrite bind_ok by (apply bn_relu_conv_run; simpl; lia).
    erewrite bind_ok by (apply bn_relu_conv_run; simpl; lia).
    simpl default. simpl fst. simpl snd.
    rewrite !same_len_1.
    rewrite shortcut_block_run by assumption.
    block_census.
Qed.

Lemma call_block_census (fn : pyfun) (g : graph) (k : nat) (b : dim)
    (r c ch f s : Z) (first : bool) :
  is_block fn -> 0 < r -> 0 < c -> s = 1 \/ s = 2 ->
  exists y delta,
    call_block (PyFunc fn) f (s, s) first
      (mk_tensor k [b; Some r; Some c; Some ch]) g
    = Ok (y, g ++ delta)
    /\ int_shape y
       = [b; Some (same_len r s); Some (same_len c s);
          Some (out_channels fn f)]
    /\ count_layers is_add delta = 1%nat
    /\ count_layers is_conv delta
       = (convs_per_block fn
          + if identity_shortcut (block_ratio r s) (block_ratio c s) ch
                 (out_channels fn f)
            then 0 else 1)%nat
    /\ pool_sizes delta = []
    /\ house_style delta (convs_per_block fn - if first then 1 else 0).
Proof.
  intros [-> | ->] Hr Hc Hs; simpl call_block.
  - destruct (basic_block_census g k b r c ch f s first Hr Hc Hs)
      as (y & delta & H1 & H2 & H3 & H4 & H5 & H6).
    exists y, delta. repeat (split; [assumption |]).
    destruct first; exact H6.
  - destruct (bottleneck_census g k b r c ch f s first Hr Hc Hs)
      as (y & delta & H1 & H2 & H3 & H4 & H5 & H6).
    exists y, delta. repeat (split; [assumption |]).
    destruct first; exact H6.
Qed.

Lemma identity_shortcut_stride_1 (r c ch : Z) :
  identity_shortcut (block_ratio r 1) (block_ratio c 1) ch ch = true.
Proof.
  unfold identity_shortcut, block_ratio.
  destruct (r =? 1), (c =? 1); simpl; apply Z.eqb_refl.
Qed.

(** The blocks of a stage after its first one keep the shape and use the
    identity shortcut. *)
Lemma later_blocks_census (fn : pyfun) (f : Z) (first : bool) (b : dim)
    (r c : Z) (idx : list Z) :
  is_block fn -> 0 < r -> 0 < c ->
  Forall (fun i => i <> 0) idx ->
  forall (k : nat) (g : graph),
  exists y delta,
    for_each idx
      (fun i input =>
         let init_strides :=
           if (i =? 0) && negb first then (2, 2) else (1, 1) in
         call_block (PyFunc fn) f init_strides (first && (i =? 0)) input)
      (mk_tensor k [b; Some r; Some c; Some (out_channels fn f)]) g
    = Ok (y, g ++ delta)
    /\ int_shape y = [b; Some r; Some c; Some (out_channels fn f)]
    /\ count_layers is_add delta = length idx
    /\ count_layers is_conv delta = (convs_per_block fn * length idx)%nat
    /\ pool_sizes delta = []
    /\ house_style delta (convs_per_block fn * length idx).
Proof.
  intros Hfn Hr Hc Hidx.
  induction Hidx as [| i idx Hi Hidx IH]; intros k g.
  - exists (mk_tensor k [b; Some r; Some c; Some (out_channels fn f)]), [].
    simpl. rewrite app_nil_r, Nat.mul_0_r.
    repeat split; first [reflexivity | apply Forall_nil_2].
  - simpl for_each.
    destruct (Z.eqb_spec i 0) as [| _]; [contradiction|].
    simpl andb. rewrite andb_false_r.
    destruct (call_block_census fn g k b r c (out_channels fn f) f 1 false
                Hfn Hr Hc (or_introl eq_refl))
      as (y & d1 & Hrun & Hy & Ha & Hcv & Hp & Hh).
    erewrite bind_ok by exact Hrun.
    rewrite !same_len_1 in Hy. rewrite identity_shortcut_stride_1 in Hcv.
    destruct y as [k1 sh]. simpl in Hy. subst sh.
    destruct (IH k1 (g ++ d1))
      as (z & d2 & Hrun2 & Hz & Ha2 & Hcv2 & Hp2 & Hh2).
    exists z, (d1 ++ d2). rewrite app_assoc.
    split; [exact Hrun2|]. split; [exact Hz|].
    rewrite !count_layers_app, pool_sizes_app, Ha, Ha2, Hcv, Hcv2, Hp, Hp2.
    simpl length. repeat (split; [first [reflexivity | lia] |]).
    eapply house_style_app; [exact Hh | exact Hh2 | lia].
Qed.

Lemma py_range_succ (n : Z) :
  0 < n ->
  exists idx,
    py_range n = 0 :: idx /\ Forall (fun i => i <> 0) idx
    /\ S (length idx) = Z.to_nat n.
Proof.
  intros Hn. unfold py_range.
  destruct (Z.to_nat n) as [| m] eqn:E; [lia|].
  exists (map Z.of_nat (seq 1 m)). split; [reflexivity|]. split.
  - apply Forall_map. apply Forall_forall. intros i Hi.
    apply list_elem_of_In, in_seq in Hi. simpl. lia.
  - rewrite length_map, length_seq. reflexivity.
Qed.

(** A stage with at least one block: the first block takes the stride of
    the stage and decides on the shortcut, the others repeat the shape. *)
Lemma stage_census (fn : pyfun) (f repetitions : Z) (first : bool) (b : dim)
    (r c ch : Z) (k : nat) (g : graph) :
  is_block fn -> 0 < r -> 0 < c -> 0 < repetitions ->
  let s := if first then 1 else 2 in
  exists y delta,
    _residual_block (call_block (PyFunc fn)) f repetitions first
      (mk_tensor k [b; Some r; Some c; Some ch]) g
    = Ok (y, g ++ delta)
    /\ int_shape y
       = [b; Some (same_len r s); Some (same_len c s);
          Some (out_channels fn f)]
    /\ count_layers is_add delta = Z.to_nat repetitions
    /\ count_layers is_conv delta
       = (convs_per_block fn * Z.to_nat repetitions
          + if identity_shortcut (block_ratio r s) (block_ratio c s) ch
                 (out_channels fn f)
            then 0 else 1)%nat
    /\ pool_sizes delta = []
    /\ house_style delta
         (convs_per_block fn * Z.to_nat repetitions
          - if first then 1 else 0).
Proof.
  intros Hfn Hr Hc Hreps s.
  destruct (py_range_succ repetitions Hreps) as (idx & Hrange & Hidx & Hlen).
  unfold _residual_block. rewrite Hrange. cbn [for_each].
  assert (Hs : s = 1 \/ s = 2) by (subst s; destruct first; auto).
  assert (Hst : (if (0 =? 0) && negb first then (2, 2) else (1, 1)) = (s, s))
    by (subst s; destruct first; reflexivity).
  rewrite Hst.
  destruct (call_block_census fn g k b r c ch f s (first && (0 =? 0)) Hfn Hr
              Hc Hs)
    as (y & d1 & Hrun & Hy & Ha & Hcv & Hp & Hh).
  erewrite bind_ok by exact Hrun.
  destruct y as [k1 sh]. simpl in Hy. subst sh.
  assert (Hr' : 0 < same_len r s) by (apply same_len_pos; lia).
  assert (Hc' : 0 < same_len c s) by (apply same_len_pos; lia).
  destruct (later_blocks_census fn f first b (same_len r s) (same_len c s)
              idx Hfn Hr' Hc' Hidx k1 (g ++ d1))
    as (z & d2 & Hrun2 & Hz & Ha2 & Hcv2 & Hp2 & Hh2).
  exists z, (d1 ++ d2). rewrite app_assoc.
  split; [exact Hrun2|]. split; [exact Hz|].
  rewrite !count_layers_app, pool_sizes_app, Ha, Ha2, Hcv, Hcv2, Hp, Hp2.
  rewrite <- Hlen. repeat (split; [first [reflexivity | lia] |]).
  eapply house_style_app; [exact Hh | exact Hh2 |].
  change (0 =? 0) with true. rewrite andb_true_r.
  destruct Hfn as [-> | ->], first; simpl convs_per_block; lia.
Qed.

Lemma out_channels_ge (fn : pyfun) (f : Z) : 0 < f -> f <= out_channels fn f.
Proof. intros Hf. destruct fn; simpl; lia. Qed.

Lemma out_channels_double (fn : pyfun) (f : Z) :
  0 < f -> out_channels fn f < out_channels fn (f * 2).
Proof. intros Hf. destruct fn; simpl; lia. Qed.

Lemma first_stage_shortcut (fn : pyfun) (r c f : Z) :
  is_block fn -> 0 < f ->
  identity_shortcut (block_ratio r 1) (block_ratio c 1) f (out_channels fn f)
  = negb (is_bottleneck fn).
Proof.
  intros [-> | ->] Hf; simpl.
  - apply identity_shortcut_stride_1.
  - unfold identity_shortcut.
    destruct (Z.eqb_spec f (f * 4)); [lia|]. apply andb_false_r.
Qed.

Lemma later_stage_shortcut (sw sh ch out : Z) :
  ch < out -> identity_shortcut sw sh ch out = false.
Proof.
  intros H. unfold identity_shortcut.
  destruct (Z.eqb_spec ch out); [lia|]. apply andb_false_r.
Qed.

Lemma stage_halves_cons (i r : Z) (stages : list (Z * Z)) :
  length (List.filter stage_halves ((i, r) :: stages))
  = ((if ((0 <? r) && negb (i =? 0))%Z then 1 else 0)
     + length (List.filter stage_halves stages))%nat.
Proof.
  simpl. unfold stage_halves at 1. simpl fst. simpl snd.
  destruct ((0 <? r) && negb (i =? 0)); reflexivity.
Qed.

Lemma stage_projects_cons (fn : pyfun) (i r : Z) (stages : list (Z * Z)) :
  length (List.filter (stage_projects fn) ((i, r) :: stages))
  = ((if ((0 <? r) && (negb (i =? 0) || is_bottleneck fn))%Z then 1 else 0)
     + length (List.filter (stage_projects fn) stages))%nat.
Proof.
  simpl. unfold stage_projects at 1. simpl fst. simpl snd.
  destruct ((0 <? r) && (negb (i =? 0) || is_bottleneck fn)); reflexivity.
Qed.

Lemma stage_opens_cons (i r : Z) (stages : list (Z * Z)) :
  length (List.filter stage_opens ((i, r) :: stages))
  = ((if ((0 <? r) && (i =? 0))%Z then 1 else 0)
     + length (List.filter stage_opens stages))%nat.
Proof.
  simpl. unfold stage_opens at 1. simpl fst. simpl snd.
  destruct ((0 <? r) && (i =? 0)); reflexivity.
Qed.

Lemma stage_opens_later (k : nat) (reps : list Z) :
  (0 < k)%nat ->
  length (List.filter stage_opens
            (combine (map Z.of_nat (seq k (length reps))) reps)) = 0%nat.
Proof.
  revert k. induction reps as [| x reps IH]; intros k Hk; [reflexivity|].
  change (combine (map Z.of_nat (seq k (length (x :: reps)))) (x :: reps))
    with ((Z.of_nat k, x)
          :: combine (map Z.of_nat (seq (S k) (length reps))) reps).
  rewrite stage_opens_cons, (IH (S k)) by lia.
  destruct (Z.eqb_spec (Z.of_nat k) 0) as [E | _]; [lia|].
  rewrite andb_false_r. reflexivity.
Qed.

(** The loop over the stages, started at stage [k0] with [f] filters on a
    tensor of [ch] channels: at the first stage the channels are the
    filters (the stem produces both), later the channels are fewer than
    the stage will return. *)
Lemma stages_census (fn : pyfun) (b : dim) (repetitions : list Z) :
  is_block fn ->
  forall (k0 : nat) (f r c ch : Z) (k : nat) (g : graph),
  0 < f -> 0 < r -> 0 < c ->
  (k0 = 0%nat /\ ch = f) \/ ((0 < k0)%nat /\ ch < out_channels fn f) ->
  let stages := combine (map Z.of_nat (seq k0 (length repetitions)))
                  repetitions in
  let h := Z.of_nat (length (List.filter stage_halves stages)) in
  exists y f' delta ch',
    for_each stages
      (fun '(i, r) '(block, filters) =>
         block <- _residual_block (call_block (PyFunc fn)) filters r (i =? 0)
                    block ;;
         ret (block, filters * 2))
      (mk_tensor k [b; Some r; Some c; Some ch], f) g
    = Ok ((y, f'), g ++ delta)
    /\ int_shape y
       = [b; Some (same_len r (2 ^ h)); Some (same_len c (2 ^ h)); Some ch']
    /\ count_layers is_add delta = total_blocks repetitions
    /\ count_layers is_conv delta
       = (convs_per_block fn * total_blocks repetitions
          + length (List.filter (stage_projects fn) stages))%nat
    /\ pool_sizes delta = []
    /\ house_style delta
         (convs_per_block fn * total_blocks repetitions
          - length (List.filter stage_opens stages)).
Proof.
  intros Hfn.
  induction repetitions as [| rr reps IH];
    intros k0 f r c ch k g Hf Hr Hc Hinv stages h.
  - subst stages h. simpl.
    exists (mk_tensor k [b; Some r; Some c; Some ch]), f, [], ch.
    rewrite app_nil_r, !same_len_1, Nat.mul_0_r.
    repeat split; first [reflexivity | apply Forall_nil_2].
  - subst stages h.
    change (combine (map Z.of_nat (seq k0 (length (rr :: reps)))) (rr :: reps))
      with ((Z.of_nat k0, rr)
            :: combine (map Z.of_nat (seq (S k0) (length reps))) reps).
    set (stages := combine (map Z.of_nat (seq (S k0) (length reps))) reps).
    rewrite stage_halves_cons, stage_projects_cons, stage_opens_cons.
    change (total_blocks (rr :: reps))
      with (Z.to_nat rr + total_blocks reps)%nat.
    cbn [for_each].
    destruct (Z.ltb_spec 0 rr) as [Hpos | Hnonpos]; simpl andb.
    + (* the stage has blocks *)
      destruct (stage_census fn f rr (Z.of_nat k0 =? 0) b r c ch k g Hfn Hr
                  Hc Hpos)
        as (y & d1 & Hrun & Hy & Ha & Hcv & Hp & Hh).
      unfold bind at 1. unfold bind at 1. rewrite Hrun. unfold ret at 1.
      destruct y as [k1 sh]. simpl in Hy. subst sh.
      set (s := if Z.of_nat k0 =? 0 then 1 else 2) in *.
      assert (Hs : 0 < s) by (subst s; destruct (Z.of_nat k0 =? 0); lia).
      destruct (IH (S k0) (f * 2) (same_len r s) (same_len c s)
                  (out_channels fn f) k1 (g ++ d1))
        as (z & f' & d2 & ch' & Hrun2 & Hz & Ha2 & Hcv2 & Hp2 & Hh2).
      { lia. }
      { apply same_len_pos; lia. }
      { apply same_len_pos; lia. }
      { right. split; [lia|]. apply out_channels_double. exact Hf. }
      fold stages in Hrun2, Hz, Hcv2, Hh2.
      pose proof (stage_opens_later (S k0) reps ltac:(lia)) as Hopens.
      fold stages in Hopens.
      exists z, f', (d1 ++ d2), ch'. rewrite app_assoc.
      split; [exact Hrun2|].
      rewrite !count_layers_app, pool_sizes_app, Ha, Ha2, Hcv, Hcv2, Hp, Hp2.
      destruct Hinv as [[-> ->] | [Hk0 Hch]].
      * (* first stage: stride 1 *)
        subst s. change (Z.of_nat 0 =? 0) with true in *. cbv iota in *.
        simpl negb. simpl orb.
        rewrite (first_stage_shortcut fn r c f Hfn Hf).
        rewrite !same_len_1 in Hz.
        split; [exact Hz|].
        split; [lia|].
        split; [destruct (is_bottleneck fn); simpl; lia|].
        split; [reflexivity|].
        eapply house_style_app; [exact Hh | exact Hh2 |].
        rewrite Hopens.
        destruct Hfn as [-> | ->]; simpl convs_per_block; lia.
      * (* later stage: stride 2 and a projection *)
        assert (E : (Z.of_nat k0 =? 0) = false) by (apply Z.eqb_neq; lia).
        subst s. rewrite E in *. simpl negb. simpl orb. cbv iota.
        rewrite (later_stage_shortcut _ _ ch (out_channels fn f) Hch).
        rewrite !same_len_same_len in Hz by (try apply Z.pow_pos_nonneg; lia).
        replace (2 ^ Z.of_nat
                       (1 + length (List.filter stage_halves stages)))
          with (2 * 2 ^ Z.of_nat (length (List.filter stage_halves stages)))
          by (rewrite Nat2Z.inj_add, Z.pow_add_r by lia; reflexivity).
        split; [exact Hz|].
        repeat (split; [first [reflexivity | lia] |]).
        eapply house_style_app; [exact Hh | exact Hh2 |].
        rewrite Hopens, ?andb_false_r. cbv iota.
        destruct Hfn as [-> | ->]; simpl convs_per_block; lia.
    + (* the stage is empty *)
      unfold _residual_block at 1. rewrite py_range_nonpos by exact Hnonpos.
      cbn [for_each].
      unfold bind at 1. unfold bind at 1. unfold ret at 1. unfold ret at 1.
      destruct (IH (S k0) (f * 2) r c ch k g)
        as (z & f' & d2 & ch' & Hrun2 & Hz & Ha2 & Hcv2 & Hp2 & Hh2);
        try assumption.
      { lia. }
      { right. split; [lia|].
        pose proof (out_channels_double fn f Hf).
        pose proof (out_channels_ge fn f Hf).
        destruct Hinv as [[_ ->] | [_ Hch]]; lia. }
      fold stages in Hrun2, Hz, Hcv2, Hh2.
      exists z, f', d2, ch'.
      split; [exact Hrun2|].
      split; [exact Hz|].
      replace (Z.to_nat rr) with 0%nat by lia.
      rewrite Ha2, Hcv2, Hp2.
      repeat (split; [first [reflexivity | lia] |]).
      replace (convs_per_block fn * (0 + total_blocks reps)
               - (0 + length (List.filter stage_opens stages)))%nat
        with (convs_per_block fn * total_blocks reps
              - length (List.filter stage_opens stages))%nat by lia.
      exact Hh2.
Qed.

Ltac small_house_style :=
  repeat split; try reflexivity;
  repeat (apply Forall_cons_2; [reflexivity |]); apply Forall_nil_2.

Lemma resnet_census (globals : gmap string pyval) (fn : pyfun)
    (repetitions : list Z) (r c ch num_outputs : Z) :
  is_block fn -> 0 < r -> 0 < c ->
  let stages := enumerate repetitions in
  let h := Z.of_nat (length (List.filter stage_halves stages)) in
  exists m,
    build (resnet globals [r; c; ch] num_outputs (PyFunc fn) repetitions)
    = Ok m
    /\ count_layers is_add (layers m) = total_blocks repetitions
    /\ count_layers is_conv (layers m)
       = (1 + convs_per_block fn * total_blocks repetitions
          + length (List.filter (stage_projects fn) stages))%nat
    /\ pool_sizes (layers m)
       = [(Some (same_len r (4 * 2 ^ h)), Some (same_len c (4 * 2 ^ h)))]
    /\ house_style (layers m)
         (2 + (convs_per_block fn * total_blocks repetitions
               - length (List.filter stage_opens stages))).
Proof.
  intros Hfn Hr Hc stages h. unfold build, resnet.
  change (negb (length [r; c; ch] =? 3)%nat) with false. cbv iota.
  unfold Input.
  erewrite bind_ok by (apply call_layer_ok; reflexivity).
  simpl map. simpl length.
  erewrite bind_ok by (apply conv_bn_relu_run; simpl; lia).
  erewrite bind_ok by (apply max_pool_same_run; simpl; lia).
  simpl app. simpl length. simpl fst. simpl snd.
  unfold bind at 1. unfold lift at 1. simpl _get_block. cbv iota.
  set (g0 := [mk_node (InputLayer [r; c; ch]) [];
              conv_node (he_conv 64 (7, 7) (2, 2) same) 0%nat;
              bn_node 1%nat; relu_node 2%nat;
              mk_node (MaxPooling2D (3, 3) (2, 2) same) [3%nat]]).
  rewrite !same_len_same_len by lia. change (2 * 2) with 4.
  assert (Hr4 : 0 < same_len r 4) by (apply same_len_pos; lia).
  assert (Hc4 : 0 < same_len c 4) by (apply same_len_pos; lia).
  destruct (stages_census fn None repetitions Hfn 0%nat 64 (same_len r 4)
              (same_len c 4) 64 4%nat g0 ltac:(lia) Hr4 Hc4
              (or_introl (conj eq_refl eq_refl)))
    as (y & f' & delta & ch' & Hrun & Hy & Ha & Hcv & Hp & Hh).
  assert (Hst : combine (map Z.of_nat (seq 0 (length repetitions)))
                  repetitions = stages).
  { subst stages. unfold enumerate, py_range. rewrite Nat2Z.id.
    reflexivity. }
  rewrite Hst in Hrun, Hy, Hcv, Hh. fold h in Hy.
  erewrite bind_ok by exact Hrun.
  destruct y as [k sh]. simpl in Hy. subst sh. simpl fst.
  erewrite bind_ok by apply bn_relu_run.
  simpl int_shape. simpl tid.
  unfold bind at 1. unfold lift at 1. rewrite subscript_rows.
  unfold bind at 1. unfold lift at 1. rewrite subscript_cols.
  erewrite bind_ok by apply global_average_pool_run.
  erewrite bind_ok by (apply call_layer_ok; reflexivity).
  erewrite bind_ok by (apply call_layer_ok; reflexivity).
  unfold make_model.
  eexists. split; [reflexivity|]. cbn [layers].
  rewrite !same_len_same_len
    by (try apply Z.pow_pos_nonneg; lia).
  split; [| split; [| split]].
  - rewrite !count_layers_app, Ha. subst g0. unfold count_layers. simpl. lia.
  - rewrite !count_layers_app, Hcv. subst g0. unfold count_layers. simpl.
    lia.
  - rewrite !pool_sizes_app, Hp. reflexivity.
  - match type of Hh with
    | house_style _ ?X =>
        apply (house_style_app _ _ (2 + X) 0); [| small_house_style | lia];
        apply (house_style_app _ _ (2 + X) 0); [| small_house_style | lia];
        apply (house_style_app _ _ (2 + X) 0); [| small_house_style | lia];
        apply (house_style_app _ _ (1 + X) 1); [| small_house_style | lia];
        apply (house_style_app _ _ 1 X); [| exact Hh | lia]
    end.
    subst g0. small_house_style.
Qed.

(** X11. The layers of the network, counted for every repetition list: one
    merge per block; one convolution in the stem, two or three on the main
    path of every block, and one projection shortcut at the head of every
    stage that has blocks -- save the first stage of a network of basic
    blocks, whose first block keeps the 64 channels of the stem. *)
Theorem resnet_layer_census (globals : gmap string pyval) (fn : pyfun)
    (repetitions : list Z) (r c ch num_outputs : Z) :
  is_block fn -> 0 < r -> 0 < c ->
  exists m,
    build (resnet globals [r; c; ch] num_outputs (PyFunc fn) repetitions)
    = Ok m
    /\ count_layers is_add (layers m) = total_blocks repetitions
    /\ count_layers is_conv (layers m)
       = (1 + convs_per_block fn * total_blocks repetitions
          + length (List.filter (stage_projects fn) (enumerate repetitions)))%nat
    /\ (length (main_convs (layers m))
        + length (List.filter (stage_projects fn) (enumerate repetitions))
        = count_layers is_conv (layers m))%nat.
Proof.
  intros Hfn Hr Hc.
  destruct (resnet_census globals fn repetitions r c ch num_outputs Hfn Hr Hc)
    as (m & Hrun & Ha & Hcv & _).
  destruct (resnet_architecture globals fn repetitions r c ch num_outputs
              Hfn Hr Hc) as (m' & Hrun' & Hm & _).
  rewrite Hrun in Hrun'. injection Hrun' as <-.
  exists m. split; [exact Hrun|]. split; [exact Ha|]. split; [exact Hcv|].
  rewrite Hm, Hcv, expected_convs_length by exact Hfn. lia.
Qed.

Lemma resnet_layer_census_witness :
  exists m,
    build (resnet_50 module_globals [224; 224; 3] 1000) = Ok m
    /\ count_layers is_add (layers m) = 16%nat
    /\ count_layers is_conv (layers m) = 53%nat.
Proof.
  destruct (resnet_layer_census module_globals F_bottleneck [3; 4; 6; 3]
              224 224 3 1000)
    as (m & Hrun & Ha & Hcv & _).
  - right. reflexivity.
  - lia.
  - lia.
  - exists m. split; [exact Hrun|]. split; [exact Ha | exact Hcv].
Defined.

(** X12. The average pooling at the end is global: there is one such layer
    and its window is the whole feature map, whose side is the input side
    divided, rounding up, by 4 for the stem and by 2 for every stage after
    the first that has a block. *)
Theorem resnet_global_pooling (globals : gmap string pyval) (fn : pyfun)
    (repetitions : list Z) (r c ch num_outputs : Z) :
  is_block fn -> 0 < r -> 0 < c ->
  let h := Z.of_nat (length (List.filter stage_halves (enumerate repetitions)))
  in
  exists m,
    build (resnet globals [r; c; ch] num_outputs (PyFunc fn) repetitions)
    = Ok m
    /\ pool_sizes (layers m)
       = [(Some ((r + 4 * 2 ^ h - 1) / (4 * 2 ^ h)),
           Some ((c + 4 * 2 ^ h - 1) / (4 * 2 ^ h)))].
Proof.
  intros Hfn Hr Hc h.
  destruct (resnet_census globals fn repetitions r c ch num_outputs Hfn Hr Hc)
    as (m & Hrun & _ & _ & Hp & _).
  exists m. split; [exact Hrun | exact Hp].
Qed.

Lemma resnet_global_pooling_witness :
  exists m,
    build (resnet_18 module_globals [224; 200; 3] 1000) = Ok m
    /\ pool_sizes (layers m) = [(Some 7, Some 7)].
Proof.
  apply (resnet_global_pooling module_globals F_basic_block [2; 2; 2; 2]
           224 200 3 1000).
  - left. reflexivity.
  - lia.
  - lia.
Defined.

(** X13. A block on a tensor of known positive size, with stride 1 or 2:
    it returns the input size divided by the stride, rounding up, with
    [filters] channels for [basic_block] and four times as many for
    [bottleneck]; it merges once; and it adds a projection to its two or
    three convolutions exactly when the shape it returns differs from the
    shape of its input. *)
Theorem block_shape_and_shortcut (g : graph) (k : nat) (b : dim)
    (r c ch f s : Z) (first : bool) :
  0 < r -> 0 < c -> s = 1 \/ s = 2 ->
  let x := mk_tensor k [b; Some r; Some c; Some ch] in
  (exists y delta,
     basic_block f (s, s) first x g = Ok (y, g ++ delta)
     /\ int_shape y
        = [b; Some ((r + s - 1) / s); Some ((c + s - 1) / s); Some f]
     /\ count_layers is_add delta = 1%nat
     /\ (int_shape y = int_shape x -> count_layers is_conv delta = 2%nat)
     /\ (int_shape y <> int_shape x -> count_layers is_conv delta = 3%nat))
  /\ (exists y delta,
        bottleneck f (s, s) first x g = Ok (y, g ++ delta)
        /\ int_shape y
           = [b; Some ((r + s - 1) / s); Some ((c + s - 1) / s); Some (f * 4)]
        /\ count_layers is_add delta = 1%nat
        /\ (int_shape y = int_shape x -> count_layers is_conv delta = 3%nat)
        /\ (int_shape y <> int_shape x -> count_layers is_conv delta = 4%nat)).
Proof.
  intros Hr Hc Hs x. split.
  - destruct (basic_block_census g k b r c ch f s first Hr Hc Hs)
      as (y & delta & Hrun & Hy & Ha & Hcv & _).
    exists y, delta. split; [exact Hrun|]. split; [exact Hy|].
    split; [exact Ha|]. rewrite Hy. subst x. simpl int_shape.
    pose proof (identity_shortcut_same_shape b r c ch f s Hr Hc Hs) as Hiff.
    destruct (identity_shortcut _ _ _ _).
    + split; [intros _; exact Hcv|]. intros Hne. exfalso. apply Hne.
      apply Hiff. reflexivity.
    + split; [| intros _; exact Hcv]. intros He. apply Hiff in He.
      discriminate.
  - destruct (bottleneck_census g k b r c ch f s first Hr Hc Hs)
      as (y & delta & Hrun & Hy & Ha & Hcv & _).
    exists y, delta. split; [exact Hrun|]. split; [exact Hy|].
    split; [exact Ha|]. rewrite Hy. subst x. simpl int_shape.
    pose proof (identity_shortcut_same_shape b r c ch (f * 4) s Hr Hc Hs)
      as Hiff.
    destruct (identity_shortcut _ _ _ _).
    + split; [intros _; exact Hcv|]. intros Hne. exfalso. apply Hne.
      apply Hiff. reflexivity.
    + split; [| intros _; exact Hcv]. intros He. apply Hiff in He.
      discriminate.
Qed.

Lemma block_shape_and_shortcut_witness :
  exists y delta,
    basic_block 128 (2, 2) false
      (mk_tensor 0 [None; Some 56; Some 56; Some 64])
      [mk_node (InputLayer [56; 56; 64]) []]
    = Ok (y, [mk_node (InputLayer [56; 56; 64]) []] ++ delta)
    /\ int_shape y = [None; Some 28; Some 28; Some 128]
    /\ count_layers is_add delta = 1%nat.
Proof.
  destruct (block_shape_and_shortcut [mk_node (InputLayer [56; 56; 64]) []]
              0 None 56 56 64 128 2 false)
    as [(y & delta & Hrun & Hy & Ha & _) _].
  - lia.
  - lia.
  - right. reflexivity.
  - exists y, delta. split; [exact Hrun|]. split; [exact Hy | exact Ha].
Defined.

Lemma stage_opens_le (repetitions : list Z) :
  (length (List.filter stage_opens (enumerate repetitions))
   <= total_blocks repetitions)%nat.
Proof.
  unfold enumerate, py_range. rewrite Nat2Z.id.
  destruct repetitions as [| x reps]; [simpl; lia|].
  change (combine (map Z.of_nat (seq 0 (length (x :: reps)))) (x :: reps))
    with ((Z.of_nat 0, x)
          :: combine (map Z.of_nat (seq 1 (length reps))) reps).
  rewrite stage_opens_cons, stage_opens_later by lia.
  change (total_blocks (x :: reps)) with (Z.to_nat x + total_blocks reps)%nat.
  destruct (Z.ltb_spec 0 x); simpl; lia.
Qed.

(** X14. The blocks are pre-activated: every weighted layer of the network
    has a batch normalisation of its own -- in front of it for the
    convolutions of the blocks and for the classifier, behind it for the
    stem -- except the first convolution of the first block of the first
    stage, which [is_first_block_of_first_layer] lets follow the stem
    directly.  Every batch normalisation is paired with a ReLU. *)
Theorem resnet_pre_activation (globals : gmap string pyval) (fn : pyfun)
    (repetitions : list Z) (r c ch num_outputs : Z) :
  is_block fn -> 0 < r -> 0 < c ->
  exists m,
    build (resnet globals [r; c; ch] num_outputs (PyFunc fn) repetitions)
    = Ok m
    /\ count_layers is_relu (layers m) = count_layers is_bn (layers m)
    /\ (count_layers is_bn (layers m)
        + length (List.filter stage_opens (enumerate repetitions))
        = weighted_layers m)%nat.
Proof.
  intros Hfn Hr Hc.
  destruct (resnet_census globals fn repetitions r c ch num_outputs Hfn Hr Hc)
    as (m & Hrun & _ & _ & _ & Hbn & Hrelu & _).
  destruct (resnet_architecture globals fn repetitions r c ch num_outputs
              Hfn Hr Hc) as (m' & Hrun' & Hm & Hd & _).
  rewrite Hrun in Hrun'. injection Hrun' as <-.
  exists m. split; [exact Hrun|]. split; [congruence|].
  unfold weighted_layers.
  rewrite Hbn, Hm, Hd, expected_convs_length by exact Hfn.
  pose proof (stage_opens_le repetitions) as Hle.
  assert (total_blocks repetitions
          <= convs_per_block fn * total_blocks repetitions)%nat
    by (destruct Hfn as [-> | ->]; simpl convs_per_block; lia).
  simpl length. lia.
Qed.

Lemma resnet_pre_activation_witness :
  exists m,
    build (resnet_34 module_globals [224; 224; 3] 1000) = Ok m
    /\ count_layers is_relu (layers m) = 33%nat
    /\ count_layers is_bn (layers m) = 33%nat.
Proof.
  destruct (resnet_pre_activation module_globals F_basic_block [3; 4; 6; 3]
              224 224 3 1000)
    as (m & Hrun & Hrelu & Hbn).
  - left. reflexivity.
  - lia.
  - lia.
  - exists m. split; [exact Hrun|].
    assert (Hw : weighted_layers m = 34%nat).
    { destruct (resnet_architecture module_globals F_basic_block [3; 4; 6; 3]
                  224 224 3 1000) as (m' & Hrun' & Hm & Hd & _);
        [left; reflexivity | lia | lia |].
      unfold resnet_34 in Hrun. rewrite Hrun in Hrun'. injection Hrun' as <-.
      unfold weighted_layers. rewrite Hm, Hd. reflexivity. }
    rewrite Hw in Hbn. simpl in Hbn. split; lia.
Defined.

(** X15. Every convolution of the network -- the stem, the convolutions of
    the blocks and the projection shortcuts -- is created with the
    [he_normal] initialiser and the L2 penalty 1e-4. *)
Theorem resnet_conv_settings (globals : gmap string pyval) (fn : pyfun)
    (repetitions : list Z) (r c ch num_outputs : Z) :
  is_block fn -> 0 < r -> 0 < c ->
  exists m,
    build (resnet globals [r; c; ch] num_outputs (PyFunc fn) repetitions)
    = Ok m
    /\ forall nd cfg,
         In nd (layers m) -> node_layer nd = Conv2D cfg ->
         kernel_initializer cfg = "he_normal"
         /\ exists q, kernel_regularizer cfg = l2 q /\ (q == 1 # 10000)%Q.
Proof.
  intros Hfn Hr Hc.
  destruct (resnet_census globals fn repetitions r c ch num_outputs Hfn Hr Hc)
    as (m & Hrun & _ & _ & _ & _ & _ & Hall).
  exists m. split; [exact Hrun|]. intros nd cfg Hin Hcfg.
  rewrite Forall_forall in Hall.
  specialize (Hall nd (proj2 (list_elem_of_In _ _) Hin)).
  simpl in Hall. rewrite Hcfg in Hall. simpl in Hall.
  apply andb_prop in Hall as [Hini Hreg]. split.
  - apply String.eqb_eq. exact Hini.
  - destruct (kernel_regularizer cfg) as [q]. exists q.
    split; [reflexivity|]. apply Qeq_bool_iff. exact Hreg.
Qed.

Lemma resnet_conv_settings_witness :
  exists m,
    build (resnet_18 module_globals [64; 64; 3] 10) = Ok m
    /\ forall nd cfg,
         In nd (layers m) -> node_layer nd = Conv2D cfg ->
         kernel_initializer cfg = "he_normal"
         /\ exists q, kernel_regularizer cfg = l2 q /\ (q == 1 # 10000)%Q.
Proof.
  apply (resnet_conv_settings module_globals F_basic_block [2; 2; 2; 2]
           64 64 3 10).
  - left. reflexivity.
  - lia.
  - lia.
Defined.

(** ** Empty images *)

Lemma same_len_0 (s : Z) : s = 1 \/ s = 2 -> same_len 0 s = 0.
Proof. intros [-> | ->]; reflexivity. Qed.

Lemma shortcut_zero_size (k1 k2 : nat) (b1 b2 ch1 ch2 : dim)
    (r1 c1 r2 c2 : Z) (g : graph) :
  r2 = 0 \/ c2 = 0 ->
  _shortcut (mk_tensor k1 [b1; Some r1; Some c1; ch1])
    (mk_tensor k2 [b2; Some r2; Some c2; ch2]) g
  = Err (Runtime "ZeroDivisionError").
Proof.
  intros H. unfold _shortcut. simpl int_shape.
  unfold bind at 1, lift at 1. rewrite subscript_rows.
  unfold bind at 1, lift at 1. rewrite subscript_rows.
  unfold bind at 1, lift at 1. unfold int_round_div at 1.
  destruct (Z.eqb_spec r2 0) as [| Hr2]; [reflexivity|].
  unfold bind at 1, lift at 1. rewrite subscript_cols.
  unfold bind at 1, lift at 1. rewrite subscript_cols.
  unfold bind at 1, lift at 1. unfold int_round_div at 1.
  destruct (Z.eqb_spec c2 0) as [| Hc2]; [reflexivity|].
  lia.
Qed.

Lemma call_block_zero_size (fn : pyfun) (f s : Z) (first : bool) (k : nat)
    (b ch : dim) (r c : Z) (g : graph) :
  is_block fn -> s = 1 \/ s = 2 -> r = 0 \/ c = 0 ->
  call_block (PyFunc fn) f (s, s) first (mk_tensor k [b; Some r; Some c; ch]) g
  = Err (Runtime "ZeroDivisionError").
Proof.
  intros Hfn Hs Hz.
  assert (Hs0 : s <> 0) by lia.
  assert (Hz' : same_len r s = 0 \/ same_len c s = 0).
  { destruct Hz as [-> | ->]; [left | right]; apply same_len_0; exact Hs. }
  destruct Hfn as [-> | ->]; simpl call_block.
  - unfold basic_block. destruct first.
    + erewrite bind_ok
        by (apply (conv_same_run (he_conv f (3, 3) (s, s) same));
            first [reflexivity | exact Hs0]).
      erewrite bind_ok by (apply bn_relu_conv_run; simpl; lia).
      simpl default. simpl fst. simpl snd. simpl filters.
      rewrite !same_len_1. apply shortcut_zero_size. exact Hz'.
    + erewrite bind_ok by (apply bn_relu_conv_run; simpl; lia).
      erewrite bind_ok by (apply bn_relu_conv_run; simpl; lia).
      simpl default. simpl fst. simpl snd.
      rewrite !same_len_1. apply shortcut_zero_size. exact Hz'.
  - unfold bottleneck. destruct first.
    + erewrite bind_ok
        by (apply (conv_same_run (he_conv f (1, 1) (s, s) same));
            first [reflexivity | exact Hs0]).
      erewrite bind_ok by (apply bn_relu_conv_run; simpl; lia).
      erewrite bind_ok by (apply bn_relu_conv_run; simpl; lia).
      simpl default. simpl fst. simpl snd. simpl filters.
      rewrite !same_len_1. apply shortcut_zero_size. exact Hz'.
    + erewrite bind_ok by (apply bn_relu_conv_run; simpl; lia).
      erewrite bind_ok by (apply bn_relu_conv_run; simpl; lia).
      erewrite bind_ok by (apply bn_relu_conv_run; simpl; lia).
      simpl default. simpl fst. simpl snd.
      rewrite !same_len_1. apply shortcut_zero_size. exact Hz'.
Qed.

Lemma stages_zero_size (fn : pyfun) (stages : list (Z * Z)) (f : Z)
    (x : tensor) (g : graph) (b ch : dim) (r c : Z) :
  is_block fn ->
  int_shape x = [b; Some r; Some c; ch] -> r = 0 \/ c = 0 ->
  Exists (fun n => 0 < n) (map snd stages) ->
  for_each stages
    (fun '(i, r) '(block, filters) =>
       block <- _residual_block (call_block (PyFunc fn)) filters r (i =? 0)
                  block ;;
       ret (block, filters * 2))
    (x, f) g
  = Err (Runtime "ZeroDivisionError").
Proof.
  intros Hfn Hx Hz. revert f.
  induction stages as [| [i rr] stages IH]; intros f Hex; simpl in Hex.
  - apply Exists_nil in Hex. contradiction.
  - cbn [for_each].
    destruct (Z.ltb_spec 0 rr) as [Hpos | Hnonpos].
    + destruct (py_range_succ rr Hpos) as (idx & Hrange & _ & _).
      unfold bind at 1. unfold bind at 1.
      unfold _residual_block at 1. rewrite Hrange. cbn [for_each].
      destruct (block_strides_cases (i =? 0) 0) as (s & Hst & Hs).
      unfold block_strides in Hst. rewrite Hst.
      destruct x as [k sh]. simpl in Hx. subst sh.
      unfold bind at 1.
      rewrite (call_block_zero_size fn f s _ k b ch r c g Hfn Hs Hz).
      reflexivity.
    + unfold _residual_block at 1. rewrite py_range_nonpos by exact Hnonpos.
      cbn [for_each].
      unfold bind at 1. unfold bind at 1. unfold ret at 1. unfold ret at 1.
      apply IH. apply Exists_cons in Hex as [Hex | Hex]; [simpl in Hex; lia|].
      exact Hex.
Qed.

(** X17. An input with no rows or no columns cannot pass a residual block:
    the residual has size zero and [_shortcut] divides by it.  With a
    repetition list that asks for at least one block, [resnet] stops with
    [ZeroDivisionError]. *)
Theorem resnet_empty_image (globals : gmap string pyval) (fn : pyfun)
    (repetitions : list Z) (r c ch num_outputs : Z) :
  is_block fn -> 0 <= r -> 0 <= c -> r = 0 \/ c = 0 ->
  Exists (fun n => 0 < n) repetitions ->
  build (resnet globals [r; c; ch] num_outputs (PyFunc fn) repetitions)
  = Err (Runtime "ZeroDivisionError").
Proof.
  intros Hfn _ _ Hz Hex. unfold build, resnet.
  change (negb (length [r; c; ch] =? 3)%nat) with false. cbv iota.
  unfold Input.
  erewrite bind_ok by (apply call_layer_ok; reflexivity).
  simpl map. simpl length.
  erewrite bind_ok by (apply conv_bn_relu_run; simpl; lia).
  erewrite bind_ok by (apply max_pool_same_run; simpl; lia).
  simpl app. simpl length. simpl fst. simpl snd.
  unfold bind at 1. unfold lift at 1. simpl _get_block. cbv iota.
  unfold bind at 1.
  erewrite stages_zero_size; [reflexivity | exact Hfn | reflexivity | |].
  - destruct Hz as [-> | ->]; [left | right]; reflexivity.
  - rewrite enumerate_snd. exact Hex.
Qed.

Lemma resnet_empty_image_witness :
  build (resnet_18 module_globals [0; 32; 3] 10)
  = Err (Runtime "ZeroDivisionError").
Proof.
  apply (resnet_empty_image module_globals F_basic_block [2; 2; 2; 2]
           0 32 3 10).
  - left. reflexivity.
  - lia.
  - lia.
  - left. reflexivity.
  - apply Exists_cons_hd. lia.
Defined.

(** ** Images with other channel counts *)

Lemma map_result_first_error {A B} (f : A -> result B) (e : exn) (x : A)
    (l : list A) :
  f x = Err e -> map_result f (x :: l) = Err e.
Proof. intros H. simpl. rewrite H. reflexivity. Qed.

Lemma slice_channel_out_of_range (img : image)
    (px : list Byte.byte) (rest : list (list Byte.byte))
    (rows : list (list (list Byte.byte))) (k : nat) :
  img = (px :: rest) :: rows -> (length px <= k)%nat ->
  slice_channel img k = Err (Runtime "IndexError").
Proof.
  intros -> Hk. unfold slice_channel.
  apply map_result_first_error. apply map_result_first_error.
  rewrite lookup_ge_None_2 by exact Hk. reflexivity.
Qed.

(** X18. [binarize] reads channels 1 and 2 only.  On an image with a pixel,
    all of whose pixels have [n] channels, it succeeds when [n >= 3] --
    a fourth channel, such as alpha, is ignored like the first -- and it
    stops with [IndexError] when [n < 3], as for a greyscale image. *)
Theorem binarize_by_channel_count
    (addWeighted : plane -> Q -> plane -> Q -> Q -> plane)
    (adaptiveThreshold :
       plane -> Z -> adaptive_method -> threshold_type -> Z -> Z -> plane)
    (img : image) (n : nat) :
  Forall (Forall (fun px : list Byte.byte => length px = n)) img ->
  (exists px rest rows, img = (px :: rest) :: rows) ->
  ((3 <= n)%nat ->
   binarize addWeighted adaptiveThreshold img
   = Ok (adaptiveThreshold
           (addWeighted (map (map (fun px => nth 2 px Byte.x00)) img) (1 # 2)
              (map (map (fun px => nth 1 px Byte.x00)) img) (1 # 2) 0%Q)
           255 ADAPTIVE_THRESH_GAUSSIAN_C THRESH_BINARY_INV 9 10))
  /\ ((n < 3)%nat ->
      binarize addWeighted adaptiveThreshold img
      = Err (Runtime "IndexError")).
Proof.
  intros Hn (px & rest & rows & Himg).
  assert (Hlt : forall k, (k < n)%nat ->
                  Forall (Forall (fun px : list Byte.byte =>
                                    (k < length px)%nat)) img).
  { intros k Hk. eapply Forall_impl; [exact Hn|]. intros row Hrow. simpl.
    eapply Forall_impl; [exact Hrow|]. intros p Hp. simpl in *. lia. }
  assert (Hpx : length px = n).
  { subst img. apply Forall_cons in Hn as [Hrow _].
    apply Forall_cons in Hrow as [Hp _]. exact Hp. }
  split.
  - intros H3.
    match goal with
    | |- _ = Ok ?t => rewrite <- (opening_1x1 t)
    end.
    unfold binarize.
    rewrite (slice_channel_ok img 1 (Hlt 1%nat ltac:(lia))).
    rewrite (slice_channel_ok img 2 (Hlt 2%nat ltac:(lia))).
    reflexivity.
  - intros H3. unfold binarize.
    destruct (Nat.le_gt_cases n 1) as [H1 | H1].
    + rewrite (slice_channel_out_of_range img px rest rows 1 Himg)
        by lia.
      reflexivity.
    + rewrite (slice_channel_ok img 1 (Hlt 1%nat ltac:(lia))).
      rewrite (slice_channel_out_of_range img px rest rows 2 Himg)
        by lia.
      reflexivity.
Qed.

Lemma binarize_by_channel_count_witness :
  binarize sample_addWeighted sample_adaptiveThreshold
    [[[Byte.x10; Byte.x20; Byte.x30; Byte.xff];
      [Byte.xf0; Byte.xe0; Byte.xd0; Byte.xff]]]
  = Ok [[Byte.xff; Byte.x00]]
  /\ binarize sample_addWeighted sample_adaptiveThreshold
       [[[Byte.x10]; [Byte.xf0]]]
     = Err (Runtime "IndexError").
Proof.
  split.
  - apply (binarize_by_channel_count sample_addWeighted
             sample_adaptiveThreshold
             [[[Byte.x10; Byte.x20; Byte.x30; Byte.xff];
               [Byte.xf0; Byte.xe0; Byte.xd0; Byte.xff]]] 4).
    + repeat (apply Forall_cons_2 || apply Forall_nil_2); reflexivity.
    + eexists _, _, _. reflexivity.
    + lia.
  - apply (binarize_by_channel_count sample_addWeighted
             sample_adaptiveThreshold [[[Byte.x10]; [Byte.xf0]]] 1).
    + repeat (apply Forall_cons_2 || apply Forall_nil_2); reflexivity.
    + eexists _, _, _. reflexivity.
    + lia.
Defined.
